(** * Aggregation pipeline of the Premier League dashboard (src/App.tsx)

    A shallow embedding of the pure data derivations of [App.tsx]
    ([parseScore], [teamGoals], [timeseriesData], [matchOutcomes],
    [ppgTimeseriesData]) together with the properties the specification
    states about them.

    Modelling conventions.
    - A JavaScript [number] is an exact rational or one of NaN, +Infinity,
      -Infinity.  Rounding to binary64 and the sign of zero are abstracted:
      arithmetic is exact and every finite result is kept in lowest terms
      ([Qred]), so that equal values are equal terms.  The program computes
      in binary64, so a property is stated without further hypothesis only
      when it uses what both arithmetics share: integer counts, the order
      of numbers, a single quotient.  A property that needs more (sums of
      parsed goals, rates that are told apart) is stated for datasets of
      safe size ([safe_size]), on which the program's integers are exact
      and its quotients are ordered as the exact ones; an identity that
      rounding breaks, such as [a / b * b = a], is stated only where the
      quotient is a whole number.
    - A JavaScript string is a [string] holding its UTF-8 encoding; for
      well-formed text, [===] and [split] on it agree with the UTF-16
      operations of the language.
    - [Array.prototype.forEach] and [map] callbacks that update captured
      variables are written in a small state monad.
    - [Array.prototype.sort] is a stable insertion sort driven by the
      comparator's sign, NaN counting as zero (ECMAScript SortCompare).  The
      language fixes the result of a sort, which is stable, whenever the
      comparator is consistent, so the algorithm chosen does not matter
      there; where it is not (dates that do not parse) the order is left to
      the implementation and nothing is proved about it.
    - [new Date(s).getTime()] is a parameter of the development: outside
      the ISO forms the result is implementation-defined.  [IsoDate] gives
      one instance, used to evaluate the functions on concrete rows. *)

From Stdlib Require Import List String Ascii ZArith QArith Qreduction Qround Qabs Bool Lia.
From Stdlib Require Import Sorting.Sorted Sorting.Permutation.
From Stdlib Require DecimalString DecimalNat DecimalFacts.
Import ListNotations.

Local Open Scope Z_scope.
Local Open Scope string_scope.

(* ------------------------------------------------------------------ *)
(** ** JavaScript numbers *)

Module Num.

Inductive number : Type :=
| Fin (q : Q)
| NaN
| PosInf
| NegInf.

Definition of_Z (z : Z) : number := Fin (inject_Z z).
Definition of_nat (n : nat) : number := of_Z (Z.of_nat n).

Definition Qltb (a b : Q) : bool := negb (Qle_bool b a).
Definition Qis0 (a : Q) : bool := Qeq_bool a 0.

Definition neg (a : number) : number :=
  match a with
  | Fin q => Fin (Qred (- q))
  | NaN => NaN
  | PosInf => NegInf
  | NegInf => PosInf
  end.

Definition add (a b : number) : number :=
  match a, b with
  | NaN, _ | _, NaN => NaN
  | Fin x, Fin y => Fin (Qred (x + y))
  | PosInf, NegInf | NegInf, PosInf => NaN
  | PosInf, _ | _, PosInf => PosInf
  | NegInf, _ | _, NegInf => NegInf
  end.

Definition sub (a b : number) : number := add a (neg b).

(** Sign of a non-NaN number: [Lt] negative, [Eq] zero, [Gt] positive. *)
Definition sign (a : number) : comparison :=
  match a with
  | Fin q => Qcompare q 0
  | PosInf => Gt
  | NegInf => Lt
  | NaN => Eq
  end.

Definition inf_of_sign (s : comparison) : number :=
  match s with Lt => NegInf | Gt => PosInf | Eq => NaN end.

Definition sign_mul (s t : comparison) : comparison :=
  match s, t with
  | Eq, _ | _, Eq => Eq
  | Lt, Lt | Gt, Gt => Gt
  | _, _ => Lt
  end.

Definition mul (a b : number) : number :=
  match a, b with
  | NaN, _ | _, NaN => NaN
  | Fin x, Fin y => Fin (Qred (x * y))
  | _, _ => inf_of_sign (sign_mul (sign a) (sign b))
  end.

Definition div (a b : number) : number :=
  match a, b with
  | NaN, _ | _, NaN => NaN
  | Fin x, Fin y =>
      if Qis0 y then inf_of_sign (sign a) else Fin (Qred (x / y))
  | Fin _, _ => Fin 0
  | _, Fin y => inf_of_sign (sign_mul (sign a) (if Qis0 y then Gt else sign b))
  | _, _ => NaN
  end.

(** [a < b]; false as soon as one side is NaN. *)
Definition ltb (a b : number) : bool :=
  match a, b with
  | NaN, _ | _, NaN => false
  | Fin x, Fin y => Qltb x y
  | NegInf, NegInf | PosInf, _ | _, NegInf => false
  | _, _ => true
  end.

Definition gtb (a b : number) : bool := ltb b a.

(** [a === b] on numbers. *)
Definition strict_eq (a b : number) : bool :=
  match a, b with
  | Fin x, Fin y => Qeq_bool x y
  | PosInf, PosInf | NegInf, NegInf => true
  | _, _ => false
  end.

(** ToBoolean on numbers: zero and NaN are falsy. *)
Definition truthy (a : number) : bool :=
  match a with
  | Fin q => negb (Qis0 q)
  | NaN => false
  | _ => true
  end.

(** [a || b] on numbers. *)
Definition or (a b : number) : number := if truthy a then a else b.

Definition is_NaN (a : number) : bool :=
  match a with NaN => true | _ => false end.

End Num.

Export Num.

Declare Scope num_scope.
Delimit Scope num_scope with num.
Bind Scope num_scope with number.
Infix "+" := Num.add : num_scope.
Infix "-" := Num.sub : num_scope.
Infix "*" := Num.mul : num_scope.
Infix "/" := Num.div : num_scope.
Infix "<?" := Num.ltb : num_scope.
Infix ">?" := Num.gtb : num_scope.
Infix "===" := Num.strict_eq (at level 70, no associativity) : num_scope.
Infix "||" := Num.or : num_scope.

(* ------------------------------------------------------------------ *)
(** ** JavaScript strings *)

Module Str.

Definition code (c : ascii) : N := N_of_ascii c.

(** ToBoolean on strings: only the empty string is falsy. *)
Definition truthy (s : string) : bool :=
  match s with EmptyString => false | _ => true end.

Definition snoc (s : string) (c : ascii) : string := s ++ String c EmptyString.

(** [s.split(sep)] for a non-empty separator: [skip] counts the bytes of a
    separator occurrence still to be passed over, [acc] is the piece
    collected since the last occurrence. *)
Fixpoint split_from (sep : string) (skip : nat) (acc s : string) : list string :=
  match s with
  | EmptyString => [acc]
  | String c s' =>
      match skip with
      | S k => split_from sep k acc s'
      | O =>
          if String.prefix sep s
          then acc :: split_from sep (String.length sep - 1) EmptyString s'
          else split_from sep 0 (snoc acc c) s'
      end
  end.

Definition split (sep s : string) : list string := split_from sep 0 EmptyString s.

(** ToString of an array element that may be absent. *)
Definition ToString (x : option string) : string :=
  match x with Some s => s | None => "undefined" end.

(** One-byte WhiteSpace and LineTerminator code points:
    TAB, LF, VT, FF, CR, SP. *)
Definition is_ws1 (c : ascii) : bool :=
  let n := code c in
  (N.eqb n 9 || N.eqb n 10 || N.eqb n 11 || N.eqb n 12 || N.eqb n 13 || N.eqb n 32)%bool.

(** Two-byte: U+00A0 (C2 A0). *)
Definition is_ws2 (c1 c2 : ascii) : bool :=
  (N.eqb (code c1) 194 && N.eqb (code c2) 160)%bool.

(** Three-byte: U+1680, U+2000..U+200A, U+2028, U+2029, U+202F, U+205F,
    U+3000, U+FEFF. *)
Definition is_ws3 (c1 c2 c3 : ascii) : bool :=
  let a := code c1 in
  let b := code c2 in
  let c := code c3 in
  ((N.eqb a 225 && N.eqb b 154 && N.eqb c 128)
   || (N.eqb a 226 && N.eqb b 128
       && (N.leb 128 c && N.leb c 138 || N.eqb c 168 || N.eqb c 169 || N.eqb c 175))
   || (N.eqb a 226 && N.eqb b 129 && N.eqb c 159)
   || (N.eqb a 227 && N.eqb b 128 && N.eqb c 128)
   || (N.eqb a 239 && N.eqb b 187 && N.eqb c 191))%bool.

(** Removal of leading StrWhiteSpaceChar. *)
Fixpoint trim_start (s : string) : string :=
  match s with
  | EmptyString => s
  | String c1 s1 =>
      if is_ws1 c1 then trim_start s1
      else
        match s1 with
        | EmptyString => s
        | String c2 s2 =>
            if is_ws2 c1 c2 then trim_start s2
            else
              match s2 with
              | EmptyString => s
              | String c3 s3 => if is_ws3 c1 c2 c3 then trim_start s3 else s
              end
        end
  end.

Definition digit (c : ascii) : option Z :=
  let n := code c in
  if (N.leb 48 n && N.leb n 57)%bool then Some (Z.of_N n - 48) else None.

(** Value of the longest prefix of decimal digits, [None] when it is
    empty; [acc] is the value read so far, if any digit was read. *)
Fixpoint digits (acc : option Z) (s : string) : option Z :=
  match s with
  | EmptyString => acc
  | String c s' =>
      match digit c with
      | Some d =>
          digits (Some (10 * match acc with Some a => a | None => 0 end + d)) s'
      | None => acc
      end
  end.

(** [parseInt(x, 10)]: leading white space, an optional sign, then the
    longest run of decimal digits; NaN when there is none.  The value of
    the run is kept as it is written; the program holds the binary64 nearest
    to it, which is the same number up to 2^53. *)
Definition parseInt10 (x : option string) : number :=
  let s := trim_start (ToString x) in
  let '(sgn, body) :=
    match s with
    | String c s' =>
        if N.eqb (code c) 45 then (-1, s')
        else if N.eqb (code c) 43 then (1, s')
        else (1, s)
    | EmptyString => (1, s)
    end in
  match digits None body with
  | Some n => of_Z (sgn * n)
  | None => NaN
  end.

End Str.

(* ------------------------------------------------------------------ *)
(** ** Score parser *)

(** The separator of a score, U+2013 EN DASH. *)
Definition en_dash : string := "–".

Record Goals : Type := mkGoals { homeGoals : number; awayGoals : number }.

Definition parseScore (score : string) : Goals :=
  let parts := Str.split en_dash score in
  {| homeGoals := (Str.parseInt10 (nth_error parts 0) || of_Z 0)%num;
     awayGoals := (Str.parseInt10 (nth_error parts 1) || of_Z 0)%num |}.

(* ------------------------------------------------------------------ *)
(** ** State-passing callbacks *)

Definition State (S A : Type) : Type := S -> A * S.

Definition ret {S A : Type} (a : A) : State S A := fun s => (a, s).

Definition bind {S A B : Type} (m : State S A) (k : A -> State S B) : State S B :=
  fun s => let '(a, s') := m s in k a s'.

Definition get {S : Type} : State S S := fun s => (s, s).

Definition put {S : Type} (s : S) : State S unit := fun _ => (tt, s).

Definition exec {S A : Type} (m : State S A) (s : S) : S := snd (m s).

Definition eval {S A : Type} (m : State S A) (s : S) : A := fst (m s).

Notation "x <- m ;; k" := (bind m (fun x => k))
  (at level 61, m at next level, right associativity).
Notation "m ;; k" := (bind m (fun _ => k))
  (at level 61, right associativity).

(** [l.forEach(f)] where [f] updates captured variables. *)
Fixpoint forEach {S A : Type} (l : list A) (f : A -> State S unit) : State S unit :=
  match l with
  | [] => ret tt
  | x :: l' => f x ;; forEach l' f
  end.

(** [l.map(f)] where [f] updates captured variables. *)
Fixpoint mapM {S A B : Type} (f : A -> State S B) (l : list A) : State S (list B) :=
  match l with
  | [] => ret []
  | x :: l' => y <- f x ;; ys <- mapM f l' ;; ret (y :: ys)
  end.

(* ------------------------------------------------------------------ *)
(** ** [Map<string, V>]: keys in insertion order *)

Module JsMap.

Definition t (V : Type) : Type := list (string * V).

Definition empty {V : Type} : t V := [].

Fixpoint get {V : Type} (m : t V) (k : string) : option V :=
  match m with
  | [] => None
  | (k', v) :: m' => if String.eqb k' k then Some v else get m' k
  end.

(** An existing key keeps its position, a new one goes last. *)
Fixpoint set {V : Type} (m : t V) (k : string) (v : V) : t V :=
  match m with
  | [] => [(k, v)]
  | (k', v') :: m' =>
      if String.eqb k' k then (k, v) :: m' else (k', v') :: set m' k v
  end.

Definition entries {V : Type} (m : t V) : list (string * V) := m.

End JsMap.

(** [x || d] where [x] is an object or undefined. *)
Definition or_default {V : Type} (x : option V) (d : V) : V :=
  match x with Some v => v | None => d end.

(* ------------------------------------------------------------------ *)
(** ** [Array.prototype.sort] *)

(** [true] when the comparator asks for [x] after [y]. *)
Definition sort_after {A : Type} (cmp : A -> A -> number) (x y : A) : bool :=
  (cmp x y >? of_Z 0)%num.

Fixpoint sort_insert {A : Type} (cmp : A -> A -> number) (x : A) (l : list A) : list A :=
  match l with
  | [] => [x]
  | y :: l' => if sort_after cmp x y then y :: sort_insert cmp x l' else x :: l
  end.

Fixpoint sort {A : Type} (cmp : A -> A -> number) (l : list A) : list A :=
  match l with
  | [] => []
  | x :: l' => sort_insert cmp x (sort cmp l')
  end.

(* ------------------------------------------------------------------ *)
(** ** Match rows *)

Record MatchData : Type := mkMatch {
  Wk : number;
  Day : string;
  Date : string;
  Time : string;
  Home : string;
  xG : number;
  Score : string;
  xG_away : number;
  Away : string;
  Attendance : string;
  Venue : string;
  Referee : string
}.

(** [match.Home === team || match.Away === team] *)
Definition plays (team : string) (m : MatchData) : bool :=
  (String.eqb (Home m) team || String.eqb (Away m) team)%bool.

(* ------------------------------------------------------------------ *)
(** ** Team goal rates: [teamGoals] *)

Record Stats : Type := mkStats { goals : number; matches : number }.

Record TeamGoalRate : Type := mkRate { team : string; goalsPerMatch : number }.

(** The body of the loop.  The source fetches the accumulator object of a
    team (or a fresh one), updates its two fields in place and stores it
    back under the same key; with values in place of references that is
    the one [set] below.  The away side is read after the home side has
    been stored, so a row naming one team on both sides counts twice. *)
Definition teamGoals_step (m : MatchData) : State (JsMap.t Stats) unit :=
  let sc := parseScore (Score m) in
  (* Update home team stats *)
  statsByTeam <- get ;;
  let homeStats := or_default (JsMap.get statsByTeam (Home m)) (mkStats (of_Z 0) (of_Z 0)) in
  let homeStats := mkStats (goals homeStats + homeGoals sc)%num (matches homeStats + of_Z 1)%num in
  put (JsMap.set statsByTeam (Home m) homeStats) ;;
  (* Update away team stats *)
  statsByTeam <- get ;;
  let awayStats := or_default (JsMap.get statsByTeam (Away m)) (mkStats (of_Z 0) (of_Z 0)) in
  let awayStats := mkStats (goals awayStats + awayGoals sc)%num (matches awayStats + of_Z 1)%num in
  put (JsMap.set statsByTeam (Away m) awayStats).

(** The map [statsByTeam] once the loop over [data] has run. *)
Definition statsByTeam (data : list MatchData) : JsMap.t Stats :=
  exec (forEach data teamGoals_step) JsMap.empty.

Definition rate_of_entry (e : string * Stats) : TeamGoalRate :=
  mkRate (fst e) (goals (snd e) / matches (snd e))%num.

Definition by_rate_desc (a b : TeamGoalRate) : number :=
  (goalsPerMatch b - goalsPerMatch a)%num.

Definition teamGoals (data : list MatchData) : list TeamGoalRate :=
  sort by_rate_desc
    (map rate_of_entry
       (filter (fun e => (matches (snd e) >? of_Z 0)%num)
          (JsMap.entries (statsByTeam data)))).

(* ------------------------------------------------------------------ *)
(** ** Outcome tallies: [matchOutcomes] *)

Record Tally : Type := mkTally { homeWins : number; awayWins : number; draws : number }.

Record OutcomeSummary : Type := mkOutcomes {
  labels : list string;
  values : list number;
  percentages : list number;
  counts : list number;
  total : number
}.

Definition matchOutcomes_step (m : MatchData) : State Tally unit :=
  let sc := parseScore (Score m) in
  c <- get ;;
  if (homeGoals sc >? awayGoals sc)%num then
    put (mkTally (homeWins c + of_Z 1)%num (awayWins c) (draws c))
  else if (homeGoals sc <? awayGoals sc)%num then
    put (mkTally (homeWins c) (awayWins c + of_Z 1)%num (draws c))
  else
    put (mkTally (homeWins c) (awayWins c) (draws c + of_Z 1)%num).

Definition matchOutcomes (data : list MatchData) : OutcomeSummary :=
  let c := exec (forEach data matchOutcomes_step) (mkTally (of_Z 0) (of_Z 0) (of_Z 0)) in
  let total := (homeWins c + awayWins c + draws c)%num in
  {| labels := ["Home Wins"; "Away Wins"; "Draws"];
     values := [homeWins c; awayWins c; draws c];
     percentages := [ (homeWins c / total * of_Z 100)%num;
                      (awayWins c / total * of_Z 100)%num;
                      (draws c / total * of_Z 100)%num ];
     counts := [homeWins c; awayWins c; draws c];
     total := total |}.

(* ------------------------------------------------------------------ *)
(** ** Series that depend on dates *)

Module XgPoint.
Record t : Type := mk {
  date : string;
  xG : number;
  xGA : number;
  team : string;
  match_ : string;
  opponent : string
}.
End XgPoint.

Module PPGDataPoint.
Record t : Type := mk {
  date : string;
  ppg : number;
  points : number;
  matches : number;
  opponent : string;
  venue : string;
  result : string;
  score : string;
  team : string
}.
End PPGDataPoint.

Record PPGTimeseriesData : Type := mkPPG {
  primaryTeam : list PPGDataPoint.t;
  compareTeam : list PPGDataPoint.t
}.

(** The running totals captured by the callback of the points-per-game map. *)
Record Running : Type := mkRunning { points : number; matchesPlayed : number }.

Section Dated.

(** [new Date(s).getTime()]: a time value in milliseconds, or [None] for
    an invalid date (NaN). *)
Variable Date_getTime : string -> option Z.

Definition getTime (s : string) : number :=
  match Date_getTime s with Some t => of_Z t | None => NaN end.

(** *** xG time series: [timeseriesData] *)

Definition xg_point (selectedTeam : string) (d : MatchData) : XgPoint.t :=
  let isHome := String.eqb (Home d) selectedTeam in
  let isAway := String.eqb (Away d) selectedTeam in
  if (Str.truthy selectedTeam && (isHome || isAway))%bool then
    {| XgPoint.date := Date d;
       XgPoint.xG := if isHome then xG d else xG_away d;
       XgPoint.xGA := if isHome then xG_away d else xG d;
       XgPoint.team := selectedTeam;
       XgPoint.match_ := Home d ++ " vs " ++ Away d;
       XgPoint.opponent := if isHome then Away d else Home d |}
  else
    {| XgPoint.date := Date d;
       XgPoint.xG := xG d;
       XgPoint.xGA := xG_away d;
       XgPoint.team := Home d;
       XgPoint.match_ := Home d ++ " vs " ++ Away d;
       XgPoint.opponent := Away d |}.

Definition by_point_date (a b : XgPoint.t) : number :=
  (getTime (XgPoint.date a) - getTime (XgPoint.date b))%num.

Definition timeseriesData (data : list MatchData) (selectedTeam : string) : list XgPoint.t :=
  let filtered :=
    if Str.truthy selectedTeam then filter (plays selectedTeam) data else data in
  sort by_point_date (map (xg_point selectedTeam) filtered).

(** *** Points per game: [ppgTimeseriesData] *)

Definition by_match_date (a b : MatchData) : number :=
  (getTime (Date a) - getTime (Date b))%num.

Definition matchPoints (team : string) (m : MatchData) : number :=
  let sc := parseScore (Score m) in
  if String.eqb (Home m) team then
    (* Team played at home *)
    if (homeGoals sc >? awayGoals sc)%num then of_Z 3
    else if (homeGoals sc === awayGoals sc)%num then of_Z 1
    else of_Z 0
  else
    (* Team played away *)
    if (awayGoals sc >? homeGoals sc)%num then of_Z 3
    else if (homeGoals sc === awayGoals sc)%num then of_Z 1
    else of_Z 0.

Definition ppg_step (team : string) (m : MatchData) : State Running PPGDataPoint.t :=
  let mp := matchPoints team m in
  (* Update running totals *)
  st <- get ;;
  let points := (points st + mp)%num in
  let matchesPlayed := (matchesPlayed st + of_Z 1)%num in
  put (mkRunning points matchesPlayed) ;;
  ret {| PPGDataPoint.date := Date m;
         PPGDataPoint.ppg := (points / matchesPlayed)%num;
         PPGDataPoint.points := points;
         PPGDataPoint.matches := matchesPlayed;
         PPGDataPoint.opponent := if String.eqb (Home m) team then Away m else Home m;
         PPGDataPoint.venue := if String.eqb (Home m) team then "Home" else "Away";
         PPGDataPoint.result :=
           if (mp === of_Z 3)%num then "Win"
           else if (mp === of_Z 1)%num then "Draw" else "Loss";
         PPGDataPoint.score := Score m;
         PPGDataPoint.team := team |}.

(** The matches of [team] in chronological order. *)
Definition teamMatches (data : list MatchData) (team : string) : list MatchData :=
  sort by_match_date (filter (plays team) data).

(** The series of one team; the source spells this block out twice, for
    [selectedTeam] and for [compareTeam], with the variables renamed. *)
Definition ppg_series (data : list MatchData) (team : string) : list PPGDataPoint.t :=
  eval (mapM (ppg_step team) (teamMatches data team)) (mkRunning (of_Z 0) (of_Z 0)).

Definition ppgTimeseriesData (data : list MatchData) (selectedTeam compareTeam : string)
  : PPGTimeseriesData :=
  (* Only process data for a selected team *)
  if negb (Str.truthy selectedTeam) then mkPPG [] []
  else
    let result := ppg_series data selectedTeam in
    if Str.truthy compareTeam then mkPPG result (ppg_series data compareTeam)
    else mkPPG result [].

End Dated.

(* ------------------------------------------------------------------ *)
(** ** An instance of the date parameter *)

(** The date-only ISO form [YYYY-MM-DD], read as midnight UTC; every other
    string counts as an invalid date in this instance. *)
Module IsoDate.

Local Open Scope Z_scope.

Definition is_leap (y : Z) : bool :=
  ((y mod 4 =? 0) && (negb (y mod 100 =? 0) || (y mod 400 =? 0)))%bool.

Definition days_in_month (y m : Z) : Z :=
  if m =? 2 then (if is_leap y then 29 else 28)
  else if ((m =? 4) || (m =? 6) || (m =? 9) || (m =? 11))%bool then 30
  else 31.

(** Days from 1970-01-01 to the civil date [y]-[m]-[d]. *)
Definition days_from_civil (y m d : Z) : Z :=
  let y' := if m <=? 2 then y - 1 else y in
  let era := y' / 400 in
  let yoe := y' - era * 400 in
  let mp := (m + 9) mod 12 in
  let doy := (153 * mp + 2) / 5 + d - 1 in
  let doe := yoe * 365 + yoe / 4 - yoe / 100 + doy in
  era * 146097 + doe - 719468.

Definition number_of (l : list ascii) : option Z :=
  fold_left
    (fun acc c =>
       match acc, Str.digit c with
       | Some a, Some d => Some (10 * a + d)
       | _, _ => None
       end) l (Some 0).

Definition getTime (s : string) : option Z :=
  match list_ascii_of_string s with
  | [y1; y2; y3; y4; d1; m1; m2; d2; a1; a2] =>
      if (N.eqb (Str.code d1) 45 && N.eqb (Str.code d2) 45)%bool then
        match number_of [y1; y2; y3; y4], number_of [m1; m2], number_of [a1; a2] with
        | Some y, Some m, Some d =>
            if ((1 <=? m) && (m <=? 12) && (1 <=? d) && (d <=? days_in_month y m))%bool
            then Some (days_from_civil y m d * 86400000)
            else None
        | _, _, _ => None
        end
      else None
  | _ => None
  end.

End IsoDate.

(* ------------------------------------------------------------------ *)
(** ** Notions used to state the properties *)

(** [a <= b] on numbers; false as soon as one side is NaN. *)
Definition num_leb (a b : number) : bool := ((a <? b)%num || (a === b)%num)%bool.

(** The integer a finite integral number stands for. *)
Definition to_Z (a : number) : Z :=
  match a with Fin q => Qfloor q | _ => 0 end.

(** [a] is a finite integer. *)
Definition whole (a : number) : Prop := a = of_Z (to_Z a).

Definition sumN (l : list number) : number := fold_right Num.add (of_Z 0) l.

(** [out] is [l] sorted by [le], elements that [same] relates keeping the
    relative order they have in [l]. *)
Definition stable_sort_of {A : Type} (le : A -> A -> Prop) (same : A -> A -> bool)
  (l out : list A) : Prop :=
  Permutation l out
  /\ StronglySorted le out
  /\ forall x, filter (same x) out = filter (same x) l.

(** *** Segments of a score *)

(** [sep] occurs somewhere in [s]. *)
Fixpoint occurs (sep s : string) : bool :=
  (String.prefix sep s
   || match s with
      | String _ s' => occurs sep s'
      | EmptyString => false
      end)%bool.

(** [s] without the sign it may start with. *)
Definition unsigned (s : string) : string :=
  match s with
  | String c s' =>
      if (N.eqb (Str.code c) 45 || N.eqb (Str.code c) 43)%bool then s' else s
  | EmptyString => s
  end.

(** After leading white space and an optional sign, [seg] goes on with a
    decimal digit. *)
Definition starts_with_digit (seg : string) : bool :=
  match unsigned (Str.trim_start seg) with
  | String c _ => match Str.digit c with Some _ => true | None => false end
  | EmptyString => false
  end.

(** *** Goals and matches of a team, read off the rows *)

(** Total goals of the dataset: parsed home goals plus parsed away goals,
    over all matches. *)
Definition totalGoals (data : list MatchData) : number :=
  sumN (map (fun m => (homeGoals (parseScore (Score m))
                       + awayGoals (parseScore (Score m)))%num) data).

(** Goals attributed to [t] by one match: the home goals when [t] is at
    home, the away goals when [t] is away. *)
Definition goalsIn (t : string) (m : MatchData) : Z :=
  (if String.eqb (Home m) t then to_Z (homeGoals (parseScore (Score m))) else 0)
  + (if String.eqb (Away m) t then to_Z (awayGoals (parseScore (Score m))) else 0).

(** Roles [t] takes in one match. *)
Definition rolesIn (t : string) (m : MatchData) : Z :=
  (if String.eqb (Home m) t then 1 else 0) + (if String.eqb (Away m) t then 1 else 0).

Definition sumZ (l : list Z) : Z := fold_right Z.add 0 l.

Definition goalsOf (data : list MatchData) (t : string) : Z := sumZ (map (goalsIn t) data).

Definition playedOf (data : list MatchData) (t : string) : Z := sumZ (map (rolesIn t) data).

(** Team names in the order the rows mention them, home before away. *)
Definition mentions (data : list MatchData) : list string :=
  flat_map (fun m => [Home m; Away m]) data.

(** The distinct elements of a list, in order of first occurrence. *)
Fixpoint first_seen (l : list string) : list string :=
  match l with
  | [] => []
  | x :: l' => x :: filter (fun y => negb (String.eqb y x)) (first_seen l')
  end.

(** The rate of [t] as the specification words it. *)
Definition rate_spec (data : list MatchData) (t : string) : TeamGoalRate :=
  mkRate t (of_Z (goalsOf data t) / of_Z (playedOf data t))%num.

(** [matchesPlayed] of a team: the [matches] field of its accumulator. *)
Definition matchesPlayedOf (data : list MatchData) (t : string) : number :=
  matches (or_default (JsMap.get (statsByTeam data) t) (mkStats (of_Z 0) (of_Z 0))).

(** Sum over the output of [teamGoals] of rate times matches played. *)
Definition rateTimesMatches (data : list MatchData) : number :=
  sumN (map (fun r => (goalsPerMatch r * matchesPlayedOf data (team r))%num)
          (teamGoals data)).

Definition rate_ge (a b : TeamGoalRate) : Prop :=
  num_leb (goalsPerMatch b) (goalsPerMatch a) = true.

Definition same_rate (a b : TeamGoalRate) : bool :=
  (goalsPerMatch a === goalsPerMatch b)%num.

(** Sum of the goal accumulators of [teamGoals], one per team: the
    numerators of the rates. *)
Definition accumulatedGoals (data : list MatchData) : number :=
  sumN (map (fun e => goals (snd e)) (JsMap.entries (statsByTeam data))).

(** The matches of every team divide its goals: every rate is a whole
    number. *)
Definition whole_rates (data : list MatchData) : Prop :=
  forall t, In t (first_seen (mentions data)) -> (playedOf data t | goalsOf data t).

(** *** Datasets of safe size

    Binary64 holds every integer up to 2^53, and adds, subtracts and
    compares such integers exactly as long as the result stays in that
    range; a quotient or product of them that is such an integer is exact
    as well.  A quotient that is not an integer is rounded.  Rounding keeps
    the order of two quotients, and it keeps two different quotients [a/b]
    and [c/d] different as long as the numerators times [b * d] stay below
    2^52, their distance [1/(b * d)] then exceeding the spacing of binary64
    at their size.

    A dataset is of safe size when every parsed goal count is a finite
    integer and the goals, taken in absolute value, are few enough for the
    above to cover every number that [teamGoals] and [scatterData] compute
    from the scores: the accumulators and the total are exact, and rates
    are equal, or one below the other, in the program exactly when the
    exact quotients are ([safe_size_prefix], [statsByTeam_safe],
    [totalGoals_safe] and [rates_told_apart] below).  A season of football
    is of safe size by a wide margin. *)

(** The goals of the dataset, each side of each match in absolute value. *)
Definition goalMass (data : list MatchData) : Z :=
  sumZ (map (fun m => Z.abs (to_Z (homeGoals (parseScore (Score m))))
                      + Z.abs (to_Z (awayGoals (parseScore (Score m))))) data).

(** Every score of the dataset parses to finite integers. *)
Definition whole_scores (data : list MatchData) : Prop :=
  Forall (fun m => whole (homeGoals (parseScore (Score m)))
                   /\ whole (awayGoals (parseScore (Score m)))) data.

Definition safe_size (data : list MatchData) : Prop :=
  whole_scores data
  /\ (goalMass data + 1) * (2 * Z.of_nat (List.length data)) ^ 2 < 2 ^ 51.

(** [a] is an integer that binary64 holds exactly. *)
Definition safe_integer (a : number) : Prop :=
  exists z, a = of_Z z /\ Z.abs z < 2 ^ 53.

(** [x] and [y] are finite and further apart than the spacing of binary64
    at their size, 2^-52 times the larger of the two in absolute value:
    rounded to binary64 they are still different. *)
Definition told_apart (x y : number) : Prop :=
  match x, y with
  | Fin p, Fin q =>
      (Qabs p < Qabs (p - q) * inject_Z (2 ^ 52))%Q
      /\ (Qabs q < Qabs (p - q) * inject_Z (2 ^ 52))%Q
  | _, _ => False
  end.

(** *** Points per game as the specification words it *)

Inductive Outcome : Type := Win | Draw | Loss.

Definition goalsFor (t : string) (m : MatchData) : number :=
  if String.eqb (Home m) t then homeGoals (parseScore (Score m))
  else awayGoals (parseScore (Score m)).

Definition goalsAgainst (t : string) (m : MatchData) : number :=
  if String.eqb (Home m) t then awayGoals (parseScore (Score m))
  else homeGoals (parseScore (Score m)).

(** The result of a match relative to the role [t] has in it. *)
Definition outcome (t : string) (m : MatchData) : Outcome :=
  if (goalsFor t m >? goalsAgainst t m)%num then Win
  else if (goalsFor t m === goalsAgainst t m)%num then Draw
  else Loss.

Definition award (o : Outcome) : Z :=
  match o with Win => 3 | Draw => 1 | Loss => 0 end.

Definition outcome_label (o : Outcome) : string :=
  match o with Win => "Win" | Draw => "Draw" | Loss => "Loss" end.

(** Left fold over the fixtures, threading (running points, running match
    count) and emitting the pair reached after each match. *)
Fixpoint running_totals (t : string) (runningPoints runningMatchCount : Z)
  (fixtures : list MatchData) : list (Z * Z) :=
  match fixtures with
  | [] => []
  | m :: rest =>
      let p := runningPoints + award (outcome t m) in
      let n := runningMatchCount + 1 in
      (p, n) :: running_totals t p n rest
  end.

Definition pointsPerGame (acc : Z * Z) : number := (of_Z (fst acc) / of_Z (snd acc))%num.

Section DatedNotions.

Variable Date_getTime : string -> option Z.

Definition valid_date (s : string) : Prop := Date_getTime s <> None.

(** [a] is not later than [b]. *)
Definition date_le (a b : string) : Prop :=
  num_leb (getTime Date_getTime a) (getTime Date_getTime b) = true.

Definition same_date (a b : string) : bool :=
  (getTime Date_getTime a === getTime Date_getTime b)%num.

(** The comparator of both date sorts, over rows that carry their date
    in the field [key]. *)
Definition by_date {A : Type} (key : A -> string) (a b : A) : number :=
  (getTime Date_getTime (key a) - getTime Date_getTime (key b))%num.

(** [series] is the points-per-game series of [t] over [data] as the
    specification words it: some list [fixtures] holds the matches of [t],
    in ascending order of date when the dates parse, and [series] carries
    the running totals of the left fold over it, their quotient, and the
    result of each match; results Win, Draw, Loss give 3, 2 and 4/3. *)
Definition ppg_fold_of (data : list MatchData) (t : string)
  (series : list PPGDataPoint.t) : Prop :=
  exists fixtures : list MatchData,
    (forall m, In m fixtures <-> In m data /\ (Home m = t \/ Away m = t))
    /\ Permutation (filter (plays t) data) fixtures
    /\ (Forall (fun m => valid_date (Date m)) data ->
        stable_sort_of (fun a b => date_le (Date a) (Date b))
                       (fun a b => same_date (Date a) (Date b))
                       (filter (plays t) data) fixtures)
    /\ map (fun x => (PPGDataPoint.ppg x, PPGDataPoint.points x, PPGDataPoint.matches x))
           series
       = map (fun acc => (pointsPerGame acc, of_Z (fst acc), of_Z (snd acc)))
             (running_totals t 0 0 fixtures)
    /\ map PPGDataPoint.result series
       = map (fun m => outcome_label (outcome t m)) fixtures
    /\ (map PPGDataPoint.result series = ["Win"; "Draw"; "Loss"] ->
        map PPGDataPoint.ppg series = [of_Z 3; of_Z 2; Fin (4 # 3)]).

End DatedNotions.

(** The point of a match seen from its home side. *)
Definition home_view (d : MatchData) : XgPoint.t :=
  {| XgPoint.date := Date d;
     XgPoint.xG := xG d;
     XgPoint.xGA := xG_away d;
     XgPoint.team := Home d;
     XgPoint.match_ := Home d ++ " vs " ++ Away d;
     XgPoint.opponent := Away d |}.

(** The point of a match seen from its away side. *)
Definition away_view (d : MatchData) : XgPoint.t :=
  {| XgPoint.date := Date d;
     XgPoint.xG := xG_away d;
     XgPoint.xGA := xG d;
     XgPoint.team := Away d;
     XgPoint.match_ := Home d ++ " vs " ++ Away d;
     XgPoint.opponent := Home d |}.

(* ------------------------------------------------------------------ *)
(** ** Auxiliary notions of the proofs *)

Definition finite_rate (r : TeamGoalRate) : Prop := exists q, goalsPerMatch r = Fin q.

(** The loop of [teamGoals] seen as a run of credits, two per match. *)
Definition credits (data : list MatchData) : list (string * Z) :=
  flat_map (fun m => [ (Home m, to_Z (homeGoals (parseScore (Score m))));
                       (Away m, to_Z (awayGoals (parseScore (Score m)))) ]) data.

Definition credit (M : JsMap.t Stats) (e : string * Z) : JsMap.t Stats :=
  let s := or_default (JsMap.get M (fst e)) (mkStats (of_Z 0) (of_Z 0)) in
  JsMap.set M (fst e) (mkStats (goals s + of_Z (snd e))%num (matches s + of_Z 1)%num).

Definition credited (E : list (string * Z)) (t : string) : Z :=
  sumZ (map (fun e => if String.eqb (fst e) t then snd e else 0) E).

Definition counted (E : list (string * Z)) (t : string) : Z :=
  sumZ (map (fun e => if String.eqb (fst e) t then 1 else 0) E).

Definition stats_of (E : list (string * Z)) (t : string) : Stats :=
  mkStats (of_Z (credited E t)) (of_Z (counted E t)).

Definition entry_of (E : list (string * Z)) (t : string) : string * Stats :=
  (t, stats_of E t).

(** The points-per-game series as a scan of the running totals. *)
Definition ppg_point (t : string) (m : MatchData) (acc : Z * Z) : PPGDataPoint.t :=
  {| PPGDataPoint.date := Date m;
     PPGDataPoint.ppg := pointsPerGame acc;
     PPGDataPoint.points := of_Z (fst acc);
     PPGDataPoint.matches := of_Z (snd acc);
     PPGDataPoint.opponent := if String.eqb (Home m) t then Away m else Home m;
     PPGDataPoint.venue := if String.eqb (Home m) t then "Home" else "Away";
     PPGDataPoint.result := outcome_label (outcome t m);
     PPGDataPoint.score := Score m;
     PPGDataPoint.team := t |}.

Definition ppg_scan (t : string) (p n : Z) (fixtures : list MatchData) : list PPGDataPoint.t :=
  map (fun x => ppg_point t (fst x) (snd x))
      (combine fixtures (running_totals t p n fixtures)).

Definition points_le (a b : PPGDataPoint.t) : Prop :=
  num_leb (PPGDataPoint.points a) (PPGDataPoint.points b) = true.

Definition ppg_in_range (p : PPGDataPoint.t) : Prop :=
  num_leb (of_Z 0) (PPGDataPoint.ppg p) = true
  /\ num_leb (PPGDataPoint.ppg p) (of_Z 3) = true.

(* ------------------------------------------------------------------ *)
(** ** Fixtures *)

Definition fixture (date home score away : string) : MatchData :=
  mkMatch (of_Z 1) "Sat" date "15:00" home (Fin (3 # 2)) score (Fin (4 # 5)) away
    "0" "Ground" "Referee".

(** home="A", away="B", expectedGoalsHome=1.5, expectedGoalsAway=0.8 *)
Definition fixture_AB : MatchData := fixture "2024-08-17" "A" "2–1" "B".

(** Team "A" wins at home, draws away, then loses at home; the rows are
    given out of chronological order. *)
Definition fixture_WDL : list MatchData :=
  [ fixture "2024-08-31" "A" "0–1" "D";
    fixture "2024-08-17" "A" "2–0" "B";
    fixture "2024-08-24" "C" "1–1" "A";
    fixture "2024-08-24" "B" "3–0" "D" ].

(** The rows [defaultData] the application starts with. *)
Definition defaultData : list MatchData :=
  [ mkMatch (of_Z 1) "Fri" "2024-08-16" "20:00" "Manchester Utd" (Fin (12 # 5)) "1–0"
      (Fin (2 # 5)) "Fulham" "73,297" "Old Trafford" "Robert Jones";
    mkMatch (of_Z 1) "Sat" "2024-08-17" "12:30" "Ipswich Town" (Fin (1 # 2)) "0–2"
      (Fin (13 # 5)) "Liverpool" "30,014" "Portman Road Stadium" "Tim Robinson";
    mkMatch (of_Z 1) "Sat" "2024-08-17" "15:00" "Newcastle Utd" (Fin (3 # 10)) "1–0"
      (Fin (9 # 5)) "Southampton" "52,196" "St James' Park" "Craig Pawson";
    mkMatch (of_Z 1) "Sat" "2024-08-17" "15:00" "Everton" (Fin (1 # 2)) "0–3"
      (Fin (7 # 5)) "Brighton" "39,217" "Goodison Park" "Simon Hooper";
    mkMatch (of_Z 2) "Sat" "2024-08-24" "15:00" "Manchester Utd" (Fin (9 # 5)) "2–1"
      (Fin (6 # 5)) "Liverpool" "74,000" "Old Trafford" "Anthony Taylor";
    mkMatch (of_Z 2) "Sun" "2024-08-25" "14:00" "Fulham" (Fin 1) "1–1"
      (Fin (3 # 2)) "Newcastle Utd" "25,000" "Craven Cottage" "Michael Oliver" ].

(* ================================================================== *)
(** * The rest of the component *)

Local Open Scope Z_scope.

(* ------------------------------------------------------------------ *)
(** ** [Set]: elements in insertion order *)

Module JsSet.

Section Elements.

Context {A : Type} (same : A -> A -> bool).

Definition has (s : list A) (x : A) : bool := existsb (same x) s.

Definition add (s : list A) (x : A) : list A := if has s x then s else s ++ [x].

(** [new Set(iterable)], then spread into an array. *)
Definition of_list (l : list A) : list A := fold_left add l [].

End Elements.

End JsSet.

(** SameValueZero, the equality of [Set] on numbers: NaN is the same as
    NaN. *)
Definition sameValueZero (a b : number) : bool :=
  ((a === b)%num || (Num.is_NaN a && Num.is_NaN b))%bool.

(* ------------------------------------------------------------------ *)
(** ** Teams and weeks *)

(** [teams]: the names for the drop-down lists. *)
Definition teams (data : list MatchData) : list string :=
  JsSet.of_list String.eqb (map Home data ++ map Away data)%list.

Definition ascending (a b : number) : number := (a - b)%num.

(** [[...new Set(ws)].sort((a, b) => a - b)] *)
Definition sortedWeeks (ws : list number) : list number :=
  sort ascending (JsSet.of_list sameValueZero ws).

Definition availableWeeks (data : list MatchData) : list number :=
  sortedWeeks (map Wk data).

Definition weeksWithSelectedTeam (data : list MatchData) (selectedTeam : string)
  : list number :=
  if negb (Str.truthy selectedTeam) then []
  else sortedWeeks (map Wk (filter (plays selectedTeam) data)).

(** The rows of the table: [data.filter(match => match.Wk === activeWeek)]. *)
Definition weekRows (data : list MatchData) (activeWeek : number) : list MatchData :=
  filter (fun m => (Wk m === activeWeek)%num) data.

(** *** Stepping through the weeks of the selected team *)

Fixpoint indexOf_from (l : list number) (x : number) (i : Z) : Z :=
  match l with
  | [] => -1
  | y :: l' => if (y === x)%num then i else indexOf_from l' x (i + 1)
  end.

(** [l.indexOf(x)]: strict equality, -1 when absent. *)
Definition indexOf (l : list number) (x : number) : Z := indexOf_from l x 0.

(** [l[i]], [None] standing for undefined. *)
Definition at_index {A : Type} (l : list A) (i : Z) : option A :=
  if i <? 0 then None else nth_error l (Z.to_nat i).

(** The week the "previous match" button makes active. *)
Definition previousWeek (weeks : list number) (activeWeek : number) : option number :=
  let currentIndex := indexOf weeks activeWeek in
  let prevIndex :=
    if currentIndex <=? 0 then Z.of_nat (List.length weeks) - 1 else currentIndex - 1 in
  at_index weeks prevIndex.

(** The week the "next match" button makes active. *)
Definition nextWeek (weeks : list number) (activeWeek : number) : option number :=
  let currentIndex := indexOf weeks activeWeek in
  let nextIndex :=
    if currentIndex >=? Z.of_nat (List.length weeks) - 1 then 0 else currentIndex + 1 in
  at_index weeks nextIndex.

(** *** Notions for the weeks *)

Definition week_lt (a b : number) : Prop := (a <? b)%num = true.

Definition no_NaN_week (data : list MatchData) : Prop :=
  Forall (fun m => Num.is_NaN (Wk m) = false) data.

(* ------------------------------------------------------------------ *)
(** ** Expected goals against goals: [scatterData] *)

Module ScatterStats.
Record t : Type := mk {
  xG : number;
  xGA : number;
  matches : number;
  goalsFor : number;
  goalsAgainst : number
}.
Definition zero : t := mk (of_Z 0) (of_Z 0) (of_Z 0) (of_Z 0) (of_Z 0).
End ScatterStats.

Module ScatterPoint.
Record t : Type := mk {
  team : string;
  xG : number;
  xGA : number;
  goalsPerMatch : number;
  concededPerMatch : number;
  matches : number;
  goalDiff : number
}.
End ScatterPoint.

(** The body of the loop; the accumulator objects are handled as in
    [teamGoals_step]. *)
Definition scatter_step (m : MatchData) : State (JsMap.t ScatterStats.t) unit :=
  let sc := parseScore (Score m) in
  (* Update home team stats *)
  teamStats <- get ;;
  let homeStats := or_default (JsMap.get teamStats (Home m)) ScatterStats.zero in
  let homeStats :=
    {| ScatterStats.xG := (ScatterStats.xG homeStats + xG m)%num;
       ScatterStats.xGA := (ScatterStats.xGA homeStats + xG_away m)%num;
       ScatterStats.goalsFor := (ScatterStats.goalsFor homeStats + homeGoals sc)%num;
       ScatterStats.goalsAgainst := (ScatterStats.goalsAgainst homeStats + awayGoals sc)%num;
       ScatterStats.matches := (ScatterStats.matches homeStats + of_Z 1)%num |} in
  put (JsMap.set teamStats (Home m) homeStats) ;;
  (* Update away team stats *)
  teamStats <- get ;;
  let awayStats := or_default (JsMap.get teamStats (Away m)) ScatterStats.zero in
  let awayStats :=
    {| ScatterStats.xG := (ScatterStats.xG awayStats + xG_away m)%num;
       ScatterStats.xGA := (ScatterStats.xGA awayStats + xG m)%num;
       ScatterStats.goalsFor := (ScatterStats.goalsFor awayStats + awayGoals sc)%num;
       ScatterStats.goalsAgainst := (ScatterStats.goalsAgainst awayStats + homeGoals sc)%num;
       ScatterStats.matches := (ScatterStats.matches awayStats + of_Z 1)%num |} in
  put (JsMap.set teamStats (Away m) awayStats).

(** The map [teamStats] once the loop over [data] has run. *)
Definition teamStats (data : list MatchData) : JsMap.t ScatterStats.t :=
  exec (forEach data scatter_step) JsMap.empty.

Definition scatter_point (e : string * ScatterStats.t) : ScatterPoint.t :=
  let stats := snd e in
  {| ScatterPoint.team := fst e;
     ScatterPoint.xG := (ScatterStats.xG stats / ScatterStats.matches stats)%num;
     ScatterPoint.xGA := (ScatterStats.xGA stats / ScatterStats.matches stats)%num;
     ScatterPoint.goalsPerMatch :=
       (ScatterStats.goalsFor stats / ScatterStats.matches stats)%num;
     ScatterPoint.concededPerMatch :=
       (ScatterStats.goalsAgainst stats / ScatterStats.matches stats)%num;
     ScatterPoint.matches := ScatterStats.matches stats;
     ScatterPoint.goalDiff :=
       ((ScatterStats.goalsFor stats - ScatterStats.goalsAgainst stats)
        / ScatterStats.matches stats)%num |}.

Definition scatterData (data : list MatchData) : list ScatterPoint.t :=
  map scatter_point
    (filter (fun e => (ScatterStats.matches (snd e) >? of_Z 0)%num)
       (JsMap.entries (teamStats data))).

(** *** Notions for the scatter plot *)

(** Goals [t] concedes in one match. *)
Definition concededIn (t : string) (m : MatchData) : Z :=
  (if String.eqb (Home m) t then to_Z (awayGoals (parseScore (Score m))) else 0)
  + (if String.eqb (Away m) t then to_Z (homeGoals (parseScore (Score m))) else 0).

Definition concededOf (data : list MatchData) (t : string) : Z :=
  sumZ (map (concededIn t) data).

(** The goal columns of a point. *)
Definition goal_columns (p : ScatterPoint.t)
  : string * number * number * number * number :=
  (ScatterPoint.team p, ScatterPoint.goalsPerMatch p, ScatterPoint.concededPerMatch p,
   ScatterPoint.matches p, ScatterPoint.goalDiff p).

(** The goal columns of [t] read off the rows. *)
Definition goal_columns_of (data : list MatchData) (t : string)
  : string * number * number * number * number :=
  (t,
   (of_Z (goalsOf data t) / of_Z (playedOf data t))%num,
   (of_Z (concededOf data t) / of_Z (playedOf data t))%num,
   of_Z (playedOf data t),
   (of_Z (goalsOf data t - concededOf data t) / of_Z (playedOf data t))%num).

(** Sums of the goal accumulators of [scatterData], one pair per team. *)
Definition scoredTotal (data : list MatchData) : number :=
  sumN (map (fun e => ScatterStats.goalsFor (snd e)) (JsMap.entries (teamStats data))).

Definition concededTotal (data : list MatchData) : number :=
  sumN (map (fun e => ScatterStats.goalsAgainst (snd e)) (JsMap.entries (teamStats data))).

(** The concessions of the loop, two per match. *)
Definition concessions (data : list MatchData) : list (string * Z) :=
  flat_map (fun m => [ (Home m, to_Z (awayGoals (parseScore (Score m))));
                       (Away m, to_Z (homeGoals (parseScore (Score m)))) ]) data.

Definition map_vals {V W : Type} (f : V -> W) (M : JsMap.t V) : JsMap.t W :=
  map (fun e => (fst e, f (snd e))) M.

Definition scored_part (s : ScatterStats.t) : Stats :=
  mkStats (ScatterStats.goalsFor s) (ScatterStats.matches s).

Definition conceded_part (s : ScatterStats.t) : Stats :=
  mkStats (ScatterStats.goalsAgainst s) (ScatterStats.matches s).

Definition not_NaN (a : number) : Prop := Num.is_NaN a = false.

(** A percentage between 0 and 100. *)
Definition percent_in_range (p : number) : Prop :=
  num_leb (of_Z 0) p = true /\ num_leb p (of_Z 100) = true.

(** The percentage [p] that goes with the count [c] out of [n]: between 0
    and 100, 0 only for no match and 100 only for all matches. *)
Definition percent_of (n c p : number) : Prop :=
  percent_in_range p
  /\ (p = of_Z 0 <-> c = of_Z 0)
  /\ (p = of_Z 100 <-> c = n).

(* ------------------------------------------------------------------ *)
(** ** The summary card *)

(** The number under "Avg Goals Per Match", before it is formatted:
    [data.reduce((sum, match) => sum + homeGoals + awayGoals, 0) / data.length]. *)
Definition avgGoalsPerMatch (data : list MatchData) : number :=
  (fold_left
     (fun sum m =>
        let sc := parseScore (Score m) in (sum + homeGoals sc + awayGoals sc)%num)
     data (of_Z 0)
   / of_nat (List.length data))%num.

(** *** Notions for the series *)

(** How many points of a series carry the result [label]. *)
Definition count_result (label : string) (series : list PPGDataPoint.t) : Z :=
  Z.of_nat (List.length (filter (fun p => String.eqb (PPGDataPoint.result p) label) series)).

(** The opponent of [t] in a match. *)
Definition opponent_of (t : string) (m : MatchData) : string :=
  if String.eqb (Home m) t then Away m else Home m.

(** The comparator of the date sorts on (date, opponent) pairs. *)
Definition by_first_date (Date_getTime : string -> option Z) (a b : string * string)
  : number :=
  (getTime Date_getTime (fst a) - getTime Date_getTime (fst b))%num.

(* ------------------------------------------------------------------ *)
(** ** Well-formed scores *)

(** The decimal writing of a natural number. *)
Definition decimal (n : nat) : string := DecimalString.NilEmpty.string_of_uint (Nat.to_uint n).

(** A score as the data model has it: two natural numbers in decimal with
    the separator between them. *)
Definition writeScore (h a : nat) : string := (decimal h ++ en_dash ++ decimal a)%string.

(* ------------------------------------------------------------------ *)
(** ** ToNumber on strings *)

(** [+x] for a string or undefined: StringToNumber, with exact values.
    Leading and trailing white space is dropped; the empty text is 0; the
    text must otherwise be one numeric literal. *)
Module ToNum.

Definition is_char (c : ascii) (n : N) : bool := N.eqb (Str.code c) n.

Definition digit_in (radix : Z) (c : ascii) : option Z :=
  let n := Z.of_N (Str.code c) in
  let v :=
    if ((48 <=? n) && (n <=? 57))%bool then Some (n - 48)
    else if ((97 <=? n) && (n <=? 102))%bool then Some (n - 87)
    else if ((65 <=? n) && (n <=? 70))%bool then Some (n - 55)
    else None in
  match v with
  | Some d => if d <? radix then Some d else None
  | None => None
  end.

(** The longest prefix of digits of the radix, and what follows it. *)
Fixpoint span (radix : Z) (s : string) : list Z * string :=
  match s with
  | EmptyString => ([], s)
  | String c s' =>
      match digit_in radix c with
      | Some d => let '(ds, r) := span radix s' in (d :: ds, r)
      | None => ([], s)
      end
  end.

Definition horner (radix : Z) (ds : list Z) : Z :=
  fold_left (fun a d => radix * a + d) ds 0.

Definition blank (s : string) : bool :=
  match Str.trim_start s with EmptyString => true | _ => false end.

Definition no_digits (ds : list Z) : bool :=
  match ds with [] => true | _ => false end.

(** An optional exponent part: its value and what follows, [None] when
    an exponent indicator is not followed by a signed integer. *)
Definition exponent (s : string) : option (Z * string) :=
  match s with
  | String c s' =>
      if (is_char c 101 || is_char c 69)%bool then
        let '(sg, body) :=
          match s' with
          | String c2 s2 =>
              if is_char c2 43 then (1, s2)
              else if is_char c2 45 then (-1, s2)
              else (1, s')
          | EmptyString => (1, s')
          end in
        let '(ds, r) := span 10 body in
        if no_digits ds then None else Some (sg * horner 10 ds, r)
      else Some (0, s)
  | EmptyString => Some (0, s)
  end.

Definition pow10 (e : Z) : Q := Qpower 10 e.

(** StrUnsignedDecimalLiteral at the start of [s]. *)
Definition unsigned_decimal (s : string) : option (number * string) :=
  if String.prefix "Infinity" s then
    Some (PosInf, String.substring 8 (String.length s - 8) s)
  else
    let '(ip, r1) := span 10 s in
    let '(fp, r2) :=
      match r1 with
      | String c r => if is_char c 46 then span 10 r else ([], r1)
      | EmptyString => ([], r1)
      end in
    if (no_digits ip && no_digits fp)%bool then None
    else
      match exponent r2 with
      | None => None
      | Some (e, r3) =>
          let m := (inject_Z (horner 10 ip)
                    + inject_Z (horner 10 fp) * pow10 (- Z.of_nat (List.length fp)))%Q in
          Some (Fin (Qred (m * pow10 e)), r3)
      end.

(** StrDecimalLiteral: an optional sign, then the unsigned literal. *)
Definition signed_decimal (s : string) : option (number * string) :=
  match s with
  | String c s' =>
      if is_char c 43 then unsigned_decimal s'
      else if is_char c 45 then
        match unsigned_decimal s' with
        | Some (v, r) => Some (Num.neg v, r)
        | None => None
        end
      else unsigned_decimal s
  | EmptyString => None
  end.

(** NonDecimalIntegerLiteral: [0x], [0o] or [0b] and digits of that radix. *)
Definition non_decimal (s : string) : option (option (number * string)) :=
  match s with
  | String c0 (String c1 r) =>
      if is_char c0 48 then
        let radix :=
          if (is_char c1 120 || is_char c1 88)%bool then Some 16
          else if (is_char c1 111 || is_char c1 79)%bool then Some 8
          else if (is_char c1 98 || is_char c1 66)%bool then Some 2
          else None in
        match radix with
        | Some R =>
            let '(ds, r') := span R r in
            Some (if no_digits ds then None else Some (of_Z (horner R ds), r'))
        | None => None
        end
      else None
  | _ => None
  end.

Definition of_string (s : string) : number :=
  let t := Str.trim_start s in
  match t with
  | EmptyString => of_Z 0
  | _ =>
      let lit :=
        match non_decimal t with
        | Some l => l
        | None => signed_decimal t
        end in
      match lit with
      | Some (v, r) => if blank r then v else NaN
      | None => NaN
      end
  end.

(** ToNumber of a string or undefined. *)
Definition ToNumber (x : option string) : number :=
  match x with
  | Some s => of_string s
  | None => NaN
  end.

End ToNum.

(* ------------------------------------------------------------------ *)
(** ** Reading an uploaded file: [handleFileUpload] *)

Module CsvRow.
(** A row as the upload builds it; a field past the end of its line is
    undefined, [None]. *)
Record t : Type := mk {
  Wk : number;
  Day : option string;
  Date : option string;
  Time : option string;
  Home : option string;
  xG : number;
  Score : option string;
  xG_away : number;
  Away : option string;
  Attendance : option string;
  Venue : option string;
  Referee : option string
}.
End CsvRow.

Record File : Type := mkFile { name : string; text : string }.

(** The state the handler writes: [data], [error] and [activeWeek]. *)
Record Upload : Type := mkUpload {
  data : list CsvRow.t;
  error : string;
  activeWeek : number
}.

Definition setData (rows : list CsvRow.t) (st : Upload) : Upload :=
  mkUpload rows (error st) (activeWeek st).

Definition setError (e : string) (st : Upload) : Upload :=
  mkUpload (data st) e (activeWeek st).

Definition setActiveWeek (w : number) (st : Upload) : Upload :=
  mkUpload (data st) (error st) w.

Definition newline : string := String (ascii_of_nat 10) EmptyString.

Definition comma : string := ",".

(** [s.endsWith(suffix)] *)
Definition endsWith (s suffix : string) : bool :=
  let n := String.length s in
  let k := String.length suffix in
  (Nat.leb k n && String.eqb (String.substring (n - k) k s) suffix)%bool.

(** ToBoolean of a string or undefined. *)
Definition present (x : option string) : bool :=
  match x with Some s => Str.truthy s | None => false end.

(** The destructuring of [line.split(',')] into a row. *)
Definition parseLine (line : string) : CsvRow.t :=
  let f := Str.split comma line in
  {| CsvRow.Wk := ToNum.ToNumber (nth_error f 0);
     CsvRow.Day := nth_error f 1;
     CsvRow.Date := nth_error f 2;
     CsvRow.Time := nth_error f 3;
     CsvRow.Home := nth_error f 4;
     CsvRow.xG := ToNum.ToNumber (nth_error f 5);
     CsvRow.Score := nth_error f 6;
     CsvRow.xG_away := ToNum.ToNumber (nth_error f 7);
     CsvRow.Away := nth_error f 8;
     CsvRow.Attendance := nth_error f 9;
     CsvRow.Venue := nth_error f 10;
     CsvRow.Referee := nth_error f 11 |}.

(** [row.Wk && row.Home && row.Away] *)
Definition complete (row : CsvRow.t) : bool :=
  (Num.truthy (CsvRow.Wk row) && present (CsvRow.Home row) && present (CsvRow.Away row))%bool.

(** [reader.onload], run once the text of the file is there. *)
Definition onload (text : string) (st : Upload) : Upload :=
  let lines := Str.split newline text in
  if (List.length lines <? 2)%nat then
    setError "CSV file is empty or contains only headers" st
  else
    let rows := filter complete (map parseLine (tl lines)) in
    let st := setData rows st in
    (* Set active week to the first week found in the data *)
    let st :=
      if (0 <? List.length rows)%nat then
        match sortedWeeks (map CsvRow.Wk rows) with
        | w :: _ => setActiveWeek w st
        | [] => st
        end
      else st in
    setError EmptyString st.

Definition handleFileUpload (file : option File) (st : Upload) : Upload :=
  match file with
  | None => setError "No file selected" st
  | Some f =>
      if negb (endsWith (name f) ".csv") then setError "Please upload a CSV file" st
      else onload (text f) st
  end.

(** The handler with the outcome of [reader.readAsText] spelt out: [onload]
    runs only when the read succeeds; a read that fails raises the reader's
    error event, to which nothing listens, and the state stays as it is.
    [handleFileUpload] is the case of a read that succeeds. *)
Definition handleFileUploadWith (loads : bool) (file : option File) (st : Upload) : Upload :=
  match file with
  | None => setError "No file selected" st
  | Some f =>
      if negb (endsWith (name f) ".csv") then setError "Please upload a CSV file" st
      else if loads then onload (text f) st else st
  end.

(** *** Notions for the upload *)

(** A finite number other than zero that binary64 rounds to zero: the
    program reads it as 0, which is falsy. *)
Definition vanishes (a : number) : bool :=
  match a with
  | Fin q => (negb (Num.Qis0 q) && Qle_bool (Qabs q) (Qpower 2 (-1075)))%bool
  | _ => false
  end.

(** No week of the lines is lost to rounding. *)
Definition weeks_kept (lines : list string) : Prop :=
  Forall (fun line => vanishes (CsvRow.Wk (parseLine line)) = false) lines.

(** A row whose first nine columns are there, with a week that counts
    and both team names non-empty. *)
Definition usable (row : CsvRow.t) : Prop :=
  Num.truthy (CsvRow.Wk row) = true
  /\ (exists h, CsvRow.Home row = Some h /\ h <> EmptyString)
  /\ (exists a, CsvRow.Away row = Some a /\ a <> EmptyString)
  /\ CsvRow.Day row <> None /\ CsvRow.Date row <> None /\ CsvRow.Time row <> None
  /\ CsvRow.Score row <> None.

Definition sample_csv : string :=
  "Wk,Day,Date,Time,Home,xG,Score,xG_away,Away,Attendance,Venue,Referee" ++ newline
  ++ "2,Sat,2024-08-24,15:00,Manchester Utd,1.8,2–1,1.2,Liverpool,74000,Old Trafford,Anthony Taylor" ++ newline
  ++ ",,,,,,,,,,," ++ newline
  ++ "1,Fri,2024-08-16,20:00,Manchester Utd,2.4,1–0,0.4,Fulham" ++ newline
  ++ "x,Sat,2024-08-17,12:30,Ipswich Town,0.5,0–2,2.6,Liverpool" ++ newline.

(* ------------------------------------------------------------------ *)
(** ** Further auxiliary notions *)

(** One update of the loop of [teamGoals]: [g] more goals and one more
    match for [k]. *)
Definition bump (M : JsMap.t Stats) (k : string) (g : number) : JsMap.t Stats :=
  let s := or_default (JsMap.get M k) (mkStats (of_Z 0) (of_Z 0)) in
  JsMap.set M k (mkStats (goals s + g)%num (matches s + of_Z 1)%num).

(** The match counter of an accumulator on its own. *)
Definition played_part (s : Stats) : Stats := mkStats (of_Z 0) (matches s).

(** The appearances of the loop, two per match. *)
Definition appearances (data : list MatchData) : list (string * Z) :=
  flat_map (fun m => [ (Home m, 0); (Away m, 0) ]) data.

(** The goal columns as a function of the two accumulators of a team. *)
Definition columns_of_parts (t : string) (s c : Stats)
  : string * number * number * number * number :=
  (t, (goals s / matches s)%num, (goals c / matches s)%num, matches s,
   ((goals s - goals c) / matches s)%num).

(** What the points of a series add up to. *)
Definition points_add_up (series : list PPGDataPoint.t) : Prop :=
  List.last (map PPGDataPoint.points series) (of_Z 0)
  = of_Z (3 * count_result "Win" series + count_result "Draw" series)
  /\ map PPGDataPoint.matches series
     = map (fun k => of_Z (Z.of_nat k)) (seq 1 (List.length series)).

(** A byte that cannot start the separator and is no white space. *)
Definition plain (c : ascii) : Prop := (48 <= Str.code c <= 57)%N.

Fixpoint all_plain (s : string) : Prop :=
  match s with
  | EmptyString => True
  | String c s' => plain c /\ all_plain s'
  end.

(* ================================================================== *)
(** * Proofs *)

Local Open Scope Z_scope.
Local Open Scope list_scope.

(* ------------------------------------------------------------------ *)
(** ** Numbers *)

Lemma Qred_inject_Z (z : Z) : Qred (inject_Z z) = inject_Z z.
Proof.
  unfold Qred, inject_Z.
  pose proof (Z.ggcd_gcd z 1) as Hg.
  pose proof (Z.ggcd_correct_divisors z 1) as Hd.
  destruct (Z.ggcd z 1) as [g [r1 r2]]. simpl in Hg, Hd.
  rewrite Z.gcd_1_r in Hg. subst g. destruct Hd as [H1 H2].
  rewrite Z.mul_1_l in H1, H2. subst. reflexivity.
Qed.

Lemma Qred_of_Qeq (q : Q) (z : Z) : (q == inject_Z z)%Q -> Qred q = inject_Z z.
Proof.
  intros H. rewrite <- (Qred_inject_Z z). now apply Qred_complete.
Qed.

Lemma add_of_Z (a b : Z) : (of_Z a + of_Z b)%num = of_Z (a + b).
Proof.
  unfold of_Z. cbn [Num.add]. now rewrite <- inject_Z_plus, Qred_inject_Z.
Qed.

Lemma ltb_of_Z (a b : Z) : (of_Z a <? of_Z b)%num = (a <? b).
Proof.
  unfold of_Z, Num.ltb, Num.Qltb, Qle_bool. simpl.
  rewrite !Z.mul_1_r. rewrite Z.ltb_antisym. reflexivity.
Qed.

Lemma gtb_of_Z (a b : Z) : (of_Z a >? of_Z b)%num = (b <? a).
Proof. apply ltb_of_Z. Qed.

Lemma strict_eq_of_Z (a b : Z) : (of_Z a === of_Z b)%num = (a =? b).
Proof.
  unfold of_Z, Num.strict_eq, Qeq_bool. simpl. rewrite !Z.mul_1_r.
  reflexivity.
Qed.

Lemma leb_of_Z (a b : Z) : num_leb (of_Z a) (of_Z b) = (a <=? b).
Proof.
  unfold num_leb. rewrite ltb_of_Z, strict_eq_of_Z.
  destruct (Z.ltb_spec a b), (Z.eqb_spec a b), (Z.leb_spec a b); simpl; try reflexivity; lia.
Qed.

Lemma to_Z_of_Z (z : Z) : to_Z (of_Z z) = z.
Proof. unfold to_Z, of_Z. apply Qfloor_Z. Qed.

Lemma or_zero_of_Z (z : Z) : (of_Z z || of_Z 0)%num = of_Z z.
Proof.
  unfold Num.or, Num.truthy, Num.Qis0, of_Z.
  change (Qeq_bool (inject_Z z) 0) with (Fin (inject_Z z) === Fin (inject_Z 0))%num.
  fold (of_Z z) (of_Z 0). rewrite strict_eq_of_Z.
  destruct (Z.eqb_spec z 0); simpl; congruence.
Qed.

Lemma whole_scores_In (data : list MatchData) (m : MatchData) :
  whole_scores data -> In m data ->
  homeGoals (parseScore (Score m)) = of_Z (to_Z (homeGoals (parseScore (Score m))))
  /\ awayGoals (parseScore (Score m)) = of_Z (to_Z (awayGoals (parseScore (Score m)))).
Proof. intros Hw Hm. unfold whole_scores in Hw. rewrite Forall_forall in Hw. now apply Hw. Qed.

Lemma Qltb_lt (a b : Q) : Num.Qltb a b = true <-> (a < b)%Q.
Proof.
  unfold Num.Qltb. rewrite negb_true_iff, <- not_true_iff_false, Qle_bool_iff.
  split; [apply Qnot_le_lt | apply Qlt_not_le].
Qed.

Lemma Qltb_ge (a b : Q) : Num.Qltb a b = false <-> (b <= a)%Q.
Proof.
  unfold Num.Qltb. rewrite negb_false_iff. apply Qle_bool_iff.
Qed.

Lemma leb_Fin (x y : Q) : num_leb (Fin x) (Fin y) = true <-> (x <= y)%Q.
Proof.
  unfold num_leb. cbn [Num.ltb Num.strict_eq].
  rewrite orb_true_iff, Qltb_lt, Qeq_bool_iff. split.
  - intros [H | H]; [now apply Qlt_le_weak | rewrite H; apply Qle_refl].
  - intros H. apply Qle_lteq in H. tauto.
Qed.

Lemma leb_finite (a b : number) :
  num_leb a b = true -> a <> NaN /\ b <> NaN.
Proof. destruct a, b; cbn; intros H; split; congruence. Qed.

(** The sign of a difference of finite numbers. *)
Lemma sub_Fin_pos (x y : Q) : ((Fin y - Fin x)%num >? of_Z 0)%num = Num.Qltb x y.
Proof.
  unfold Num.gtb, Num.sub, of_Z. cbn [Num.neg Num.add Num.ltb].
  apply eq_true_iff_eq. rewrite !Qltb_lt.
  rewrite Qred_correct, Qred_correct. change (inject_Z 0) with 0%Q.
  rewrite (Qlt_minus_iff x y). reflexivity.
Qed.

Lemma div_of_Z (a b : Z) :
  b <> 0 -> (of_Z a / of_Z b)%num = Fin (Qred (inject_Z a / inject_Z b)).
Proof.
  intros Hb. unfold of_Z. cbn [Num.div].
  replace (Num.Qis0 (inject_Z b)) with false; [reflexivity|].
  symmetry. change (Num.Qis0 (inject_Z b)) with (of_Z b === of_Z 0)%num.
  rewrite strict_eq_of_Z. now apply Z.eqb_neq.
Qed.

Lemma mul_of_Z (a b : Z) : (of_Z a * of_Z b)%num = of_Z (a * b).
Proof.
  unfold of_Z. cbn [Num.mul]. now rewrite <- inject_Z_mult, Qred_inject_Z.
Qed.

(** A quotient that is a whole number. *)
Lemma div_whole_of_Z (k b : Z) : b <> 0 -> (of_Z (k * b) / of_Z b)%num = of_Z k.
Proof.
  intros Hb. rewrite div_of_Z by assumption. unfold of_Z. f_equal.
  apply Qred_of_Qeq. rewrite inject_Z_mult. field.
  intros H. apply Hb. now apply (proj1 (inject_Z_injective b 0)).
Qed.

Lemma div_of_Z_bounds (a b k : Z) :
  0 < b -> 0 <= a <= k * b ->
  num_leb (of_Z 0) (of_Z a / of_Z b)%num = true
  /\ num_leb (of_Z a / of_Z b)%num (of_Z k) = true.
Proof.
  intros Hb [Ha Hk]. rewrite div_of_Z by lia. unfold of_Z.
  rewrite !leb_Fin, !Qred_correct.
  assert (Hb' : (0 < inject_Z b)%Q) by (change 0%Q with (inject_Z 0); now rewrite <- Zlt_Qlt).
  split.
  - apply Qle_shift_div_l; [exact Hb'|]. rewrite Qmult_0_l.
    change 0%Q with (inject_Z 0). now rewrite <- Zle_Qle.
  - apply Qle_shift_div_r; [exact Hb'|]. rewrite <- inject_Z_mult. now rewrite <- Zle_Qle.
Qed.

(* ------------------------------------------------------------------ *)
(** ** Sorting *)

Section SortFacts.

Context {A : Type} (cmp : A -> A -> number).

Lemma sort_insert_perm (x : A) (l : list A) :
  Permutation (x :: l) (sort_insert cmp x l).
Proof.
  induction l as [|y l IH]; cbn [sort_insert]; [reflexivity|].
  destruct (sort_after cmp x y); [|reflexivity].
  rewrite perm_swap. now apply perm_skip.
Qed.

Lemma sort_perm (l : list A) : Permutation l (sort cmp l).
Proof.
  induction l as [|x l IH]; cbn [sort]; [reflexivity|].
  rewrite <- sort_insert_perm. now apply perm_skip.
Qed.

Lemma sort_length (l : list A) : List.length (sort cmp l) = List.length l.
Proof. symmetry. apply Permutation_length, sort_perm. Qed.

Lemma sort_In (x : A) (l : list A) : In x (sort cmp l) <-> In x l.
Proof.
  split; apply Permutation_in; [symmetry|]; apply sort_perm.
Qed.

(** What makes a comparator order the elements that satisfy [P]. *)
Variable P : A -> Prop.
Variable le : A -> A -> Prop.
Variable same : A -> A -> bool.

Hypothesis after_le : forall x y, P x -> P y -> sort_after cmp x y = true -> le y x.
Hypothesis not_after_le : forall x y, P x -> P y -> sort_after cmp x y = false -> le x y.
Hypothesis le_trans : forall x y z, P x -> P y -> P z -> le x y -> le y z -> le x z.
Hypothesis same_not_after :
  forall z x y, P x -> P y -> same z x = true -> same z y = true ->
                sort_after cmp x y = false.

Lemma sort_insert_sorted (x : A) (l : list A) :
  P x -> Forall P l -> StronglySorted le l -> StronglySorted le (sort_insert cmp x l).
Proof.
  intros Px Pl Hs. induction Hs as [|y l Hs IH Hy]; cbn [sort_insert].
  - repeat constructor.
  - inversion Pl as [|? ? Py Pl']; subst.
    destruct (sort_after cmp x y) eqn:E.
    + constructor; [now apply IH|].
      apply (Permutation_Forall (sort_insert_perm x l)).
      constructor; [now apply after_le | exact Hy].
    + constructor; [now constructor|].
      constructor; [now apply not_after_le|].
      rewrite Forall_forall in Hy, Pl' |- *. intros z Hz.
      apply (le_trans x y z); auto.
Qed.

Lemma sort_sorted (l : list A) : Forall P l -> StronglySorted le (sort cmp l).
Proof.
  induction 1 as [|x l Px Pl IH]; cbn [sort]; [constructor|].
  apply sort_insert_sorted; auto.
  apply (Permutation_Forall (sort_perm l)). exact Pl.
Qed.

Lemma sort_insert_stable (z x : A) (l : list A) :
  P x -> Forall P l ->
  filter (same z) (sort_insert cmp x l) = filter (same z) (x :: l).
Proof.
  intros Px Pl. induction Pl as [|y l Py Pl IH]; cbn [sort_insert]; [reflexivity|].
  destruct (sort_after cmp x y) eqn:E; [|reflexivity].
  cbn [filter] in *. rewrite IH.
  destruct (same z x) eqn:Ex, (same z y) eqn:Ey; try reflexivity.
  rewrite (same_not_after z x y) in E by assumption. discriminate.
Qed.

Lemma sort_stable (z : A) (l : list A) :
  Forall P l -> filter (same z) (sort cmp l) = filter (same z) l.
Proof.
  induction 1 as [|x l Px Pl IH]; cbn [sort]; [reflexivity|].
  rewrite sort_insert_stable; auto.
  - cbn [filter]. now rewrite IH.
  - apply (Permutation_Forall (sort_perm l)). exact Pl.
Qed.

Lemma sort_stable_sort_of (l : list A) :
  Forall P l -> stable_sort_of le same l (sort cmp l).
Proof.
  intros Pl. split; [apply sort_perm|]. split; [now apply sort_sorted|].
  intros z. now apply sort_stable.
Qed.

End SortFacts.

(** Sorting by date, whatever the rows are, through their date field. *)
Section SortByDate.

Variable Date_getTime : string -> option Z.
Context {A : Type} (key : A -> string).

Lemma getTime_valid (s : string) :
  valid_date Date_getTime s -> exists t, getTime Date_getTime s = of_Z t.
Proof.
  unfold valid_date, getTime. destruct (Date_getTime s); [eauto | congruence].
Qed.

Lemma after_by_date (a b : A) (ta tb : Z) :
  getTime Date_getTime (key a) = of_Z ta ->
  getTime Date_getTime (key b) = of_Z tb ->
  sort_after (by_date Date_getTime key) a b = (tb <? ta).
Proof.
  intros Ha Hb. unfold sort_after, by_date. rewrite Ha, Hb. unfold of_Z at 1 2.
  rewrite sub_Fin_pos. apply (ltb_of_Z tb ta).
Qed.

Lemma sort_by_date (l : list A) :
  Forall (fun a => valid_date Date_getTime (key a)) l ->
  stable_sort_of (fun a b => date_le Date_getTime (key a) (key b))
                 (fun a b => same_date Date_getTime (key a) (key b))
                 l (sort (by_date Date_getTime key) l).
Proof.
  apply sort_stable_sort_of.
  - intros x y Hx Hy. destruct (getTime_valid _ Hx) as [tx Ex], (getTime_valid _ Hy) as [ty Ey].
    rewrite (after_by_date x y tx ty Ex Ey). unfold date_le. rewrite Ex, Ey, leb_of_Z.
    intros H. apply Z.ltb_lt in H. apply Z.leb_le. lia.
  - intros x y Hx Hy. destruct (getTime_valid _ Hx) as [tx Ex], (getTime_valid _ Hy) as [ty Ey].
    rewrite (after_by_date x y tx ty Ex Ey). unfold date_le. rewrite Ex, Ey, leb_of_Z.
    intros H. apply Z.ltb_ge in H. now apply Z.leb_le.
  - intros x y z Hx Hy Hz. unfold date_le.
    destruct (getTime_valid _ Hx) as [tx ->], (getTime_valid _ Hy) as [ty ->],
             (getTime_valid _ Hz) as [tz ->].
    rewrite !leb_of_Z. intros H1 H2. apply Z.leb_le in H1, H2. apply Z.leb_le. lia.
  - intros z x y Hx Hy. destruct (getTime_valid _ Hx) as [tx Ex], (getTime_valid _ Hy) as [ty Ey].
    rewrite (after_by_date x y tx ty Ex Ey). unfold same_date. rewrite Ex, Ey.
    destruct (getTime Date_getTime (key z)) as [q| | |]; cbn [Num.strict_eq]; try discriminate.
    unfold of_Z. rewrite !Qeq_bool_iff. intros H1 H2.
    assert (E : (inject_Z tx == inject_Z ty)%Q) by (now rewrite <- H1).
    apply (proj1 (inject_Z_injective tx ty)) in E. apply Z.ltb_ge. lia.
Qed.

End SortByDate.

(* ------------------------------------------------------------------ *)
(** ** Team goal rates *)

Lemma exec_bind {S A B : Type} (m : State S A) (k : A -> State S B) (s : S) :
  exec (bind m k) s = exec (k (eval m s)) (exec m s).
Proof. unfold exec, eval, bind. now destruct (m s). Qed.

Lemma exec_forEach_cons {S A : Type} (f : A -> State S unit) (x : A) (l : list A) (s : S) :
  exec (forEach (x :: l) f) s = exec (forEach l f) (exec (f x) s).
Proof. cbn [forEach]. apply exec_bind. Qed.

Lemma exec_forEach_fold {S A : Type} (f : A -> State S unit) (l : list A) (s : S) :
  exec (forEach l f) s = fold_left (fun st x => exec (f x) st) l s.
Proof.
  revert s. induction l as [|x l IH]; intros s; [reflexivity|].
  rewrite exec_forEach_cons. apply IH.
Qed.

Lemma teamGoals_step_credit (m : MatchData) (M : JsMap.t Stats) :
  whole (homeGoals (parseScore (Score m))) -> whole (awayGoals (parseScore (Score m))) ->
  exec (teamGoals_step m) M
  = credit (credit M (Home m, to_Z (homeGoals (parseScore (Score m)))))
           (Away m, to_Z (awayGoals (parseScore (Score m)))).
Proof.
  unfold whole. intros Hh Ha.
  unfold teamGoals_step, credit, exec, bind, get, put. cbn [fst snd].
  now rewrite <- Hh, <- Ha.
Qed.

Lemma statsByTeam_credits (data : list MatchData) :
  whole_scores data ->
  statsByTeam data = fold_left credit (credits data) JsMap.empty.
Proof.
  intros Hw. unfold statsByTeam. rewrite exec_forEach_fold. generalize (@JsMap.empty Stats).
  induction Hw as [|m data [Hh Ha] Hw IH]; intros M; [reflexivity|].
  cbn [fold_left credits flat_map app]. rewrite IH, (teamGoals_step_credit m M Hh Ha).
  reflexivity.
Qed.

(** *** Facts on insertion-ordered maps *)

Lemma get_map_entry {V : Type} (F : string -> V) (l : list string) (k : string) :
  JsMap.get (map (fun t => (t, F t)) l) k
  = if existsb (String.eqb k) l then Some (F k) else None.
Proof.
  induction l as [|x l IH]; [reflexivity|]. cbn [map JsMap.get existsb].
  rewrite (String.eqb_sym k x). destruct (String.eqb_spec x k) as [->|]; [reflexivity|].
  exact IH.
Qed.

Lemma set_map_entry_new {V : Type} (F : string -> V) (l : list string) (k : string) (v : V) :
  existsb (String.eqb k) l = false ->
  JsMap.set (map (fun t => (t, F t)) l) k v = map (fun t => (t, F t)) l ++ [(k, v)].
Proof.
  induction l as [|x l IH]; [reflexivity|]. cbn [map JsMap.set existsb app].
  rewrite (String.eqb_sym k x). destruct (String.eqb x k); [discriminate|].
  cbn [orb]. intros H. now rewrite IH.
Qed.

Lemma set_map_entry_old {V : Type} (F G : string -> V) (l : list string) (k : string) :
  NoDup l -> existsb (String.eqb k) l = true ->
  (forall t, t <> k -> G t = F t) ->
  JsMap.set (map (fun t => (t, F t)) l) k (G k) = map (fun t => (t, G t)) l.
Proof.
  intros Hnd Hin HG. induction Hnd as [|x l Hx Hnd IH]; [discriminate|].
  cbn [map JsMap.set existsb] in *. rewrite (String.eqb_sym k x) in Hin.
  destruct (String.eqb_spec x k) as [->|Hne].
  - f_equal. apply map_ext_in. intros t Ht. rewrite HG; [reflexivity|].
    intros ->. contradiction.
  - cbn [orb] in Hin. rewrite IH by assumption. now rewrite HG.
Qed.

(** *** Views of a map of accumulators *)

Lemma get_map_vals {V W : Type} (f : V -> W) (M : JsMap.t V) (k : string) :
  JsMap.get (map_vals f M) k = option_map f (JsMap.get M k).
Proof.
  induction M as [|[k' v] M IH]; [reflexivity|]. cbn [map_vals map JsMap.get fst snd].
  destruct (String.eqb k' k); [reflexivity | exact IH].
Qed.

Lemma set_map_vals {V W : Type} (f : V -> W) (M : JsMap.t V) (k : string) (v : V) :
  JsMap.set (map_vals f M) k (f v) = map_vals f (JsMap.set M k v).
Proof.
  induction M as [|[k' v'] M IH]; [reflexivity|]. cbn [map_vals map JsMap.set fst snd].
  destruct (String.eqb k' k); [reflexivity|]. cbn [map fst snd]. f_equal. exact IH.
Qed.

Lemma bump_view {V : Type} (f : V -> Stats) (zero : V) (M : JsMap.t V)
  (k : string) (g : number) (s' : V) :
  f zero = mkStats (of_Z 0) (of_Z 0) ->
  f s' = mkStats (goals (f (or_default (JsMap.get M k) zero)) + g)%num
                 (matches (f (or_default (JsMap.get M k) zero)) + of_Z 1)%num ->
  map_vals f (JsMap.set M k s') = bump (map_vals f M) k g.
Proof.
  intros H0 Hs. unfold bump. rewrite get_map_vals.
  rewrite <- set_map_vals, Hs. f_equal.
  destruct (JsMap.get M k); cbn [option_map or_default]; now rewrite ?H0.
Qed.

Lemma credit_view {V : Type} (f : V -> Stats) (zero : V) (M : JsMap.t V)
  (k : string) (g : Z) (s' : V) :
  f zero = mkStats (of_Z 0) (of_Z 0) ->
  f s' = mkStats (goals (f (or_default (JsMap.get M k) zero)) + of_Z g)%num
                 (matches (f (or_default (JsMap.get M k) zero)) + of_Z 1)%num ->
  map_vals f (JsMap.set M k s') = credit (map_vals f M) (k, g).
Proof. apply bump_view. Qed.

Lemma teamGoals_step_bump (m : MatchData) (M : JsMap.t Stats) :
  exec (teamGoals_step m) M
  = bump (bump M (Home m) (homeGoals (parseScore (Score m))))
         (Away m) (awayGoals (parseScore (Score m))).
Proof. reflexivity. Qed.

Lemma or_default_view {V W : Type} (f : V -> W) (x : option V) (d : V) :
  or_default (option_map f x) (f d) = f (or_default x d).
Proof. destruct x; reflexivity. Qed.

Lemma map_vals_keys {V W : Type} (f : V -> W) (M : JsMap.t V) :
  map fst (map_vals f M) = map fst M.
Proof. unfold map_vals. rewrite map_map. reflexivity. Qed.

(** *** Order of first occurrence *)

Lemma existsb_eqb_In (k : string) (l : list string) :
  existsb (String.eqb k) l = true <-> In k l.
Proof.
  rewrite existsb_exists. split.
  - intros (x & Hx & E). apply String.eqb_eq in E. now subst.
  - intros H. exists k. split; [exact H | apply String.eqb_refl].
Qed.

Lemma first_seen_In (x : string) (l : list string) : In x (first_seen l) <-> In x l.
Proof.
  induction l as [|y l IH]; [reflexivity|]. cbn [first_seen In].
  rewrite filter_In, IH, negb_true_iff. split.
  - intros [H | [H _]]; auto.
  - intros [H | H]; [now left|].
    destruct (String.eqb_spec x y) as [->|]; [now left | now right].
Qed.

Lemma first_seen_NoDup (l : list string) : NoDup (first_seen l).
Proof.
  induction l as [|y l IH]; cbn [first_seen]; constructor.
  - rewrite filter_In, String.eqb_refl. intros [_ H]. discriminate.
  - now apply NoDup_filter.
Qed.

Lemma first_seen_snoc (l : list string) (x : string) :
  first_seen (l ++ [x])
  = if existsb (String.eqb x) l then first_seen l else first_seen l ++ [x].
Proof.
  induction l as [|y l IH]; [reflexivity|].
  cbn [app first_seen existsb]. rewrite IH.
  destruct (String.eqb_spec x y) as [->|Hne]; cbn [orb].
  - destruct (existsb (String.eqb y) l); [reflexivity|].
    rewrite filter_app. cbn [filter]. rewrite String.eqb_refl. cbn [negb].
    now rewrite app_nil_r.
  - destruct (existsb (String.eqb x) l); [reflexivity|].
    rewrite filter_app. cbn [filter].
    destruct (String.eqb_spec x y); [contradiction|]. reflexivity.
Qed.

Lemma existsb_first_seen (k : string) (l : list string) :
  existsb (String.eqb k) (first_seen l) = existsb (String.eqb k) l.
Proof.
  apply eq_true_iff_eq. rewrite !existsb_eqb_In. apply first_seen_In.
Qed.

(** *** The accumulator after a run of credits *)

Lemma sumZ_app (l1 l2 : list Z) : sumZ (l1 ++ l2) = sumZ l1 + sumZ l2.
Proof. unfold sumZ. induction l1 as [|x l1 IH]; cbn [app fold_right]; lia. Qed.

Lemma credited_snoc (E : list (string * Z)) (e : string * Z) (t : string) :
  credited (E ++ [e]) t = credited E t + (if String.eqb (fst e) t then snd e else 0).
Proof. unfold credited. rewrite map_app, sumZ_app. cbn. lia. Qed.

Lemma counted_snoc (E : list (string * Z)) (e : string * Z) (t : string) :
  counted (E ++ [e]) t = counted E t + (if String.eqb (fst e) t then 1 else 0).
Proof. unfold counted. rewrite map_app, sumZ_app. cbn. lia. Qed.

Lemma counted_nonneg (E : list (string * Z)) (t : string) : 0 <= counted E t.
Proof.
  induction E as [|e E IH]; cbn; [lia|].
  change (fold_right Z.add 0 (map (fun e => if String.eqb (fst e) t then 1 else 0) E))
    with (counted E t).
  destruct (String.eqb (fst e) t); lia.
Qed.

Lemma counted_pos (E : list (string * Z)) (t : string) :
  In t (map fst E) -> 0 < counted E t.
Proof.
  induction E as [|e E IH]; [contradiction|]. cbn [map In].
  change (counted (e :: E) t)
    with ((if String.eqb (fst e) t then 1 else 0) + counted E t).
  pose proof (counted_nonneg E t).
  intros [H0 | H0].
  - rewrite H0, String.eqb_refl. lia.
  - specialize (IH H0). destruct (String.eqb (fst e) t); lia.
Qed.

Lemma absent_zero (E : list (string * Z)) (t : string) :
  ~ In t (map fst E) -> credited E t = 0 /\ counted E t = 0.
Proof.
  induction E as [|e E IH]; [now split|]. cbn [map In]. intros H.
  change (credited (e :: E) t)
    with ((if String.eqb (fst e) t then snd e else 0) + credited E t).
  change (counted (e :: E) t)
    with ((if String.eqb (fst e) t then 1 else 0) + counted E t).
  destruct (String.eqb_spec (fst e) t) as [E0|_]; [tauto|].
  destruct IH as [-> ->]; [tauto|]. now split.
Qed.

Lemma stats_of_snoc_same (E : list (string * Z)) (k : string) (g : Z) :
  stats_of (E ++ [(k, g)]) k
  = mkStats (of_Z (credited E k) + of_Z g)%num (of_Z (counted E k) + of_Z 1)%num.
Proof.
  unfold stats_of. rewrite credited_snoc, counted_snoc. cbn [fst snd].
  now rewrite String.eqb_refl, !add_of_Z.
Qed.

Lemma stats_of_snoc_other (E : list (string * Z)) (k t : string) (g : Z) :
  t <> k -> stats_of (E ++ [(k, g)]) t = stats_of E t.
Proof.
  intros Ht. unfold stats_of. rewrite credited_snoc, counted_snoc. cbn [fst snd].
  destruct (String.eqb_spec k t) as [->|_]; [contradiction|]. now rewrite !Z.add_0_r.
Qed.

Lemma lookup_entries (E : list (string * Z)) (k : string) :
  or_default (JsMap.get (map (entry_of E) (first_seen (map fst E))) k)
             (mkStats (of_Z 0) (of_Z 0))
  = stats_of E k.
Proof.
  unfold entry_of. rewrite get_map_entry, existsb_first_seen.
  destruct (existsb (String.eqb k) (map fst E)) eqn:Ein; [reflexivity|].
  unfold stats_of. destruct (absent_zero E k) as [-> ->]; [|reflexivity].
  rewrite <- existsb_eqb_In. congruence.
Qed.

Lemma fold_credit (E : list (string * Z)) :
  fold_left credit E JsMap.empty = map (entry_of E) (first_seen (map fst E)).
Proof.
  induction E as [|e E IH] using rev_ind; [reflexivity|].
  rewrite fold_left_app. cbn [fold_left]. rewrite IH. clear IH.
  destruct e as [k g]. unfold credit. cbn [fst snd]. rewrite lookup_entries.
  change (mkStats (goals (stats_of E k) + of_Z g)%num (matches (stats_of E k) + of_Z 1)%num)
    with (mkStats (of_Z (credited E k) + of_Z g)%num (of_Z (counted E k) + of_Z 1)%num).
  rewrite <- stats_of_snoc_same.
  rewrite map_app. cbn [map fst]. rewrite first_seen_snoc.
  destruct (existsb (String.eqb k) (map fst E)) eqn:Ein.
  - apply (set_map_entry_old (stats_of E) (stats_of (E ++ [(k, g)]))).
    + apply first_seen_NoDup.
    + now rewrite existsb_first_seen.
    + intros t Ht. now apply stats_of_snoc_other.
  - unfold entry_of at 1. rewrite (set_map_entry_new (stats_of E)).
    + rewrite map_app. cbn [map]. f_equal.
      apply map_ext_in. intros t Ht. unfold entry_of. f_equal. symmetry.
      apply stats_of_snoc_other.
      intros ->. apply (proj1 (first_seen_In _ _)) in Ht.
      apply (proj2 (existsb_eqb_In _ _)) in Ht. congruence.
    + now rewrite existsb_first_seen.
Qed.

Lemma sumZ_cons (x : Z) (l : list Z) : sumZ (x :: l) = x + sumZ l.
Proof. reflexivity. Qed.

Lemma credits_cons (m : MatchData) (data : list MatchData) :
  credits (m :: data)
  = (Home m, to_Z (homeGoals (parseScore (Score m))))
      :: (Away m, to_Z (awayGoals (parseScore (Score m)))) :: credits data.
Proof. reflexivity. Qed.

Lemma credits_mentions (data : list MatchData) : map fst (credits data) = mentions data.
Proof.
  induction data as [|m data IH]; [reflexivity|].
  rewrite credits_cons, !map_cons, IH. reflexivity.
Qed.

Lemma credited_goalsOf (data : list MatchData) (t : string) :
  credited (credits data) t = goalsOf data t.
Proof.
  unfold credited, goalsOf. induction data as [|m data IH]; [reflexivity|].
  rewrite credits_cons, !map_cons, !sumZ_cons, IH. cbn [fst snd]. unfold goalsIn. lia.
Qed.

Lemma counted_playedOf (data : list MatchData) (t : string) :
  counted (credits data) t = playedOf data t.
Proof.
  unfold counted, playedOf. induction data as [|m data IH]; [reflexivity|].
  rewrite credits_cons, !map_cons, !sumZ_cons, IH. cbn [fst snd]. unfold rolesIn. lia.
Qed.

Lemma statsByTeam_entries (data : list MatchData) :
  whole_scores data ->
  statsByTeam data
  = map (fun t => (t, mkStats (of_Z (goalsOf data t)) (of_Z (playedOf data t))))
      (first_seen (mentions data)).
Proof.
  intros Hw. rewrite (statsByTeam_credits data Hw), fold_credit, credits_mentions.
  apply map_ext. intros t. unfold entry_of, stats_of.
  now rewrite credited_goalsOf, counted_playedOf.
Qed.

Lemma playedOf_pos (data : list MatchData) (t : string) :
  In t (first_seen (mentions data)) -> 0 < playedOf data t.
Proof.
  intros H. rewrite <- counted_playedOf. apply counted_pos.
  rewrite credits_mentions. now apply first_seen_In.
Qed.

Lemma mentions_In (data : list MatchData) (t : string) :
  In t (mentions data) <-> exists m, In m data /\ (Home m = t \/ Away m = t).
Proof.
  unfold mentions. rewrite in_flat_map. split.
  - intros (m & Hm & Ht). exists m. cbn in Ht. tauto.
  - intros (m & Hm & Ht). exists m. cbn. tauto.
Qed.

Lemma filter_all {A : Type} (f : A -> bool) (l : list A) :
  (forall x, In x l -> f x = true) -> filter f l = l.
Proof.
  induction l as [|x l IH]; [reflexivity|]. intros H. cbn [filter].
  rewrite (H x (or_introl eq_refl)), IH; [reflexivity|]. intros y Hy. apply H. now right.
Qed.

Lemma teamGoals_sort (data : list MatchData) :
  whole_scores data ->
  teamGoals data
  = sort by_rate_desc (map (rate_spec data) (first_seen (mentions data))).
Proof.
  intros Hw. unfold teamGoals, JsMap.entries. rewrite (statsByTeam_entries data Hw). f_equal.
  rewrite filter_all.
  - rewrite map_map. reflexivity.
  - intros e He. apply in_map_iff in He. destruct He as (t & <- & Ht).
    cbn [snd matches]. rewrite gtb_of_Z. apply Z.ltb_lt. now apply playedOf_pos.
Qed.

Lemma rate_spec_finite (data : list MatchData) (t : string) :
  In t (first_seen (mentions data)) ->
  exists q, goalsPerMatch (rate_spec data t) = Fin q.
Proof.
  intros H. apply playedOf_pos in H. unfold rate_spec. cbn [goalsPerMatch].
  rewrite div_of_Z by lia. eauto.
Qed.

Lemma after_by_rate (x y : TeamGoalRate) (qx qy : Q) :
  goalsPerMatch x = Fin qx -> goalsPerMatch y = Fin qy ->
  sort_after by_rate_desc x y = Num.Qltb qx qy.
Proof.
  intros Hx Hy. unfold sort_after, by_rate_desc. rewrite Hx, Hy. apply sub_Fin_pos.
Qed.

Lemma sort_by_rate (l : list TeamGoalRate) :
  Forall finite_rate l -> stable_sort_of rate_ge same_rate l (sort by_rate_desc l).
Proof.
  apply sort_stable_sort_of.
  - intros x y [qx Hx] [qy Hy]. rewrite (after_by_rate x y qx qy Hx Hy).
    unfold rate_ge. rewrite Hx, Hy, leb_Fin, Qltb_lt. apply Qlt_le_weak.
  - intros x y [qx Hx] [qy Hy]. rewrite (after_by_rate x y qx qy Hx Hy).
    unfold rate_ge. rewrite Hx, Hy, leb_Fin, Qltb_ge. auto.
  - intros x y z [qx Hx] [qy Hy] [qz Hz]. unfold rate_ge.
    rewrite Hx, Hy, Hz, !leb_Fin. intros H1 H2. now apply Qle_trans with qy.
  - intros z x y [qx Hx] [qy Hy]. rewrite (after_by_rate x y qx qy Hx Hy).
    unfold same_rate. rewrite Hx, Hy.
    destruct (goalsPerMatch z) as [q| | |]; cbn [Num.strict_eq]; try discriminate.
    rewrite !Qeq_bool_iff, Qltb_ge. intros H1 H2. rewrite <- H1, <- H2. apply Qle_refl.
Qed.

Lemma teamGoals_stable_sort (data : list MatchData) :
  whole_scores data ->
  stable_sort_of rate_ge same_rate
    (map (rate_spec data) (first_seen (mentions data))) (teamGoals data).
Proof.
  intros Hw. rewrite (teamGoals_sort data Hw). apply sort_by_rate.
  apply Forall_forall. intros r Hr. apply in_map_iff in Hr.
  destruct Hr as (t & <- & Ht). now apply rate_spec_finite.
Qed.

(** *** Rates that rounding keeps apart *)

Lemma goalsIn_bound (t : string) (m : MatchData) :
  Z.abs (goalsIn t m)
  <= Z.abs (to_Z (homeGoals (parseScore (Score m))))
     + Z.abs (to_Z (awayGoals (parseScore (Score m)))).
Proof.
  unfold goalsIn. destruct (String.eqb (Home m) t), (String.eqb (Away m) t); lia.
Qed.

Lemma goalsOf_bound (data : list MatchData) (t : string) :
  Z.abs (goalsOf data t) <= goalMass data.
Proof.
  unfold goalsOf, goalMass. induction data as [|m data IH]; [cbn; lia|].
  rewrite !map_cons, !sumZ_cons. pose proof (goalsIn_bound t m). lia.
Qed.

Lemma playedOf_bound (data : list MatchData) (t : string) :
  playedOf data t <= 2 * Z.of_nat (List.length data).
Proof.
  unfold playedOf. induction data as [|m data IH]; [cbn; lia|].
  rewrite map_cons, sumZ_cons. cbn [List.length]. unfold rolesIn at 1.
  destruct (String.eqb (Home m) t), (String.eqb (Away m) t); lia.
Qed.

Lemma Qabs_inject_Z (z : Z) : Qabs (inject_Z z) = inject_Z (Z.abs z).
Proof. reflexivity. Qed.

Lemma inject_Z_pos (b : Z) : 0 < b -> (0 < inject_Z b)%Q.
Proof. intros H. change 0%Q with (inject_Z 0). now rewrite <- Zlt_Qlt. Qed.

Lemma quotients_equal (a b c d : Z) :
  0 < b -> 0 < d -> a * d = c * b ->
  (inject_Z a / inject_Z b == inject_Z c / inject_Z d)%Q.
Proof.
  intros Hb Hd E.
  pose proof (inject_Z_pos b Hb) as Hb'. pose proof (inject_Z_pos d Hd) as Hd'.
  assert (Hbn : ~ (inject_Z b == 0)%Q) by (intros H; rewrite H in Hb'; now apply Qlt_irrefl in Hb').
  assert (Hdn : ~ (inject_Z d == 0)%Q) by (intros H; rewrite H in Hd'; now apply Qlt_irrefl in Hd').
  setoid_replace (inject_Z a / inject_Z b)%Q with (inject_Z (a * d) / inject_Z (b * d))%Q
    by (rewrite !inject_Z_mult; field; split; assumption).
  setoid_replace (inject_Z c / inject_Z d)%Q with (inject_Z (c * b) / inject_Z (b * d))%Q
    by (rewrite !inject_Z_mult; field; split; assumption).
  rewrite E. reflexivity.
Qed.

(** Two different quotients of small integers are far apart for their
    size. *)
Lemma quotients_apart (a b c d : Z) :
  0 < b -> 0 < d -> a * d <> c * b -> Z.abs a * d < 2 ^ 52 ->
  (Qabs (inject_Z a / inject_Z b)
   < Qabs (inject_Z a / inject_Z b - inject_Z c / inject_Z d) * inject_Z (2 ^ 52))%Q.
Proof.
  intros Hb Hd Hne Hsmall.
  pose proof (inject_Z_pos b Hb) as Hb'. pose proof (inject_Z_pos d Hd) as Hd'.
  assert (Hbn : ~ (inject_Z b == 0)%Q) by (intros E; rewrite E in Hb'; now apply Qlt_irrefl in Hb').
  assert (Hdn : ~ (inject_Z d == 0)%Q) by (intros E; rewrite E in Hd'; now apply Qlt_irrefl in Hd').
  assert (E1 : (inject_Z a / inject_Z b == inject_Z (a * d) / inject_Z (b * d))%Q).
  { rewrite !inject_Z_mult. field. split; assumption. }
  assert (E2 : (inject_Z a / inject_Z b - inject_Z c / inject_Z d
                == inject_Z (a * d - c * b) / inject_Z (b * d))%Q).
  { unfold Z.sub. rewrite inject_Z_plus, inject_Z_opp, !inject_Z_mult. field. split; assumption. }
  rewrite E2, E1. clear E1 E2.
  assert (Hbd : 0 < b * d) by lia.
  pose proof (inject_Z_pos (b * d) Hbd) as Hbd'.
  unfold Qdiv. rewrite !Qabs_Qmult, !Qabs_inject_Z.
  rewrite (Qabs_pos (/ inject_Z (b * d))) by (apply Qlt_le_weak, Qinv_lt_0_compat; exact Hbd').
  setoid_replace (inject_Z (Z.abs (a * d - c * b)) * / inject_Z (b * d) * inject_Z (2 ^ 52))%Q
    with (inject_Z (Z.abs (a * d - c * b) * 2 ^ 52) * / inject_Z (b * d))%Q
    by (rewrite (inject_Z_mult (Z.abs (a * d - c * b)) (2 ^ 52)); ring).
  apply Qmult_lt_compat_r; [now apply Qinv_lt_0_compat|].
  rewrite <- Zlt_Qlt. rewrite Z.abs_mul, (Z.abs_eq d) by lia.
  assert (1 <= Z.abs (a * d - c * b)) by lia. nia.
Qed.

Lemma rates_told_apart (data : list MatchData) (s t : string) :
  (goalMass data + 1) * (2 * Z.of_nat (List.length data)) ^ 2 < 2 ^ 51 ->
  In s (first_seen (mentions data)) -> In t (first_seen (mentions data)) ->
  same_rate (rate_spec data s) (rate_spec data t) = false ->
  told_apart (goalsPerMatch (rate_spec data s)) (goalsPerMatch (rate_spec data t)).
Proof.
  intros Hsafe Hs Ht Hdiff. rewrite Z.pow_2_r in Hsafe.
  pose proof (playedOf_pos data s Hs) as Hps. pose proof (playedOf_pos data t Ht) as Hpt.
  pose proof (playedOf_bound data s) as Hbs. pose proof (playedOf_bound data t) as Hbt.
  pose proof (goalsOf_bound data s) as Hgs. pose proof (goalsOf_bound data t) as Hgt.
  unfold same_rate, rate_spec in *. cbn [goalsPerMatch] in *.
  rewrite !div_of_Z in * by lia. cbn [Num.strict_eq] in Hdiff.
  set (a := goalsOf data s) in *. set (b := playedOf data s) in *.
  set (c := goalsOf data t) in *. set (d := playedOf data t) in *.
  set (G := goalMass data) in *. set (N := 2 * Z.of_nat (List.length data)) in *.
  assert (Hne : a * d <> c * b).
  { intros E. apply not_true_iff_false in Hdiff. apply Hdiff. apply Qeq_bool_iff.
    rewrite !Qred_correct. now apply quotients_equal. }
  assert (H0G : 0 <= G) by lia.
  assert (H1N : 1 <= N) by lia.
  assert (HGN : G * (N * N) < 2 ^ 51) by nia.
  assert (HN : G * N <= G * (N * N)) by nia.
  assert (Hsmall1 : Z.abs a * d < 2 ^ 52) by (assert (Z.abs a * d <= G * N) by nia; lia).
  assert (Hsmall2 : Z.abs c * b < 2 ^ 52) by (assert (Z.abs c * b <= G * N) by nia; lia).
  unfold told_apart. split.
  - rewrite !Qred_correct. now apply quotients_apart.
  - rewrite !Qred_correct.
    rewrite (Qabs_Qminus (inject_Z a / inject_Z b) (inject_Z c / inject_Z d)).
    apply quotients_apart; try assumption. congruence.
Qed.

(** *** The teams of the output, whatever the scores *)

Lemma teamGoals_step_played (m : MatchData) (M : JsMap.t Stats) :
  map_vals played_part (exec (teamGoals_step m) M)
  = credit (credit (map_vals played_part M) (Home m, 0)) (Away m, 0).
Proof.
  unfold teamGoals_step, exec, bind, get, put. cbn [fst snd].
  rewrite (credit_view played_part (mkStats (of_Z 0) (of_Z 0)) _ (Away m) 0);
    [|reflexivity|reflexivity].
  rewrite (credit_view played_part (mkStats (of_Z 0) (of_Z 0)) M (Home m) 0);
    [reflexivity|reflexivity|reflexivity].
Qed.

Lemma appearances_cons (m : MatchData) (data : list MatchData) :
  appearances (m :: data) = (Home m, 0) :: (Away m, 0) :: appearances data.
Proof. reflexivity. Qed.

Lemma statsByTeam_played (data : list MatchData) :
  map_vals played_part (statsByTeam data) = fold_left credit (appearances data) JsMap.empty.
Proof.
  unfold statsByTeam. rewrite exec_forEach_fold.
  change (@JsMap.empty Stats) with (map_vals played_part (@JsMap.empty Stats)) at 2.
  generalize (@JsMap.empty Stats).
  induction data as [|m data IH]; intros M; [reflexivity|].
  rewrite appearances_cons. cbn [fold_left]. now rewrite IH, teamGoals_step_played.
Qed.

Lemma appearances_mentions (data : list MatchData) :
  map fst (appearances data) = mentions data.
Proof.
  induction data as [|m data IH]; [reflexivity|].
  rewrite appearances_cons, !map_cons, IH. reflexivity.
Qed.

Lemma counted_appearances (data : list MatchData) (t : string) :
  counted (appearances data) t = playedOf data t.
Proof.
  unfold counted, playedOf. induction data as [|m data IH]; [reflexivity|].
  rewrite appearances_cons, !map_cons, !sumZ_cons, IH. cbn [fst snd]. unfold rolesIn. lia.
Qed.

(** Whatever the scores, the accumulators are keyed by the teams in order
    of first mention, each with the number of its appearances. *)
Lemma statsByTeam_matches (data : list MatchData) :
  map (fun e => (fst e, matches (snd e))) (statsByTeam data)
  = map (fun t => (t, of_Z (playedOf data t))) (first_seen (mentions data)).
Proof.
  pose proof (statsByTeam_played data) as H.
  rewrite fold_credit, appearances_mentions in H.
  apply (f_equal (map (fun e : string * Stats => (fst e, matches (snd e))))) in H.
  unfold map_vals in H. rewrite !map_map in H. cbn [fst snd played_part matches] in H.
  rewrite H. apply map_ext. intros t. unfold entry_of, stats_of. cbn [fst snd matches].
  now rewrite counted_appearances.
Qed.

Lemma statsByTeam_keys (data : list MatchData) :
  map fst (statsByTeam data) = first_seen (mentions data).
Proof.
  pose proof (statsByTeam_matches data) as H.
  apply (f_equal (map fst)) in H. rewrite !map_map in H. cbn [fst] in H.
  now rewrite map_id in H.
Qed.

Lemma statsByTeam_played_pos (data : list MatchData) (e : string * Stats) :
  In e (statsByTeam data) -> (matches (snd e) >? of_Z 0)%num = true.
Proof.
  intros He. apply (in_map (fun e : string * Stats => (fst e, matches (snd e)))) in He.
  rewrite statsByTeam_matches in He. apply in_map_iff in He.
  destruct He as (t & E & Ht). injection E as _ <-.
  rewrite gtb_of_Z. apply Z.ltb_lt. now apply playedOf_pos.
Qed.

(** Every accumulator passes the filter: each team it holds has played. *)
Lemma teamGoals_unsorted (data : list MatchData) :
  teamGoals data = sort by_rate_desc (map rate_of_entry (statsByTeam data)).
Proof.
  unfold teamGoals, JsMap.entries. rewrite filter_all; [reflexivity|].
  apply statsByTeam_played_pos.
Qed.

(** The teams of the output are those the rows mention. *)
Lemma teamGoals_teams (data : list MatchData) :
  Permutation (first_seen (mentions data)) (map team (teamGoals data)).
Proof.
  rewrite teamGoals_unsorted, <- statsByTeam_keys.
  replace (map fst (statsByTeam data)) with (map team (map rate_of_entry (statsByTeam data)))
    by (rewrite map_map; reflexivity).
  apply Permutation_map, sort_perm.
Qed.

Lemma matchesPlayedOf_playedOf (data : list MatchData) (t : string) :
  whole_scores data ->
  matchesPlayedOf data t = of_Z (playedOf data t).
Proof.
  intros Hw. unfold matchesPlayedOf.
  rewrite (statsByTeam_credits data Hw), fold_credit, lookup_entries.
  unfold stats_of. cbn [matches]. now rewrite counted_playedOf.
Qed.

Lemma sumN_of_Z (zs : list Z) : sumN (map of_Z zs) = of_Z (sumZ zs).
Proof.
  induction zs as [|z zs IH]; [reflexivity|].
  rewrite map_cons, sumZ_cons. cbn [sumN fold_right]. fold (sumN (map of_Z zs)).
  now rewrite IH, add_of_Z.
Qed.

Lemma sumZ_perm (l l' : list Z) : Permutation l l' -> sumZ l = sumZ l'.
Proof.
  induction 1 as [|x l l' _ IH|x y l|l l' l'' _ IH1 _ IH2]; rewrite ?sumZ_cons; lia.
Qed.

Lemma sumN_perm_of_Z (zs : list Z) (T : list number) :
  Permutation (map of_Z zs) T -> sumN T = of_Z (sumZ zs).
Proof.
  intros H. apply Permutation_sym, Permutation_map_inv in H.
  destruct H as (zs' & -> & Hp).
  rewrite sumN_of_Z. f_equal. symmetry. now apply sumZ_perm.
Qed.

Lemma sumZ_map_add {A : Type} (f g : A -> Z) (l : list A) :
  sumZ (map (fun x => f x + g x) l) = sumZ (map f l) + sumZ (map g l).
Proof.
  induction l as [|x l IH]; [reflexivity|]. rewrite !map_cons, !sumZ_cons. lia.
Qed.

Lemma sumZ_indicator (k : string) (v : Z) (l : list string) :
  NoDup l ->
  sumZ (map (fun t => if String.eqb k t then v else 0) l)
  = if existsb (String.eqb k) l then v else 0.
Proof.
  induction 1 as [|x l Hx Hnd IH]; [reflexivity|].
  rewrite map_cons, sumZ_cons, IH. cbn [existsb].
  destruct (String.eqb_spec k x) as [->|_]; cbn [orb]; [|lia].
  replace (existsb (String.eqb x) l) with false; [lia|].
  symmetry. apply not_true_iff_false. now rewrite existsb_eqb_In.
Qed.

Lemma sum_goalsIn (m : MatchData) (l : list string) :
  NoDup l -> In (Home m) l -> In (Away m) l ->
  sumZ (map (fun t => goalsIn t m) l)
  = to_Z (homeGoals (parseScore (Score m))) + to_Z (awayGoals (parseScore (Score m))).
Proof.
  intros Hnd Hh Ha. unfold goalsIn.
  rewrite (sumZ_map_add
             (fun t => if String.eqb (Home m) t then to_Z (homeGoals (parseScore (Score m))) else 0)
             (fun t => if String.eqb (Away m) t then to_Z (awayGoals (parseScore (Score m))) else 0)).
  rewrite !sumZ_indicator by assumption.
  apply existsb_eqb_In in Hh, Ha. now rewrite Hh, Ha.
Qed.

Lemma sum_goalsOf (data : list MatchData) (l : list string) :
  NoDup l -> incl (mentions data) l ->
  sumZ (map (goalsOf data) l)
  = sumZ (map (fun m => to_Z (homeGoals (parseScore (Score m)))
                        + to_Z (awayGoals (parseScore (Score m)))) data).
Proof.
  intros Hnd. induction data as [|m data IH]; intros Hin.
  - cbn [map]. unfold goalsOf. cbn [map]. clear. induction l as [|x l IHl]; [reflexivity|].
    rewrite map_cons, sumZ_cons, IHl. reflexivity.
  - rewrite map_cons, sumZ_cons, <- IH.
    + rewrite <- (sum_goalsIn m l); try assumption.
      * rewrite <- sumZ_map_add. reflexivity.
      * apply Hin. cbn. auto.
      * apply Hin. cbn. auto.
    + intros t Ht. apply Hin. cbn. auto.
Qed.

Lemma totalGoals_int (data : list MatchData) :
  whole_scores data ->
  totalGoals data
  = of_Z (sumZ (map (fun m => to_Z (homeGoals (parseScore (Score m)))
                              + to_Z (awayGoals (parseScore (Score m)))) data)).
Proof.
  intros Hw. unfold totalGoals. rewrite <- sumN_of_Z, map_map. f_equal.
  apply map_ext_in. intros m Hm. destruct (whole_scores_In data m Hw Hm) as [Hh Ha].
  rewrite Hh at 1. rewrite Ha at 1. apply add_of_Z.
Qed.

Lemma accumulatedGoals_total (data : list MatchData) :
  whole_scores data -> accumulatedGoals data = totalGoals data.
Proof.
  intros Hw. unfold accumulatedGoals, JsMap.entries.
  rewrite (statsByTeam_entries data Hw), map_map.
  cbn [snd goals].
  rewrite <- (map_map (goalsOf data) of_Z), sumN_of_Z, (totalGoals_int data Hw).
  f_equal. apply sum_goalsOf; [apply first_seen_NoDup|].
  intros t Ht. now apply first_seen_In.
Qed.

(** *** The integers of a dataset of safe size *)

Lemma goalMass_app (p rest : list MatchData) :
  goalMass (p ++ rest) = goalMass p + goalMass rest.
Proof. unfold goalMass. now rewrite map_app, sumZ_app. Qed.

Lemma goalMass_nonneg (data : list MatchData) : 0 <= goalMass data.
Proof.
  unfold goalMass. induction data as [|m data IH]; [cbn; lia|].
  rewrite map_cons, sumZ_cons. lia.
Qed.

(** The rows read so far are of safe size if the whole dataset is. *)
Lemma safe_size_prefix (p rest : list MatchData) :
  safe_size (p ++ rest) -> safe_size p.
Proof.
  intros [Hw Hb]. split.
  - unfold whole_scores in *. now apply Forall_app in Hw.
  - rewrite goalMass_app, length_app, Nat2Z.inj_add, !Z.pow_2_r in *.
    pose proof (goalMass_nonneg p). pose proof (goalMass_nonneg rest). nia.
Qed.

Lemma safe_size_bounds (data : list MatchData) :
  safe_size data -> data <> [] ->
  goalMass data < 2 ^ 49 /\ 2 * Z.of_nat (List.length data) < 2 ^ 26.
Proof.
  intros [_ Hb] Hne. rewrite Z.pow_2_r in Hb.
  pose proof (goalMass_nonneg data).
  assert (1 <= Z.of_nat (List.length data)) by (destruct data; [congruence | cbn [List.length]; lia]).
  split; [nia|].
  assert (H26 : 2 ^ 26 * 2 ^ 26 = 2 ^ 52) by reflexivity.
  assert (H51 : 2 ^ 51 < 2 ^ 52) by reflexivity. nia.
Qed.

(** On a dataset of safe size the accumulators of [teamGoals] are integers
    that binary64 holds exactly. *)
Lemma statsByTeam_safe (data : list MatchData) :
  safe_size data ->
  Forall (fun e => safe_integer (goals (snd e)) /\ safe_integer (matches (snd e)))
         (JsMap.entries (statsByTeam data)).
Proof.
  intros Hs. destruct data as [|m0 data0] eqn:Ed; [constructor|]. rewrite <- Ed in *.
  assert (Hne : data <> []) by (rewrite Ed; discriminate).
  destruct (safe_size_bounds data Hs Hne) as [HG HN]. destruct Hs as [Hw _].
  unfold JsMap.entries. rewrite (statsByTeam_entries data Hw).
  apply Forall_forall. intros e He. apply in_map_iff in He. destruct He as (t & <- & Ht).
  cbn [snd goals matches]. split.
  - exists (goalsOf data t). split; [reflexivity|]. pose proof (goalsOf_bound data t).
    assert (2 ^ 49 < 2 ^ 53) by reflexivity. lia.
  - exists (playedOf data t). split; [reflexivity|].
    pose proof (playedOf_bound data t). pose proof (playedOf_pos data t Ht).
    assert (2 ^ 26 < 2 ^ 53) by reflexivity. lia.
Qed.

Lemma totalGoals_safe (data : list MatchData) :
  safe_size data -> safe_integer (totalGoals data).
Proof.
  intros Hs. destruct data as [|m0 data0] eqn:Ed.
  - exists 0. split; reflexivity.
  - rewrite <- Ed in *. assert (Hne : data <> []) by (rewrite Ed; discriminate).
    destruct (safe_size_bounds data Hs Hne) as [HG _]. destruct Hs as [Hw _].
    rewrite (totalGoals_int data Hw). eexists. split; [reflexivity|].
    assert (Hle : Z.abs (sumZ (map (fun m => to_Z (homeGoals (parseScore (Score m)))
                                   + to_Z (awayGoals (parseScore (Score m)))) data))
                  <= goalMass data).
    { clear. unfold goalMass. induction data as [|m data IH]; [cbn; lia|].
      rewrite !map_cons, !sumZ_cons. lia. }
    assert (2 ^ 49 < 2 ^ 53) by reflexivity. lia.
Qed.

(* ------------------------------------------------------------------ *)
(** ** Outcome tallies *)

Lemma matchOutcomes_step_int (m : MatchData) (h a d : Z) :
  exists h' a' d',
    exec (matchOutcomes_step m) (mkTally (of_Z h) (of_Z a) (of_Z d))
    = mkTally (of_Z h') (of_Z a') (of_Z d')
    /\ h <= h' /\ a <= a' /\ d <= d' /\ h' + a' + d' = h + a + d + 1.
Proof.
  unfold matchOutcomes_step, exec, bind, get, put. cbn [fst snd homeWins awayWins draws].
  destruct (homeGoals (parseScore (Score m)) >? awayGoals (parseScore (Score m)))%num;
    [|destruct (homeGoals (parseScore (Score m)) <? awayGoals (parseScore (Score m)))%num];
    cbn [snd]; rewrite add_of_Z.
  - exists (h + 1), a, d. repeat split; lia.
  - exists h, (a + 1), d. repeat split; lia.
  - exists h, a, (d + 1). repeat split; lia.
Qed.

Lemma tally_int (data : list MatchData) (h a d : Z) :
  exists h' a' d',
    exec (forEach data matchOutcomes_step) (mkTally (of_Z h) (of_Z a) (of_Z d))
    = mkTally (of_Z h') (of_Z a') (of_Z d')
    /\ h <= h' /\ a <= a' /\ d <= d'
    /\ h' + a' + d' = h + a + d + Z.of_nat (List.length data).
Proof.
  revert h a d. induction data as [|m data IH]; intros h a d.
  - exists h, a, d. cbn. repeat split; lia.
  - rewrite exec_forEach_cons.
    destruct (matchOutcomes_step_int m h a d) as (h1 & a1 & d1 & -> & ? & ? & ? & ?).
    destruct (IH h1 a1 d1) as (h2 & a2 & d2 & -> & ? & ? & ? & ?).
    exists h2, a2, d2. cbn [List.length]. repeat split; lia.
Qed.

Lemma matchOutcomes_int (data : list MatchData) :
  exists h a d,
    0 <= h /\ 0 <= a /\ 0 <= d /\ h + a + d = Z.of_nat (List.length data)
    /\ matchOutcomes data
       = {| labels := ["Home Wins"; "Away Wins"; "Draws"]%string;
            values := [of_Z h; of_Z a; of_Z d];
            percentages := [ (of_Z h / of_Z (h + a + d) * of_Z 100)%num;
                             (of_Z a / of_Z (h + a + d) * of_Z 100)%num;
                             (of_Z d / of_Z (h + a + d) * of_Z 100)%num ];
            counts := [of_Z h; of_Z a; of_Z d];
            total := of_Z (h + a + d) |}.
Proof.
  destruct (tally_int data 0 0 0) as (h & a & d & E & ? & ? & ? & ?).
  exists h, a, d. repeat split; try lia.
  unfold matchOutcomes. rewrite E. cbn [homeWins awayWins draws].
  now rewrite !add_of_Z.
Qed.

Lemma percent_range (c n : Z) :
  0 <= c <= n -> 0 < n -> percent_in_range (of_Z c / of_Z n * of_Z 100)%num.
Proof.
  intros [Hc Hn] Hpos. rewrite div_of_Z by lia. unfold percent_in_range, of_Z.
  cbn [Num.mul]. rewrite !leb_Fin, !Qred_correct.
  assert (Hn' : (0 < inject_Z n)%Q) by (change 0%Q with (inject_Z 0); now rewrite <- Zlt_Qlt).
  assert (H0 : (0 <= inject_Z c / inject_Z n)%Q).
  { apply Qle_shift_div_l; [exact Hn'|]. rewrite Qmult_0_l.
    change 0%Q with (inject_Z 0). now rewrite <- Zle_Qle. }
  assert (H1 : (inject_Z c / inject_Z n <= 1)%Q).
  { apply Qle_shift_div_r; [exact Hn'|]. rewrite Qmult_1_l. now rewrite <- Zle_Qle. }
  change (inject_Z 0) with 0%Q. change (inject_Z 100) with 100%Q. split.
  - apply Qmult_le_0_compat; [exact H0 | discriminate].
  - setoid_replace 100%Q with (1 * 100)%Q at 2 by reflexivity.
    apply Qmult_le_compat_r; [exact H1 | discriminate].
Qed.

Lemma of_Z_inj (a b : Z) : of_Z a = of_Z b -> a = b.
Proof. intros H. injection H as H. exact H. Qed.

Lemma Fin_Qred_of_Z (x : Q) (z : Z) : Fin (Qred x) = of_Z z -> (x == inject_Z z)%Q.
Proof.
  intros E.
  assert (H : Qred x = inject_Z z).
  { apply (f_equal (fun a => match a with Fin q => q | _ => 0%Q end)) in E. exact E. }
  rewrite <- (Qred_correct x), H. reflexivity.
Qed.

Lemma percent_ends (c n : Z) :
  0 <= c <= n -> 0 < n ->
  percent_of (of_Z n) (of_Z c) (of_Z c / of_Z n * of_Z 100)%num.
Proof.
  intros Hc Hn. split; [now apply percent_range|].
  assert (Hn' : (0 < inject_Z n)%Q) by (change 0%Q with (inject_Z 0); now rewrite <- Zlt_Qlt).
  split; split.
  - intros E. destruct (Z.eq_dec c 0) as [->|Hne]; [reflexivity|]. exfalso.
    rewrite div_of_Z in E by lia. unfold of_Z at 1 in E. cbn [Num.mul] in E.
    apply Fin_Qred_of_Z in E. rewrite Qred_correct in E.
    assert (Hpos : (0 < inject_Z c / inject_Z n * inject_Z 100)%Q).
    { apply Qmult_lt_0_compat; [|reflexivity].
      apply Qlt_shift_div_l; [exact Hn'|]. rewrite Qmult_0_l.
      change 0%Q with (inject_Z 0). rewrite <- Zlt_Qlt. lia. }
    rewrite E in Hpos. now apply Qlt_irrefl in Hpos.
  - intros E. apply of_Z_inj in E. subst c.
    replace 0 with (0 * n) at 1 by lia. rewrite div_whole_of_Z by lia. apply mul_of_Z.
  - intros E. destruct (Z.eq_dec c n) as [->|Hne]; [reflexivity|]. exfalso.
    rewrite div_of_Z in E by lia. unfold of_Z at 1 in E. cbn [Num.mul] in E.
    apply Fin_Qred_of_Z in E. rewrite Qred_correct in E.
    assert (Hlt : (inject_Z c / inject_Z n * inject_Z 100 < inject_Z 100)%Q).
    { setoid_replace (inject_Z 100) with (1 * inject_Z 100)%Q at 2 by ring.
      apply Qmult_lt_compat_r; [reflexivity|].
      apply Qlt_shift_div_r; [exact Hn'|]. rewrite Qmult_1_l. rewrite <- Zlt_Qlt. lia. }
    rewrite E in Hlt. now apply Qlt_irrefl in Hlt.
  - intros E. apply of_Z_inj in E. subst c.
    replace n with (1 * n) at 1 by lia. rewrite div_whole_of_Z by lia. apply mul_of_Z.
Qed.

(* ------------------------------------------------------------------ *)
(** ** Series by date *)

Lemma truthy_nonempty (s : string) : Str.truthy s = true <-> s <> EmptyString.
Proof. destruct s; cbn; split; congruence. Qed.

Section Timeseries.

Variable Date_getTime : string -> option Z.

Lemma timeseriesData_unselected (data : list MatchData) :
  timeseriesData Date_getTime data EmptyString
  = sort (by_date Date_getTime XgPoint.date) (map home_view data).
Proof. reflexivity. Qed.

Lemma xg_point_away (sel : string) (m : MatchData) :
  sel <> EmptyString -> Away m = sel -> Home m <> sel ->
  xg_point sel m = away_view m.
Proof.
  intros Hsel Ha Hh. unfold xg_point, away_view.
  apply truthy_nonempty in Hsel. rewrite Hsel, Ha, String.eqb_refl.
  destruct (String.eqb_spec (Home m) sel); [contradiction|]. reflexivity.
Qed.

Lemma timeseriesData_In (data : list MatchData) (sel : string) (m : MatchData) :
  sel <> EmptyString -> In m data -> plays sel m = true ->
  In (xg_point sel m) (timeseriesData Date_getTime data sel).
Proof.
  intros Hsel Hm Hp. unfold timeseriesData. apply sort_In.
  apply truthy_nonempty in Hsel. rewrite Hsel.
  apply in_map. apply filter_In. now split.
Qed.

End Timeseries.

Lemma strict_eq_sym (a b : number) : (a === b)%num = (b === a)%num.
Proof.
  destruct a as [x| | |], b as [y| | |]; try reflexivity. cbn [Num.strict_eq].
  apply eq_true_iff_eq. rewrite !Qeq_bool_iff. split; intros H; now symmetry.
Qed.

Lemma matchPoints_award (t : string) (m : MatchData) :
  matchPoints t m = of_Z (award (outcome t m)).
Proof.
  unfold matchPoints, outcome, goalsFor, goalsAgainst.
  destruct (String.eqb (Home m) t).
  - destruct (homeGoals (parseScore (Score m)) >? awayGoals (parseScore (Score m)))%num;
      [reflexivity|].
    destruct (homeGoals (parseScore (Score m)) === awayGoals (parseScore (Score m)))%num;
      reflexivity.
  - destruct (awayGoals (parseScore (Score m)) >? homeGoals (parseScore (Score m)))%num;
      [reflexivity|].
    rewrite (strict_eq_sym (awayGoals _) (homeGoals _)).
    destruct (homeGoals (parseScore (Score m)) === awayGoals (parseScore (Score m)))%num;
      reflexivity.
Qed.

Lemma result_label (o : Outcome) :
  (if (of_Z (award o) === of_Z 3)%num then "Win"
   else if (of_Z (award o) === of_Z 1)%num then "Draw" else "Loss")%string
  = outcome_label o.
Proof. destruct o; reflexivity. Qed.

Lemma ppg_step_run (t : string) (m : MatchData) (p n : Z) :
  ppg_step t m (mkRunning (of_Z p) (of_Z n))
  = (ppg_point t m (p + award (outcome t m), n + 1),
     mkRunning (of_Z (p + award (outcome t m))) (of_Z (n + 1))).
Proof.
  unfold ppg_step, bind, get, put, ret. cbn [points matchesPlayed].
  rewrite matchPoints_award, result_label, !add_of_Z. reflexivity.
Qed.

Lemma mapM_ppg_step (t : string) (l : list MatchData) (p n : Z) :
  eval (mapM (ppg_step t) l) (mkRunning (of_Z p) (of_Z n)) = ppg_scan t p n l.
Proof.
  revert p n. induction l as [|m l IH]; intros p n; [reflexivity|].
  unfold eval in *. cbn [mapM]. unfold bind at 1. rewrite ppg_step_run.
  unfold bind at 1. specialize (IH (p + award (outcome t m)) (n + 1)).
  destruct (mapM (ppg_step t) l _) as [ys st]. cbn [fst] in IH. subst ys.
  reflexivity.
Qed.

Section PointsPerGame.

Variable Date_getTime : string -> option Z.

Lemma ppg_series_scan (data : list MatchData) (t : string) :
  ppg_series Date_getTime data t = ppg_scan t 0 0 (teamMatches Date_getTime data t).
Proof. apply mapM_ppg_step. Qed.

End PointsPerGame.

Lemma award_range (o : Outcome) : 0 <= award o <= 3.
Proof. destruct o; cbn; lia. Qed.

Lemma ppg_scan_cons (t : string) (p n : Z) (m : MatchData) (l : list MatchData) :
  ppg_scan t p n (m :: l)
  = ppg_point t m (p + award (outcome t m), n + 1)
      :: ppg_scan t (p + award (outcome t m)) (n + 1) l.
Proof. reflexivity. Qed.

Lemma ppg_scan_lower (t : string) (l : list MatchData) (p n : Z) :
  Forall (fun x => num_leb (of_Z p) (PPGDataPoint.points x) = true) (ppg_scan t p n l).
Proof.
  revert p n. induction l as [|m l IH]; intros p n; [constructor|].
  rewrite ppg_scan_cons. pose proof (award_range (outcome t m)) as Ha. constructor.
  - cbn [ppg_point PPGDataPoint.points fst]. rewrite leb_of_Z. apply Z.leb_le. lia.
  - eapply Forall_impl; [|apply IH]. cbn beta. intros x.
    destruct (PPGDataPoint.points x) as [q| | |];
      try (intros H; discriminate H); try reflexivity.
    unfold of_Z. rewrite !leb_Fin. apply Qle_trans.
    rewrite <- Zle_Qle. lia.
Qed.

Lemma ppg_scan_monotone (t : string) (l : list MatchData) (p n : Z) :
  StronglySorted points_le (ppg_scan t p n l).
Proof.
  revert p n. induction l as [|m l IH]; intros p n; [constructor|].
  rewrite ppg_scan_cons. constructor; [apply IH|].
  apply ppg_scan_lower.
Qed.

Lemma ppg_scan_range (t : string) (l : list MatchData) (p n : Z) :
  0 <= n -> 0 <= p <= 3 * n -> Forall ppg_in_range (ppg_scan t p n l).
Proof.
  revert p n. induction l as [|m l IH]; intros p n Hn Hp; [constructor|].
  rewrite ppg_scan_cons. pose proof (award_range (outcome t m)) as Ha. constructor.
  - unfold ppg_in_range, ppg_point, pointsPerGame. cbn [PPGDataPoint.ppg fst snd].
    apply div_of_Z_bounds; lia.
  - apply IH; lia.
Qed.

Lemma ppg_scan_results (t : string) (l : list MatchData) (p n : Z) :
  map PPGDataPoint.result (ppg_scan t p n l) = map (fun m => outcome_label (outcome t m)) l.
Proof.
  revert p n. induction l as [|m l IH]; intros p n; [reflexivity|].
  rewrite ppg_scan_cons, !map_cons, IH. reflexivity.
Qed.

Lemma ppg_scan_totals (t : string) (l : list MatchData) (p n : Z) :
  map (fun x => (PPGDataPoint.ppg x, PPGDataPoint.points x, PPGDataPoint.matches x))
      (ppg_scan t p n l)
  = map (fun acc => (pointsPerGame acc, of_Z (fst acc), of_Z (snd acc)))
        (running_totals t p n l).
Proof.
  revert p n. induction l as [|m l IH]; intros p n; [reflexivity|].
  rewrite ppg_scan_cons. cbn [running_totals]. rewrite !map_cons, IH. reflexivity.
Qed.

Lemma outcome_label_inj (o o' : Outcome) : outcome_label o = outcome_label o' -> o = o'.
Proof. destruct o, o'; cbn; congruence. Qed.

Lemma ppg_scan_win_draw_loss (t : string) (l : list MatchData) :
  map PPGDataPoint.result (ppg_scan t 0 0 l) = ["Win"; "Draw"; "Loss"]%string ->
  map PPGDataPoint.ppg (ppg_scan t 0 0 l) = [of_Z 3; of_Z 2; Fin (4 # 3)].
Proof.
  rewrite ppg_scan_results.
  destruct l as [|m1 [|m2 [|m3 [|m4 l]]]]; try discriminate.
  cbn [map]. intros H. injection H as H1 H2 H3.
  apply (outcome_label_inj _ Win) in H1. apply (outcome_label_inj _ Draw) in H2.
  apply (outcome_label_inj _ Loss) in H3.
  rewrite !ppg_scan_cons. cbn [map ppg_point PPGDataPoint.ppg ppg_scan combine running_totals].
  rewrite H1, H2, H3. reflexivity.
Qed.

Lemma primaryTeam_series (Date_getTime : string -> option Z) (data : list MatchData)
  (sel cmp : string) :
  sel <> EmptyString ->
  primaryTeam (ppgTimeseriesData Date_getTime data sel cmp)
  = ppg_scan sel 0 0 (teamMatches Date_getTime data sel).
Proof.
  intros Hsel. apply truthy_nonempty in Hsel. unfold ppgTimeseriesData. rewrite Hsel.
  cbn [negb]. destruct (Str.truthy cmp); cbn [primaryTeam]; apply ppg_series_scan.
Qed.

Lemma ppgTimeseriesData_cases (Date_getTime : string -> option Z) (data : list MatchData)
  (sel cmp : string) :
  (primaryTeam (ppgTimeseriesData Date_getTime data sel cmp) = []
   \/ primaryTeam (ppgTimeseriesData Date_getTime data sel cmp)
      = ppg_scan sel 0 0 (teamMatches Date_getTime data sel))
  /\ (compareTeam (ppgTimeseriesData Date_getTime data sel cmp) = []
      \/ compareTeam (ppgTimeseriesData Date_getTime data sel cmp)
         = ppg_scan cmp 0 0 (teamMatches Date_getTime data cmp)).
Proof.
  unfold ppgTimeseriesData.
  destruct (Str.truthy sel); cbn [negb]; [|split; now left].
  destruct (Str.truthy cmp); cbn [primaryTeam compareTeam]; split;
    try (right; apply ppg_series_scan); now left.
Qed.

Lemma teamMatches_In (Date_getTime : string -> option Z) (data : list MatchData)
  (t : string) (m : MatchData) :
  In m (teamMatches Date_getTime data t) <-> In m data /\ (Home m = t \/ Away m = t).
Proof.
  unfold teamMatches. rewrite sort_In, filter_In. unfold plays.
  rewrite orb_true_iff, !String.eqb_eq. reflexivity.
Qed.

Lemma teamMatches_sorted (Date_getTime : string -> option Z) (data : list MatchData)
  (t : string) :
  Forall (fun m => valid_date Date_getTime (Date m)) data ->
  stable_sort_of (fun a b => date_le Date_getTime (Date a) (Date b))
                 (fun a b => same_date Date_getTime (Date a) (Date b))
                 (filter (plays t) data) (teamMatches Date_getTime data t).
Proof.
  intros Hv. unfold teamMatches.
  change (by_match_date Date_getTime) with (by_date Date_getTime Date).
  apply sort_by_date. rewrite Forall_forall in *. intros m Hm.
  apply Hv. apply filter_In in Hm. tauto.
Qed.

Lemma compareTeam_series (Date_getTime : string -> option Z) (data : list MatchData)
  (sel cmp : string) :
  sel <> EmptyString -> cmp <> EmptyString ->
  compareTeam (ppgTimeseriesData Date_getTime data sel cmp)
  = ppg_scan cmp 0 0 (teamMatches Date_getTime data cmp).
Proof.
  intros Hsel Hcmp. apply truthy_nonempty in Hsel, Hcmp.
  unfold ppgTimeseriesData. rewrite Hsel, Hcmp. cbn [negb compareTeam].
  apply ppg_series_scan.
Qed.

Lemma ppg_scan_fold_of (Date_getTime : string -> option Z) (data : list MatchData)
  (t : string) :
  ppg_fold_of Date_getTime data t (ppg_scan t 0 0 (teamMatches Date_getTime data t)).
Proof.
  exists (teamMatches Date_getTime data t).
  split; [intros m; apply teamMatches_In|].
  split; [apply sort_perm|].
  split; [apply teamMatches_sorted|].
  split; [apply ppg_scan_totals|].
  split; [apply ppg_scan_results | apply ppg_scan_win_draw_loss].
Qed.

(* ------------------------------------------------------------------ *)
(** ** Segments of a score *)

Lemma append_assoc (a b c : string) : ((a ++ b) ++ c = a ++ (b ++ c))%string.
Proof. induction a as [|x a IH]; [reflexivity|]. cbn. now rewrite IH. Qed.

Lemma append_nil_r (a : string) : (a ++ EmptyString)%string = a.
Proof. induction a as [|x a IH]; [reflexivity|]. cbn. now rewrite IH. Qed.

Lemma split_from_no_sep (sep acc s : string) :
  occurs sep s = false -> Str.split_from sep 0 acc s = [(acc ++ s)%string].
Proof.
  revert acc. induction s as [|c s IH]; intros acc H.
  - cbn. now rewrite append_nil_r.
  - cbn [occurs] in H. apply orb_false_iff in H. destruct H as [Hp Ho].
    cbn [Str.split_from]. rewrite Hp, (IH _ Ho). unfold Str.snoc.
    now rewrite append_assoc.
Qed.

Lemma split_no_sep (sep s : string) : occurs sep s = false -> Str.split sep s = [s].
Proof. intros H. unfold Str.split. now rewrite (split_from_no_sep sep EmptyString s H). Qed.

Lemma digits_some (a : Z) (s : string) : Str.digits (Some a) s <> None.
Proof.
  revert a. induction s as [|c s IH]; intros a; [discriminate|].
  cbn [Str.digits]. destruct (Str.digit c); [apply IH | discriminate].
Qed.

Lemma parseInt10_unsigned (seg : string) :
  Str.parseInt10 (Some seg) = NaN
  <-> Str.digits None (unsigned (Str.trim_start seg)) = None.
Proof.
  unfold Str.parseInt10, unsigned. cbn [Str.ToString].
  destruct (Str.trim_start seg) as [|c s'].
  - cbn. tauto.
  - destruct (N.eqb (Str.code c) 45); cbn [orb].
    + destruct (Str.digits None s'); split; intros H; try reflexivity; discriminate H.
    + destruct (N.eqb (Str.code c) 43);
        match goal with |- context [Str.digits None ?b] => destruct (Str.digits None b) end;
        split; intros H; try reflexivity; discriminate H.
Qed.

(** [parseInt] rejects a segment exactly when no digit starts its
    number. *)
Lemma parseInt10_rejects (seg : string) :
  Str.parseInt10 (Some seg) = NaN <-> starts_with_digit seg = false.
Proof.
  rewrite parseInt10_unsigned. unfold starts_with_digit.
  destruct (unsigned (Str.trim_start seg)) as [|c s]; [tauto|].
  cbn [Str.digits]. destruct (Str.digit c) as [d|]; [|tauto].
  split; [|discriminate]. intros H. now apply digits_some in H.
Qed.

Lemma or_zero_not_NaN (a : number) : Num.is_NaN (a || of_Z 0)%num = false.
Proof.
  unfold Num.or. destruct a as [q| | |]; try reflexivity.
  cbn [Num.truthy]. destruct (negb (Num.Qis0 q)); reflexivity.
Qed.

(* ------------------------------------------------------------------ *)
(** ** The functions on the default rows *)

Example parseScore_padded : parseScore " -12–+7x" = mkGoals (of_Z (-12)) (of_Z 7).
Proof. reflexivity. Qed.

Example parseScore_three_parts : parseScore "1–2–3" = mkGoals (of_Z 1) (of_Z 2).
Proof. reflexivity. Qed.

Example teamGoals_default :
  teamGoals defaultData
  = [ mkRate "Brighton" (Fin 3); mkRate "Manchester Utd" (Fin (3 # 2));
      mkRate "Liverpool" (Fin (3 # 2)); mkRate "Newcastle Utd" (Fin 1);
      mkRate "Fulham" (Fin (1 # 2)); mkRate "Ipswich Town" (Fin 0);
      mkRate "Southampton" (Fin 0); mkRate "Everton" (Fin 0) ].
Proof. vm_compute. reflexivity. Qed.

Example matchOutcomes_default :
  counts (matchOutcomes defaultData) = [Fin 3; Fin 2; Fin 1]
  /\ percentages (matchOutcomes defaultData) = [Fin 50; Fin (100 # 3); Fin (50 # 3)]
  /\ total (matchOutcomes defaultData) = Fin 6.
Proof. vm_compute. repeat split; reflexivity. Qed.

Example timeseriesData_default_dates :
  map XgPoint.date (timeseriesData IsoDate.getTime (rev defaultData) EmptyString)
  = map Date defaultData.
Proof. vm_compute. reflexivity. Qed.

Example timeseriesData_default_Liverpool :
  map (fun p => (XgPoint.xG p, XgPoint.xGA p, XgPoint.opponent p))
      (timeseriesData IsoDate.getTime defaultData "Liverpool")
  = [ (Fin (13 # 5), Fin (1 # 2), "Ipswich Town");
      (Fin (6 # 5), Fin (9 # 5), "Manchester Utd") ].
Proof. vm_compute. reflexivity. Qed.

Example ppg_default_Fulham :
  map (fun p => (PPGDataPoint.ppg p, PPGDataPoint.points p, PPGDataPoint.result p))
      (compareTeam (ppgTimeseriesData IsoDate.getTime defaultData "Manchester Utd" "Fulham"))
  = [ (Fin 0, Fin 0, "Loss"); (Fin (1 # 2), Fin 1, "Draw") ].
Proof. vm_compute. reflexivity. Qed.

(* ================================================================== *)
(** * The properties of the specification *)

(** C1, as the code has it.  On a dataset of safe size the goal
    accumulators of [teamGoals], one per team, add up to the total of the
    goals of the dataset, parsed home goals plus parsed away goals over all
    matches: every goal is credited to one team, once, so the total is met
    once and not twice.  When moreover the matches of every team divide its
    goals, so that every rate is a whole number and nothing is rounded, the
    sum over the output of rate times matches played is that same total. *)
Theorem rateTimesMatches_total (data : list MatchData) :
  safe_size data ->
  accumulatedGoals data = totalGoals data
  /\ (whole_rates data -> rateTimesMatches data = totalGoals data).
Proof.
  intros [Hs _]. split; [now apply accumulatedGoals_total|]. intros Hw.
  unfold rateTimesMatches.
  rewrite (totalGoals_int data Hs), <- (sum_goalsOf data (first_seen (mentions data))).
  - apply sumN_perm_of_Z. rewrite map_map.
    destruct (teamGoals_stable_sort data Hs) as (Hperm & _ & _).
    apply (Permutation_map
             (fun r => (goalsPerMatch r * matchesPlayedOf data (team r))%num)) in Hperm.
    rewrite map_map in Hperm. revert Hperm.
    match goal with |- Permutation ?a _ -> Permutation ?b _ => replace b with a; [auto|] end.
    apply map_ext_in. intros t Ht. cbn [rate_spec goalsPerMatch team].
    rewrite (matchesPlayedOf_playedOf data t Hs).
    destruct (Hw t Ht) as [k Hk]. rewrite Hk.
    apply playedOf_pos in Ht.
    rewrite div_whole_of_Z by lia. apply mul_of_Z.
  - apply first_seen_NoDup.
  - intros t Ht. now apply first_seen_In.
Qed.

(** The single match A 2–1 B is of safe size and its rates are whole. *)
Lemma rateTimesMatches_total_fixture :
  accumulatedGoals [fixture_AB] = totalGoals [fixture_AB]
  /\ rateTimesMatches [fixture_AB] = totalGoals [fixture_AB].
Proof.
  assert (Hs : safe_size [fixture_AB]).
  { split; [repeat constructor | vm_compute; reflexivity]. }
  destruct (rateTimesMatches_total [fixture_AB] Hs) as [Ha Hr].
  split; [exact Ha|]. apply Hr.
  intros t Ht. vm_compute in Ht.
  destruct Ht as [<- | [<- | []]]; [exists 2 | exists 1]; vm_compute; reflexivity.
Defined.

(** For the single match A 2–1 B the sum of rate times matches played is
    3, whereas twice the total of the goals is 6. *)
Lemma rateTimesMatches_not_twice :
  rateTimesMatches [fixture_AB] = of_Z 3
  /\ (of_Z 2 * totalGoals [fixture_AB])%num = of_Z 6
  /\ rateTimesMatches [fixture_AB] <> (of_Z 2 * totalGoals [fixture_AB])%num.
Proof.
  assert (H1 : rateTimesMatches [fixture_AB] = of_Z 3) by (vm_compute; reflexivity).
  assert (H2 : (of_Z 2 * totalGoals [fixture_AB])%num = of_Z 6) by (vm_compute; reflexivity).
  repeat split; try assumption. rewrite H1, H2. discriminate.
Qed.

(** C2.  On the empty sequence [matchOutcomes] has no fallback: the three
    percentages are NaN, the quotient 0/0 carried through the
    multiplication.  The empty sequence is a dataset the component does
    hold: an upload whose lines after the header are all incomplete passes
    the check on the number of lines and leaves it as the data. *)
Theorem matchOutcomes_empty_NaN :
  percentages (matchOutcomes []) = [NaN; NaN; NaN]
  /\ ~ Forall (fun p => Num.is_NaN p = false) (percentages (matchOutcomes []))
  /\ forall st : Upload,
       data (handleFileUpload
               (Some (mkFile "season.csv" ("Wk,Home,Away" ++ newline)%string)) st)
       = [].
Proof.
  split; [reflexivity|]. split.
  - intros H. inversion H as [|? ? H0 _]. discriminate H0.
  - intros st. vm_compute. reflexivity.
Qed.

(** C3.  With a team selected, every match in which it is the away side
    (and not the home side as well, the data model assuming the two sides
    differ) yields a point with the away expected goals as [xG], the home
    expected goals as [xGA] and the home team as opponent.  For home "A",
    away "B", expected goals 1.5 and 0.8 and selected team "B" the series
    is the single point with [xG] 0.8, [xGA] 1.5 and opponent "A". *)
Theorem timeseriesData_away_swap (Date_getTime : string -> option Z) :
  (forall (data : list MatchData) (sel : string) (m : MatchData),
      sel <> EmptyString -> In m data -> Away m = sel -> Home m <> sel ->
      In (away_view m) (timeseriesData Date_getTime data sel))
  /\ timeseriesData Date_getTime [fixture_AB] "B"
     = [ {| XgPoint.date := "2024-08-17";
            XgPoint.xG := Fin (4 # 5);
            XgPoint.xGA := Fin (3 # 2);
            XgPoint.team := "B";
            XgPoint.match_ := "A vs B";
            XgPoint.opponent := "A" |} ].
Proof.
  split; [|reflexivity].
  intros data sel m Hsel Hm Ha Hh.
  rewrite <- (xg_point_away sel m Hsel Ha Hh).
  apply timeseriesData_In; try assumption.
  unfold plays. rewrite Ha, String.eqb_refl. apply orb_true_r.
Qed.

(** The swap on the fixture A against B, seen from B. *)
Lemma timeseriesData_away_fixture :
  In (away_view fixture_AB) (timeseriesData IsoDate.getTime [fixture_AB] "B").
Proof.
  apply (proj1 (timeseriesData_away_swap IsoDate.getTime)).
  - discriminate.
  - left. reflexivity.
  - reflexivity.
  - discriminate.
Defined.

(** C4.  For a team name, the primary series of [ppgTimeseriesData] runs
    over the matches of that team, in ascending order of date (a stable
    sort, when the dates parse), and is the left fold of the running points
    (3 for a win, 1 for a draw, 0 for a loss in the role the team has) and of
    the running match count, emitting their quotient after each match.
    Results Win, Draw, Loss in that order give the quotients 3, 2, 4/3.  The
    series of a comparison team is the same fold for that team. *)
Theorem ppg_left_fold (Date_getTime : string -> option Z) (data : list MatchData)
  (team cmp : string) :
  team <> EmptyString ->
  ppg_fold_of Date_getTime data team
    (primaryTeam (ppgTimeseriesData Date_getTime data team cmp))
  /\ (cmp <> EmptyString ->
      ppg_fold_of Date_getTime data cmp
        (compareTeam (ppgTimeseriesData Date_getTime data team cmp))).
Proof.
  intros Hteam. split.
  - rewrite (primaryTeam_series Date_getTime data team cmp Hteam). apply ppg_scan_fold_of.
  - intros Hcmp. rewrite (compareTeam_series Date_getTime data team cmp Hteam Hcmp).
    apply ppg_scan_fold_of.
Qed.

(** Team "A" wins, draws and loses, the rows out of order in the input. *)
Lemma ppg_win_draw_loss_fixture :
  map PPGDataPoint.ppg
      (primaryTeam (ppgTimeseriesData IsoDate.getTime fixture_WDL "A" EmptyString))
  = [of_Z 3; of_Z 2; Fin (4 # 3)].
Proof.
  destruct (ppg_left_fold IsoDate.getTime fixture_WDL "A" EmptyString)
    as [(fixtures & _ & _ & _ & _ & _ & H) _].
  - discriminate.
  - apply H. vm_compute. reflexivity.
Defined.

(** C5.  The three counts of [matchOutcomes] add up to its [total], which
    is the number of matches; on the empty sequence they are all zero. *)
Theorem matchOutcomes_counts_total (data : list MatchData) :
  (exists hw aw dr,
      counts (matchOutcomes data) = [hw; aw; dr]
      /\ values (matchOutcomes data) = [hw; aw; dr]
      /\ (hw + aw + dr)%num = total (matchOutcomes data))
  /\ total (matchOutcomes data) = of_nat (List.length data)
  /\ counts (matchOutcomes []) = [of_Z 0; of_Z 0; of_Z 0]
  /\ total (matchOutcomes []) = of_Z 0.
Proof.
  destruct (matchOutcomes_int data) as (h & a & d & _ & _ & _ & Hlen & ->).
  cbn [counts values total]. split; [|split; [|split]].
  - exists (of_Z h), (of_Z a), (of_Z d). now rewrite !add_of_Z.
  - unfold of_nat. now rewrite Hlen.
  - reflexivity.
  - reflexivity.
Qed.

(** C6.  In both series of [ppgTimeseriesData] the cumulative points never
    decrease from an element to a later one, and every points-per-game
    value lies between 0 and 3. *)
Theorem ppg_monotone_bounded (Date_getTime : string -> option Z) (data : list MatchData)
  (sel cmp : string) :
  StronglySorted points_le (primaryTeam (ppgTimeseriesData Date_getTime data sel cmp))
  /\ Forall ppg_in_range (primaryTeam (ppgTimeseriesData Date_getTime data sel cmp))
  /\ StronglySorted points_le (compareTeam (ppgTimeseriesData Date_getTime data sel cmp))
  /\ Forall ppg_in_range (compareTeam (ppgTimeseriesData Date_getTime data sel cmp)).
Proof.
  destruct (ppgTimeseriesData_cases Date_getTime data sel cmp) as [[-> | ->] [-> | ->]];
    repeat split;
    try apply ppg_scan_monotone; try (apply ppg_scan_range; lia); constructor.
Qed.

(** C7.  [parseScore] is defined on every string, and neither side of its
    result is ever NaN.  "2–1" gives 2 and 1.  A string without the
    separator has one segment only, and its away side is 0.  The segments
    that [parseInt] rejects are those that, after leading white space and
    an optional sign, do not go on with a decimal digit; the side of such a
    segment is 0.  So the empty string and "abc–def" give 0 and 0, and "3"
    gives 3 and 0. *)
Theorem parseScore_total :
  parseScore "2–1" = mkGoals (of_Z 2) (of_Z 1)
  /\ (forall s, Num.is_NaN (homeGoals (parseScore s)) = false
                /\ Num.is_NaN (awayGoals (parseScore s)) = false)
  /\ (forall s, occurs en_dash s = false ->
                Str.split en_dash s = [s] /\ awayGoals (parseScore s) = of_Z 0)
  /\ (forall seg, Str.parseInt10 (Some seg) = NaN <-> starts_with_digit seg = false)
  /\ (forall s seg, nth_error (Str.split en_dash s) 0 = Some seg ->
                    starts_with_digit seg = false -> homeGoals (parseScore s) = of_Z 0)
  /\ (forall s seg, nth_error (Str.split en_dash s) 1 = Some seg ->
                    starts_with_digit seg = false -> awayGoals (parseScore s) = of_Z 0)
  /\ parseScore EmptyString = mkGoals (of_Z 0) (of_Z 0)
  /\ parseScore "abc–def" = mkGoals (of_Z 0) (of_Z 0)
  /\ parseScore "3" = mkGoals (of_Z 3) (of_Z 0).
Proof.
  split; [reflexivity|]. split; [|split; [|split; [|split; [|split]]]].
  - intros s. unfold parseScore. cbn [homeGoals awayGoals]. split; apply or_zero_not_NaN.
  - intros s H. pose proof (split_no_sep en_dash s H) as E. split; [exact E|].
    unfold parseScore. cbn [awayGoals]. rewrite E. reflexivity.
  - exact parseInt10_rejects.
  - intros s seg E H. unfold parseScore. cbn [homeGoals].
    now rewrite E, (proj2 (parseInt10_rejects seg) H).
  - intros s seg E H. unfold parseScore. cbn [awayGoals].
    now rewrite E, (proj2 (parseInt10_rejects seg) H).
  - repeat split; reflexivity.
Qed.

(** Both fallbacks at work: a home segment without a digit, a missing away
    segment. *)
Lemma parseScore_fallback_fixture :
  homeGoals (parseScore "abc–def") = of_Z 0 /\ awayGoals (parseScore "3") = of_Z 0.
Proof.
  destruct parseScore_total as (_ & _ & Hmissing & _ & Hhome & _).
  split.
  - apply (Hhome "abc–def" "abc"); reflexivity.
  - apply (Hmissing "3"). reflexivity.
Defined.

(** C8.  With no team selected, [timeseriesData] holds exactly the home
    view of every match, one point per match; when the dates parse it is
    in ascending order of date, points of equal date keeping their input
    order. *)
Theorem timeseriesData_home_default (Date_getTime : string -> option Z)
  (data : list MatchData) :
  Permutation (map home_view data) (timeseriesData Date_getTime data EmptyString)
  /\ List.length (timeseriesData Date_getTime data EmptyString) = List.length data
  /\ (Forall (fun m => valid_date Date_getTime (Date m)) data ->
      stable_sort_of
        (fun a b => date_le Date_getTime (XgPoint.date a) (XgPoint.date b))
        (fun a b => same_date Date_getTime (XgPoint.date a) (XgPoint.date b))
        (map home_view data) (timeseriesData Date_getTime data EmptyString)).
Proof.
  rewrite timeseriesData_unselected. split; [apply sort_perm|]. split.
  - now rewrite sort_length, length_map.
  - intros Hv. apply sort_by_date. apply Forall_map. exact Hv.
Qed.

(** The unselected series of a dataset with two matches on one date. *)
Lemma timeseriesData_home_fixture :
  stable_sort_of
    (fun a b => date_le IsoDate.getTime (XgPoint.date a) (XgPoint.date b))
    (fun a b => same_date IsoDate.getTime (XgPoint.date a) (XgPoint.date b))
    (map home_view fixture_WDL) (timeseriesData IsoDate.getTime fixture_WDL EmptyString).
Proof.
  apply (timeseriesData_home_default IsoDate.getTime fixture_WDL).
  repeat constructor; unfold valid_date; vm_compute; discriminate.
Defined.

(** C9.  [teamGoals] has one entry per team named in some match.  On a
    dataset of safe size each entry carries the goals of its team over the
    matches it played, the entries are in descending order of rate, and
    entries of equal rate keep the order in which the rows first mention
    their teams; two entries of different rate are further apart than
    binary64 rounds, so that the program sees the same ties and the same
    order. *)
Theorem teamGoals_rates_sorted_stable (data : list MatchData) :
  NoDup (map team (teamGoals data))
  /\ (forall t, In t (map team (teamGoals data))
                <-> exists m, In m data /\ (Home m = t \/ Away m = t))
  /\ (safe_size data ->
      stable_sort_of rate_ge same_rate
        (map (rate_spec data) (first_seen (mentions data))) (teamGoals data)
      /\ (forall r, In r (teamGoals data) ->
            goalsPerMatch r
            = (of_Z (goalsOf data (team r)) / of_Z (playedOf data (team r)))%num)
      /\ (forall r1 r2, In r1 (teamGoals data) -> In r2 (teamGoals data) ->
            same_rate r1 r2 = false ->
            told_apart (goalsPerMatch r1) (goalsPerMatch r2))).
Proof.
  pose proof (teamGoals_teams data) as Hteams.
  split; [|split].
  - apply (Permutation_NoDup Hteams), first_seen_NoDup.
  - intros t. rewrite <- mentions_In, <- (first_seen_In t (mentions data)).
    split; apply Permutation_in; [now symmetry | exact Hteams].
  - intros [Hw Hsafe]. pose proof (teamGoals_stable_sort data Hw) as Hs.
    split; [exact Hs|]. destruct Hs as (Hperm & _ & _).
    assert (Hin : forall r, In r (teamGoals data) ->
                    exists t, In t (first_seen (mentions data)) /\ r = rate_spec data t).
    { intros r Hr. apply (Permutation_in _ (Permutation_sym Hperm)) in Hr.
      apply in_map_iff in Hr. destruct Hr as (t & <- & Ht). eauto. }
    split.
    + intros r Hr. destruct (Hin r Hr) as (t & _ & ->). reflexivity.
    + intros r1 r2 H1 H2 Hdiff.
      destruct (Hin r1 H1) as (s & Hs & ->). destruct (Hin r2 H2) as (t & Ht & ->).
      now apply rates_told_apart.
Qed.

(** The default rows are of safe size; two of their teams share the rate
    3/2 and three the rate 0. *)
Lemma teamGoals_rates_default :
  stable_sort_of rate_ge same_rate
    (map (rate_spec defaultData) (first_seen (mentions defaultData))) (teamGoals defaultData).
Proof.
  apply (teamGoals_rates_sorted_stable defaultData).
  split; [repeat constructor | vm_compute; reflexivity].
Defined.

(** A score at 2^53, where binary64 stops telling integers apart, is not of
    safe size. *)
Example safe_size_below_2_53 :
  ~ safe_size [fixture "2024-08-17" "B" "9007199254740992–9007199254740993" "A"].
Proof. intros [_ H]. vm_compute in H. discriminate H. Qed.


(** C10.  Without a selected team both series of [ppgTimeseriesData] are
    empty, whatever the matches and the comparison team. *)
Theorem ppg_unselected_empty (Date_getTime : string -> option Z) (data : list MatchData)
  (cmp : string) :
  ppgTimeseriesData Date_getTime data EmptyString cmp = mkPPG [] [].
Proof. reflexivity. Qed.

(* ================================================================== *)
(** * Further properties of the component *)

(** ** Sets *)

Section SetFacts.

Context {A : Type} (same : A -> A -> bool).

Hypothesis same_refl : forall x, same x x = true.
Hypothesis same_sym : forall x y, same x y = same y x.
Hypothesis same_trans : forall x y z, same x y = true -> same y z = true -> same x z = true.

Lemma of_list_snoc (l : list A) (x : A) :
  JsSet.of_list same (l ++ [x]) = JsSet.add same (JsSet.of_list same l) x.
Proof. unfold JsSet.of_list. now rewrite fold_left_app. Qed.

Lemma of_list_In (l : list A) (x : A) : In x (JsSet.of_list same l) -> In x l.
Proof.
  induction l as [|y l IH] using rev_ind; [contradiction|].
  rewrite of_list_snoc, in_app_iff. unfold JsSet.add.
  destruct (JsSet.has same (JsSet.of_list same l) y); [now left; apply IH|].
  rewrite in_app_iff. intros [H | H]; [left; now apply IH | now right].
Qed.

Lemma has_spec (s : list A) (x : A) :
  JsSet.has same s x = true <-> exists y, In y s /\ same x y = true.
Proof. unfold JsSet.has. apply existsb_exists. Qed.

Lemma of_list_has (l : list A) (x : A) :
  In x l -> JsSet.has same (JsSet.of_list same l) x = true.
Proof.
  induction l as [|y l IH] using rev_ind; [contradiction|].
  rewrite of_list_snoc, in_app_iff. unfold JsSet.add. intros [H | [-> | []]].
  - specialize (IH H). destruct (JsSet.has same (JsSet.of_list same l) y); [exact IH|].
    apply has_spec in IH. destruct IH as (z & Hz & E). apply has_spec.
    exists z. split; [apply in_or_app; now left | exact E].
  - destruct (JsSet.has same (JsSet.of_list same l) x) eqn:E; [exact E|].
    apply has_spec. exists x. split; [apply in_or_app; right; now left | apply same_refl].
Qed.

(** No two elements of a set are the same. *)
Lemma of_list_once (l : list A) (z : A) :
  (List.length (filter (same z) (JsSet.of_list same l)) <= 1)%nat.
Proof.
  induction l as [|y l IH] using rev_ind; [cbn; lia|].
  rewrite of_list_snoc. unfold JsSet.add.
  destruct (JsSet.has same (JsSet.of_list same l) y) eqn:E; [exact IH|].
  rewrite filter_app, length_app. cbn [filter].
  destruct (same z y) eqn:Ezy; cbn [List.length]; [|lia].
  destruct (filter (same z) (JsSet.of_list same l)) as [|u r] eqn:F; [cbn; lia|].
  exfalso. assert (Hu : In u (filter (same z) (JsSet.of_list same l))) by (rewrite F; now left).
  apply filter_In in Hu. destruct Hu as [Hu Ezu].
  assert (JsSet.has same (JsSet.of_list same l) y = true); [|congruence].
  apply has_spec. exists u. split; [exact Hu|].
  apply same_trans with z; [now rewrite same_sym | exact Ezu].
Qed.

End SetFacts.

Lemma of_list_first_seen (l : list string) :
  JsSet.of_list String.eqb l = first_seen l.
Proof.
  induction l as [|x l IH] using rev_ind; [reflexivity|].
  rewrite of_list_snoc, IH, first_seen_snoc. unfold JsSet.add, JsSet.has.
  now rewrite existsb_first_seen.
Qed.

(** ** Teams *)

Lemma named_in_row (data : list MatchData) (t : string) :
  In t (map Home data ++ map Away data)
  <-> exists m, In m data /\ (Home m = t \/ Away m = t).
Proof.
  rewrite in_app_iff, !in_map_iff. split.
  - intros [(m & E & H) | (m & E & H)]; exists m; tauto.
  - intros (m & H & [E | E]); [left | right]; exists m; tauto.
Qed.

(** X1.  [teams] lists every team named in a row exactly once, in order of
    first occurrence among the home names followed by the away names, and
    holds the same teams as the output of [teamGoals]. *)
Theorem teams_distinct_complete (data : list MatchData) :
  teams data = first_seen (map Home data ++ map Away data)
  /\ NoDup (teams data)
  /\ (forall t, In t (teams data) <-> exists m, In m data /\ (Home m = t \/ Away m = t))
  /\ Permutation (teams data) (map team (teamGoals data)).
Proof.
  unfold teams. rewrite of_list_first_seen.
  split; [reflexivity|]. split; [apply first_seen_NoDup|].
  assert (Hin : forall t, In t (first_seen (map Home data ++ map Away data))
                          <-> exists m, In m data /\ (Home m = t \/ Away m = t)).
  { intros t. rewrite first_seen_In. apply named_in_row. }
  split; [exact Hin|].
  rewrite <- teamGoals_teams. apply NoDup_Permutation; try apply first_seen_NoDup.
  intros t. rewrite Hin, first_seen_In. symmetry. apply mentions_In.
Qed.

(** ** Order of the numbers that are not NaN *)

Lemma Qeq_bool_sym (x y : Q) : Qeq_bool x y = Qeq_bool y x.
Proof. apply eq_true_iff_eq. rewrite !Qeq_bool_iff. split; intros H; now symmetry. Qed.

Lemma sameValueZero_refl (a : number) : sameValueZero a a = true.
Proof.
  destruct a as [x| | |]; try reflexivity. unfold sameValueZero. cbn [Num.strict_eq].
  apply orb_true_iff. left. apply Qeq_bool_iff. reflexivity.
Qed.

Lemma sameValueZero_sym (a b : number) : sameValueZero a b = sameValueZero b a.
Proof.
  destruct a as [x| | |], b as [y| | |]; try reflexivity.
  unfold sameValueZero. cbn [Num.strict_eq Num.is_NaN]. now rewrite Qeq_bool_sym.
Qed.

Lemma sameValueZero_trans (a b c : number) :
  sameValueZero a b = true -> sameValueZero b c = true -> sameValueZero a c = true.
Proof.
  destruct a as [x| | |], b as [y| | |], c as [z| | |]; try discriminate; try reflexivity.
  unfold sameValueZero. cbn [Num.strict_eq Num.is_NaN andb]. rewrite !orb_false_r.
  rewrite !Qeq_bool_iff. apply Qeq_trans.
Qed.

Lemma sameValueZero_strict (a b : number) :
  Num.is_NaN a = false -> sameValueZero a b = (a === b)%num.
Proof. intros H. unfold sameValueZero. rewrite H. apply orb_false_r. Qed.

Lemma strict_eq_refl (a : number) : Num.is_NaN a = false -> (a === a)%num = true.
Proof. intros H. rewrite <- sameValueZero_strict by exact H. apply sameValueZero_refl. Qed.

Lemma after_ascending (x y : number) :
  Num.is_NaN x = false -> Num.is_NaN y = false ->
  sort_after ascending x y = (y <? x)%num.
Proof.
  intros Hx Hy. unfold sort_after, ascending.
  destruct x as [a| | |], y as [b| | |]; try discriminate; try reflexivity.
  rewrite sub_Fin_pos. reflexivity.
Qed.

Lemma leb_of_not_lt (x y : number) :
  Num.is_NaN x = false -> Num.is_NaN y = false ->
  (y <? x)%num = false -> num_leb x y = true.
Proof.
  destruct x as [a| | |], y as [b| | |]; try discriminate; try reflexivity.
  intros _ _ H. apply leb_Fin. now apply Qltb_ge.
Qed.

Lemma leb_of_lt (x y : number) : (x <? y)%num = true -> num_leb x y = true.
Proof. intros H. unfold num_leb. now rewrite H. Qed.

Lemma leb_trans (x y z : number) :
  num_leb x y = true -> num_leb y z = true -> num_leb x z = true.
Proof.
  destruct x as [a| | |], y as [b| | |], z as [c| | |]; try discriminate; try reflexivity.
  rewrite !leb_Fin. apply Qle_trans.
Qed.

Lemma lt_of_leb_neq (x y : number) :
  num_leb x y = true -> (x === y)%num = false -> (x <? y)%num = true.
Proof. unfold num_leb. intros H E. rewrite E, orb_false_r in H. exact H. Qed.

Lemma lt_not_NaN (x y : number) :
  (x <? y)%num = true -> Num.is_NaN x = false /\ Num.is_NaN y = false.
Proof. destruct x, y; try discriminate; now split. Qed.

Lemma lt_not_eq (x y : number) : (x <? y)%num = true -> (x === y)%num = false.
Proof.
  destruct x as [a| | |], y as [b| | |]; try discriminate; try reflexivity.
  cbn [Num.ltb Num.strict_eq]. rewrite Qltb_lt. intros H.
  apply not_true_iff_false. rewrite Qeq_bool_iff. intros E. rewrite E in H.
  now apply Qlt_irrefl in H.
Qed.

Lemma strict_eq_flip (x y : number) : (x === y)%num = (y === x)%num.
Proof.
  destruct x as [a| | |], y as [b| | |]; try reflexivity. apply Qeq_bool_sym.
Qed.

(** ** Sorted weeks *)

Lemma sort_ascending (l : list number) :
  Forall not_NaN l ->
  stable_sort_of (fun a b => num_leb a b = true) sameValueZero l (sort ascending l).
Proof.
  apply sort_stable_sort_of.
  - intros x y Hx Hy. rewrite (after_ascending x y Hx Hy). apply leb_of_lt.
  - intros x y Hx Hy. rewrite (after_ascending x y Hx Hy). now apply leb_of_not_lt.
  - intros x y z _ _ _. apply leb_trans.
  - intros z x y Hx Hy Ezx Ezy. rewrite (after_ascending x y Hx Hy).
    assert (E : sameValueZero y x = true).
    { apply sameValueZero_trans with z; [now rewrite sameValueZero_sym | exact Ezx]. }
    rewrite (sameValueZero_strict y x Hy) in E.
    destruct (y <? x)%num eqn:L; [|reflexivity].
    apply lt_not_eq in L. congruence.
Qed.

Lemma sortedWeeks_In (ws : list number) (w : number) :
  In w (sortedWeeks ws) -> In w ws.
Proof. unfold sortedWeeks. rewrite sort_In. apply of_list_In. Qed.

Lemma sortedWeeks_has (ws : list number) (w : number) :
  In w ws -> exists w', In w' (sortedWeeks ws) /\ sameValueZero w w' = true.
Proof.
  intros H. apply (of_list_has sameValueZero sameValueZero_refl) in H.
  apply has_spec in H. destruct H as (w' & H & E). exists w'. split; [|exact E].
  unfold sortedWeeks. now apply sort_In.
Qed.

Lemma strictly_sorted (l : list number) :
  Forall not_NaN l ->
  StronglySorted (fun a b => num_leb a b = true) l ->
  (forall z, (List.length (filter (sameValueZero z) l) <= 1)%nat) ->
  StronglySorted week_lt l.
Proof.
  intros Hn Hs. induction Hs as [|a l Hs IH Ha]; intros Hone; [constructor|].
  inversion Hn as [|? ? Hna Hnl]; subst. constructor.
  - apply IH; [exact Hnl|]. intros z. specialize (Hone z). cbn [filter] in Hone.
    destruct (sameValueZero z a); cbn [List.length] in Hone; lia.
  - rewrite Forall_forall in Ha |- *. intros b Hb. apply lt_of_leb_neq; [now apply Ha|].
    destruct (a === b)%num eqn:E; [|reflexivity]. exfalso.
    specialize (Hone a). cbn [filter] in Hone. rewrite sameValueZero_refl in Hone.
    assert (Hin : In b (filter (sameValueZero a) l)).
    { apply filter_In. split; [exact Hb|]. now rewrite (sameValueZero_strict a b Hna). }
    destruct (filter (sameValueZero a) l); [contradiction | cbn [List.length] in Hone; lia].
Qed.

Lemma sortedWeeks_strict (ws : list number) :
  Forall not_NaN ws -> StronglySorted week_lt (sortedWeeks ws).
Proof.
  intros Hn. unfold sortedWeeks.
  assert (Hs : Forall not_NaN (JsSet.of_list sameValueZero ws)).
  { rewrite Forall_forall in *. intros w Hw. apply Hn. now apply of_list_In in Hw. }
  destruct (sort_ascending _ Hs) as (Hperm & Hsorted & Hstable).
  apply strictly_sorted.
  - apply (Permutation_Forall Hperm). exact Hs.
  - exact Hsorted.
  - intros z. rewrite Hstable.
    apply (of_list_once sameValueZero sameValueZero_sym sameValueZero_trans).
Qed.

Lemma weeks_not_NaN (data : list MatchData) :
  no_NaN_week data -> Forall not_NaN (map Wk data).
Proof. intros H. apply Forall_map. exact H. Qed.

Lemma no_NaN_week_filter (data : list MatchData) (f : MatchData -> bool) :
  no_NaN_week data -> no_NaN_week (filter f data).
Proof.
  unfold no_NaN_week. rewrite !Forall_forall. intros H m Hm.
  apply H. now apply filter_In in Hm.
Qed.

(** X2.  When no week is NaN, [availableWeeks] is strictly ascending, so
    free of duplicates; each of its elements is the week of a row and the
    week of every row is in it. *)
Theorem availableWeeks_ascending (data : list MatchData) :
  no_NaN_week data ->
  StronglySorted week_lt (availableWeeks data)
  /\ (forall w, In w (availableWeeks data) -> exists m, In m data /\ Wk m = w)
  /\ (forall m, In m data ->
        exists w, In w (availableWeeks data) /\ (Wk m === w)%num = true).
Proof.
  intros Hn. unfold availableWeeks. split; [|split].
  - apply sortedWeeks_strict. now apply weeks_not_NaN.
  - intros w Hw. apply sortedWeeks_In, in_map_iff in Hw.
    destruct Hw as (m & E & Hm). eauto.
  - intros m Hm. destruct (sortedWeeks_has (map Wk data) (Wk m)) as (w & Hw & E).
    + now apply in_map.
    + exists w. split; [exact Hw|]. rewrite <- sameValueZero_strict; [exact E|].
      unfold no_NaN_week in Hn. rewrite Forall_forall in Hn. now apply Hn.
Qed.

Example availableWeeks_default : no_NaN_week defaultData /\ availableWeeks defaultData = [of_Z 1; of_Z 2].
Proof. split; [repeat constructor | vm_compute; reflexivity]. Qed.

(** indexOf *)

Lemma indexOf_from_found (l : list number) (x : number) (i : Z) :
  (exists y, In y l /\ (y === x)%num = true) ->
  exists k, indexOf_from l x i = i + Z.of_nat k
            /\ exists y, nth_error l k = Some y /\ (y === x)%num = true.
Proof.
  revert i. induction l as [|z l IH]; intros i (y & Hy & E); [contradiction|].
  cbn [indexOf_from]. destruct (z === x)%num eqn:Ez.
  - exists 0%nat. split; [lia|]. exists z. now split.
  - destruct Hy as [-> | Hy]; [congruence|].
    destruct (IH (i + 1) (ex_intro _ y (conj Hy E))) as (k & Hk & Hn).
    exists (S k). split; [lia | exact Hn].
Qed.

Lemma indexOf_from_range (l : list number) (x : number) (i : Z) :
  indexOf_from l x i = -1 \/ i <= indexOf_from l x i < i + Z.of_nat (List.length l).
Proof.
  revert i. induction l as [|z l IH]; intros i; [now left|].
  cbn [indexOf_from List.length]. destruct (z === x)%num; [right; lia|].
  destruct (IH (i + 1)) as [H | H]; [now left | right; lia].
Qed.

Lemma indexOf_range (l : list number) (x : number) :
  -1 <= indexOf l x < Z.of_nat (List.length l).
Proof.
  unfold indexOf. destruct (indexOf_from_range l x 0) as [H | H]; lia.
Qed.

Lemma at_index_In {A : Type} (l : list A) (i : Z) :
  0 <= i < Z.of_nat (List.length l) -> exists w, at_index l i = Some w /\ In w l.
Proof.
  intros H. unfold at_index. destruct (Z.ltb_spec i 0); [lia|].
  destruct (nth_error l (Z.to_nat i)) as [w|] eqn:E.
  - exists w. split; [reflexivity | now apply nth_error_In in E].
  - apply nth_error_None in E. lia.
Qed.

(** X4.  On a list of weeks that is not empty, the "next" and "previous"
    steps always yield an element of the list, whatever the active week is,
    in the list or not. *)
Theorem week_step_lands_on_week (weeks : list number) (activeWeek : number) :
  weeks <> [] ->
  (exists w, nextWeek weeks activeWeek = Some w /\ In w weeks)
  /\ (exists w, previousWeek weeks activeWeek = Some w /\ In w weeks).
Proof.
  intros Hne. assert (Hlen : 0 < Z.of_nat (List.length weeks)) by (destruct weeks; [congruence | cbn [List.length]; lia]).
  pose proof (indexOf_range weeks activeWeek) as Hr.
  split; [unfold nextWeek | unfold previousWeek]; apply at_index_In.
  - destruct (Z.geb_spec (indexOf weeks activeWeek) (Z.of_nat (List.length weeks) - 1)); lia.
  - destruct (Z.leb_spec (indexOf weeks activeWeek) 0); lia.
Qed.

Lemma week_step_fixture :
  (exists w, nextWeek [of_Z 1; of_Z 2; of_Z 5] (of_Z 3) = Some w /\ In w [of_Z 1; of_Z 2; of_Z 5])
  /\ (exists w, previousWeek [of_Z 1; of_Z 2; of_Z 5] (of_Z 3) = Some w
                /\ In w [of_Z 1; of_Z 2; of_Z 5]).
Proof. apply week_step_lands_on_week. discriminate. Defined.

(** In a strictly ascending list of numbers every element sits at the
    index [indexOf] reports. *)
Lemma indexOf_from_nth (l : list number) (k : nat) (w : number) (i : Z) :
  StronglySorted week_lt l -> Forall not_NaN l -> nth_error l k = Some w ->
  indexOf_from l w i = i + Z.of_nat k.
Proof.
  intros Hs. revert k i. induction Hs as [|a l Hs IH Ha]; intros k i Hn Hk.
  - destruct k; discriminate.
  - inversion Hn as [|? ? Hna Hnl]; subst. cbn [indexOf_from].
    destruct k as [|k]; cbn [nth_error] in Hk.
    + injection Hk as ->. rewrite (strict_eq_refl w Hna). lia.
    + assert (Hin : In w l) by (now apply nth_error_In in Hk).
      rewrite Forall_forall in Ha. rewrite (lt_not_eq a w (Ha w Hin)).
      rewrite (IH k (i + 1) Hnl Hk). lia.
Qed.

Lemma indexOf_nth (l : list number) (k : nat) (w : number) :
  StronglySorted week_lt l -> Forall not_NaN l -> nth_error l k = Some w ->
  indexOf l w = Z.of_nat k.
Proof. intros Hs Hn Hk. unfold indexOf. now rewrite (indexOf_from_nth l k w 0 Hs Hn Hk). Qed.

Lemma at_index_nth {A : Type} (l : list A) (k : nat) :
  at_index l (Z.of_nat k) = nth_error l k.
Proof.
  unfold at_index. destruct (Z.ltb_spec (Z.of_nat k) 0); [lia|]. now rewrite Nat2Z.id.
Qed.

Lemma at_index_zero {A : Type} (l : list A) : at_index l 0 = nth_error l 0.
Proof. reflexivity. Qed.

Lemma nth_error_some {A : Type} (l : list A) (k : nat) :
  (k < List.length l)%nat -> exists w, nth_error l k = Some w.
Proof.
  intros H. destruct (nth_error l k) as [w|] eqn:E; [eauto|].
  apply nth_error_None in E. lia.
Qed.

Lemma week_steps_inverse (weeks : list number) (w : number) :
  StronglySorted week_lt weeks -> Forall not_NaN weeks -> In w weeks ->
  (exists w', nextWeek weeks w = Some w' /\ previousWeek weeks w' = Some w)
  /\ (exists w', previousWeek weeks w = Some w' /\ nextWeek weeks w' = Some w).
Proof.
  intros Hs Hn Hw. apply In_nth_error in Hw. destruct Hw as [k Hk].
  assert (Hlt : (k < List.length weeks)%nat) by (apply nth_error_Some; congruence).
  pose proof (indexOf_nth weeks k w Hs Hn Hk) as Ik.
  split.
  - unfold nextWeek at 1. rewrite Ik.
    destruct (Z.geb_spec (Z.of_nat k) (Z.of_nat (List.length weeks) - 1)) as [Hge | Hge].
    + destruct (nth_error_some weeks 0) as [w' Hw']; [lia|].
      exists w'. rewrite at_index_zero. split; [exact Hw'|].
      unfold previousWeek. rewrite (indexOf_nth weeks 0 w' Hs Hn Hw').
      cbn [Z.of_nat Z.leb Z.compare].
      replace (Z.of_nat (List.length weeks) - 1) with (Z.of_nat k) by lia.
      now rewrite at_index_nth.
    + destruct (nth_error_some weeks (S k)) as [w' Hw']; [lia|].
      exists w'. replace (Z.of_nat k + 1) with (Z.of_nat (S k)) by lia.
      rewrite at_index_nth. split; [exact Hw'|].
      unfold previousWeek. rewrite (indexOf_nth weeks (S k) w' Hs Hn Hw').
      destruct (Z.leb_spec (Z.of_nat (S k)) 0); [lia|].
      replace (Z.of_nat (S k) - 1) with (Z.of_nat k) by lia. now rewrite at_index_nth.
  - unfold previousWeek at 1. rewrite Ik.
    destruct (Z.leb_spec (Z.of_nat k) 0) as [Hle | Hle].
    + assert (k = 0)%nat by lia. subst k.
      destruct (nth_error_some weeks (List.length weeks - 1)) as [w' Hw']; [lia|].
      exists w'.
      replace (Z.of_nat (List.length weeks) - 1) with (Z.of_nat (List.length weeks - 1)) by lia.
      rewrite at_index_nth. split; [exact Hw'|].
      unfold nextWeek. rewrite (indexOf_nth weeks _ w' Hs Hn Hw').
      destruct (Z.geb_spec (Z.of_nat (List.length weeks - 1)) (Z.of_nat (List.length weeks) - 1));
        [|lia].
      now rewrite at_index_zero.
    + destruct k as [|k]; [lia|].
      destruct (nth_error_some weeks k) as [w' Hw']; [lia|].
      exists w'. replace (Z.of_nat (S k) - 1) with (Z.of_nat k) by lia.
      rewrite at_index_nth. split; [exact Hw'|].
      unfold nextWeek. rewrite (indexOf_nth weeks k w' Hs Hn Hw').
      destruct (Z.geb_spec (Z.of_nat k) (Z.of_nat (List.length weeks) - 1)); [lia|].
      replace (Z.of_nat k + 1) with (Z.of_nat (S k)) by lia. now rewrite at_index_nth.
Qed.

Lemma weeksWithSelectedTeam_strict (data : list MatchData) (sel : string) :
  no_NaN_week data ->
  StronglySorted week_lt (weeksWithSelectedTeam data sel)
  /\ Forall not_NaN (weeksWithSelectedTeam data sel).
Proof.
  intros Hn. unfold weeksWithSelectedTeam.
  destruct (Str.truthy sel); cbn [negb]; [|split; constructor].
  assert (Hf : Forall not_NaN (map Wk (filter (plays sel) data))).
  { apply weeks_not_NaN. now apply no_NaN_week_filter. }
  split; [now apply sortedWeeks_strict|].
  rewrite Forall_forall in *. intros w Hw. apply Hf. now apply sortedWeeks_In.
Qed.

(** X5.  On the weeks of the selected team, stepping to the next week and
    then to the previous one comes back to the week one started from, and
    the other way round; the list wraps at both ends. *)
Theorem team_week_steps_inverse (data : list MatchData) (sel : string) (w : number) :
  no_NaN_week data -> In w (weeksWithSelectedTeam data sel) ->
  (exists w', nextWeek (weeksWithSelectedTeam data sel) w = Some w'
              /\ previousWeek (weeksWithSelectedTeam data sel) w' = Some w)
  /\ (exists w', previousWeek (weeksWithSelectedTeam data sel) w = Some w'
                 /\ nextWeek (weeksWithSelectedTeam data sel) w' = Some w).
Proof.
  intros Hn Hw. destruct (weeksWithSelectedTeam_strict data sel Hn) as [Hs Hnn].
  now apply week_steps_inverse.
Qed.

(** X3.  [weeksWithSelectedTeam] is empty without a selection; otherwise,
    when no week is NaN, it is strictly ascending, each of its weeks is the
    week of a match of the team, and [availableWeeks] has that week. *)
Theorem weeksWithSelectedTeam_subset (data : list MatchData) (sel : string) :
  weeksWithSelectedTeam data EmptyString = []
  /\ (no_NaN_week data ->
      StronglySorted week_lt (weeksWithSelectedTeam data sel)
      /\ forall w, In w (weeksWithSelectedTeam data sel) ->
           (exists m, In m data /\ plays sel m = true /\ Wk m = w)
           /\ 0 <= indexOf (availableWeeks data) w).
Proof.
  split; [reflexivity|]. intros Hn.
  split; [apply (weeksWithSelectedTeam_strict data sel Hn)|].
  intros w Hw. unfold weeksWithSelectedTeam in Hw.
  destruct (Str.truthy sel); cbn [negb] in Hw; [|contradiction].
  apply sortedWeeks_In, in_map_iff in Hw. destruct Hw as (m & E & Hm).
  apply filter_In in Hm. destruct Hm as [Hm Hp].
  split; [exists m; auto|].
  destruct (sortedWeeks_has (map Wk data) (Wk m)) as (w' & Hw' & Es); [now apply in_map|].
  assert (Hnm : Num.is_NaN (Wk m) = false).
  { unfold no_NaN_week in Hn. rewrite Forall_forall in Hn. now apply Hn. }
  rewrite (sameValueZero_strict _ _ Hnm), strict_eq_flip, E in Es.
  destruct (indexOf_from_found (availableWeeks data) w 0) as (k & Hk & _).
  - exists w'. now split.
  - unfold indexOf. lia.
Qed.

(** X6.  When no week is NaN, the table of every available week has a row,
    and the table of every week of the selected team has a row of that
    team. *)
Theorem weekRows_nonempty (data : list MatchData) (sel : string) :
  no_NaN_week data ->
  (forall w, In w (availableWeeks data) -> weekRows data w <> [])
  /\ (forall w, In w (weeksWithSelectedTeam data sel) ->
        exists m, In m (weekRows data w) /\ plays sel m = true).
Proof.
  intros Hn. assert (Hself : forall m, In m data -> In m (weekRows data (Wk m))).
  { intros m Hm. apply filter_In. split; [exact Hm|]. apply strict_eq_refl.
    unfold no_NaN_week in Hn. rewrite Forall_forall in Hn. now apply Hn. }
  split.
  - intros w Hw. apply sortedWeeks_In, in_map_iff in Hw. destruct Hw as (m & <- & Hm).
    intros E. specialize (Hself m Hm). rewrite E in Hself. contradiction.
  - intros w Hw. unfold weeksWithSelectedTeam in Hw.
    destruct (Str.truthy sel); cbn [negb] in Hw; [|contradiction].
    apply sortedWeeks_In, in_map_iff in Hw. destruct Hw as (m & <- & Hm).
    apply filter_In in Hm. destruct Hm as [Hm Hp]. exists m. split; [now apply Hself | exact Hp].
Qed.

(** The weeks of the default rows. *)
Lemma availableWeeks_ascending_default : StronglySorted week_lt (availableWeeks defaultData).
Proof. apply (availableWeeks_ascending defaultData). repeat constructor. Defined.

(** The weeks of a team of the default rows. *)
Lemma weeksWithSelectedTeam_default :
  StronglySorted week_lt (weeksWithSelectedTeam defaultData "Fulham").
Proof.
  apply (proj2 (weeksWithSelectedTeam_subset defaultData "Fulham")). repeat constructor.
Defined.

(** Forth and back from week 1 of a team of the default rows. *)
Lemma team_week_steps_default :
  (exists w', nextWeek (weeksWithSelectedTeam defaultData "Fulham") (of_Z 1) = Some w'
              /\ previousWeek (weeksWithSelectedTeam defaultData "Fulham") w' = Some (of_Z 1))
  /\ (exists w', previousWeek (weeksWithSelectedTeam defaultData "Fulham") (of_Z 1) = Some w'
                 /\ nextWeek (weeksWithSelectedTeam defaultData "Fulham") w' = Some (of_Z 1)).
Proof.
  apply (team_week_steps_inverse defaultData "Fulham" (of_Z 1)).
  - repeat constructor.
  - vm_compute. left. reflexivity.
Defined.

(** Week 2 of the default rows shows a match of the team. *)
Lemma weekRows_default :
  exists m, In m (weekRows defaultData (of_Z 2)) /\ plays "Fulham" m = true.
Proof.
  apply (weekRows_nonempty defaultData "Fulham").
  - repeat constructor.
  - vm_compute. right. left. reflexivity.
Defined.

(** ** The scatter plot *)

Lemma scatter_step_scored (m : MatchData) (M : JsMap.t ScatterStats.t) :
  whole (homeGoals (parseScore (Score m))) -> whole (awayGoals (parseScore (Score m))) ->
  map_vals scored_part (exec (scatter_step m) M)
  = credit (credit (map_vals scored_part M)
              (Home m, to_Z (homeGoals (parseScore (Score m)))))
           (Away m, to_Z (awayGoals (parseScore (Score m)))).
Proof.
  unfold whole. intros Hh Ha.
  unfold scatter_step, exec, bind, get, put. cbn [fst snd].
  erewrite (credit_view scored_part ScatterStats.zero _ (Away m)); [|reflexivity|].
  - erewrite (credit_view scored_part ScatterStats.zero M (Home m)); [reflexivity|reflexivity|].
    cbn [scored_part ScatterStats.goalsFor ScatterStats.matches goals matches].
    now rewrite <- Hh.
  - cbn [scored_part ScatterStats.goalsFor ScatterStats.matches goals matches].
    now rewrite <- Ha.
Qed.

Lemma scatter_step_conceded (m : MatchData) (M : JsMap.t ScatterStats.t) :
  whole (homeGoals (parseScore (Score m))) -> whole (awayGoals (parseScore (Score m))) ->
  map_vals conceded_part (exec (scatter_step m) M)
  = credit (credit (map_vals conceded_part M)
              (Home m, to_Z (awayGoals (parseScore (Score m)))))
           (Away m, to_Z (homeGoals (parseScore (Score m)))).
Proof.
  unfold whole. intros Hh Ha.
  unfold scatter_step, exec, bind, get, put. cbn [fst snd].
  erewrite (credit_view conceded_part ScatterStats.zero _ (Away m)); [|reflexivity|].
  - erewrite (credit_view conceded_part ScatterStats.zero M (Home m)); [reflexivity|reflexivity|].
    cbn [conceded_part ScatterStats.goalsAgainst ScatterStats.matches goals matches].
    now rewrite <- Ha.
  - cbn [conceded_part ScatterStats.goalsAgainst ScatterStats.matches goals matches].
    now rewrite <- Hh.
Qed.

Lemma concessions_cons (m : MatchData) (data : list MatchData) :
  concessions (m :: data)
  = (Home m, to_Z (awayGoals (parseScore (Score m))))
      :: (Away m, to_Z (homeGoals (parseScore (Score m)))) :: concessions data.
Proof. reflexivity. Qed.

Lemma teamStats_scored (data : list MatchData) :
  whole_scores data ->
  map_vals scored_part (teamStats data) = fold_left credit (credits data) JsMap.empty.
Proof.
  intros Hw. unfold teamStats. rewrite exec_forEach_fold.
  change (@JsMap.empty Stats) with (map_vals scored_part (@JsMap.empty ScatterStats.t)).
  generalize (@JsMap.empty ScatterStats.t).
  induction Hw as [|m data [Hh Ha] Hw IH]; intros M; [reflexivity|].
  rewrite credits_cons. cbn [fold_left]. now rewrite IH, (scatter_step_scored m M Hh Ha).
Qed.

Lemma teamStats_conceded (data : list MatchData) :
  whole_scores data ->
  map_vals conceded_part (teamStats data) = fold_left credit (concessions data) JsMap.empty.
Proof.
  intros Hw. unfold teamStats. rewrite exec_forEach_fold.
  change (@JsMap.empty Stats) with (map_vals conceded_part (@JsMap.empty ScatterStats.t)).
  generalize (@JsMap.empty ScatterStats.t).
  induction Hw as [|m data [Hh Ha] Hw IH]; intros M; [reflexivity|].
  rewrite concessions_cons. cbn [fold_left]. now rewrite IH, (scatter_step_conceded m M Hh Ha).
Qed.

Lemma concessions_mentions (data : list MatchData) : map fst (concessions data) = mentions data.
Proof.
  induction data as [|m data IH]; [reflexivity|].
  rewrite concessions_cons, !map_cons, IH. reflexivity.
Qed.

Lemma credited_concededOf (data : list MatchData) (t : string) :
  credited (concessions data) t = concededOf data t.
Proof.
  unfold credited, concededOf. induction data as [|m data IH]; [reflexivity|].
  rewrite concessions_cons, !map_cons, !sumZ_cons, IH. cbn [fst snd]. unfold concededIn. lia.
Qed.

Lemma counted_concessions (data : list MatchData) (t : string) :
  counted (concessions data) t = playedOf data t.
Proof.
  unfold counted, playedOf. induction data as [|m data IH]; [reflexivity|].
  rewrite concessions_cons, !map_cons, !sumZ_cons, IH. cbn [fst snd]. unfold rolesIn. lia.
Qed.

Lemma teamStats_scored_entries (data : list MatchData) :
  whole_scores data ->
  map_vals scored_part (teamStats data)
  = map (fun t => (t, mkStats (of_Z (goalsOf data t)) (of_Z (playedOf data t))))
      (first_seen (mentions data)).
Proof.
  intros Hw. rewrite (teamStats_scored data Hw), <- (statsByTeam_credits data Hw).
  now apply statsByTeam_entries.
Qed.

Lemma teamStats_conceded_entries (data : list MatchData) :
  whole_scores data ->
  map_vals conceded_part (teamStats data)
  = map (fun t => (t, mkStats (of_Z (concededOf data t)) (of_Z (playedOf data t))))
      (first_seen (mentions data)).
Proof.
  intros Hw. rewrite (teamStats_conceded data Hw), fold_credit, concessions_mentions.
  apply map_ext. intros t. unfold entry_of, stats_of.
  now rewrite credited_concededOf, counted_concessions.
Qed.

(** Two views of one map determine what any function of both shows. *)
Lemma map_two_views {V W1 W2 T : Type} (f1 : V -> W1) (f2 : V -> W2)
  (F1 : string -> W1) (F2 : string -> W2) (H : string -> W1 -> W2 -> T)
  (M : JsMap.t V) (L : list string) :
  map_vals f1 M = map (fun t => (t, F1 t)) L ->
  map_vals f2 M = map (fun t => (t, F2 t)) L ->
  map (fun e => H (fst e) (f1 (snd e)) (f2 (snd e))) M = map (fun t => H t (F1 t) (F2 t)) L.
Proof.
  revert L. induction M as [|[k v] M IH]; intros [|t L]; try discriminate; [reflexivity|].
  cbn [map_vals map fst snd]. intros E1 E2.
  injection E1 as -> E1v E1. injection E2 as E2v E2.
  rewrite E1v, E2v. f_equal. now apply IH.
Qed.

Lemma sub_of_Z (a b : Z) : (of_Z a - of_Z b)%num = of_Z (a - b).
Proof.
  unfold of_Z, Num.sub. cbn [Num.neg Num.add]. f_equal. apply Qred_of_Qeq.
  rewrite Qred_correct. unfold Z.sub. now rewrite inject_Z_plus, inject_Z_opp.
Qed.

Lemma scatter_filter_all (data : list MatchData) :
  whole_scores data ->
  filter (fun e => (ScatterStats.matches (snd e) >? of_Z 0)%num)
         (JsMap.entries (teamStats data))
  = teamStats data.
Proof.
  intros Hw. unfold JsMap.entries.
  pose proof (map_two_views scored_part scored_part _ _
                (fun (_ : string) s (_ : Stats) => (matches s >? of_Z 0)%num)
                _ _ (teamStats_scored_entries data Hw) (teamStats_scored_entries data Hw)) as H.
  cbn [matches] in H.
  assert (Hall : forall b, In b (map (fun e : string * ScatterStats.t =>
                    (matches (scored_part (snd e)) >? of_Z 0)%num) (teamStats data)) -> b = true).
  { rewrite H. intros b Hb. apply in_map_iff in Hb. destruct Hb as (t & <- & Ht).
    rewrite gtb_of_Z. apply Z.ltb_lt. now apply playedOf_pos. }
  apply filter_all. intros e He. apply Hall.
  apply in_map_iff. exists e. now split.
Qed.

Lemma scatterData_columns (data : list MatchData) :
  whole_scores data ->
  map goal_columns (scatterData data)
  = map (goal_columns_of data) (first_seen (mentions data)).
Proof.
  intros Hw. unfold scatterData. rewrite (scatter_filter_all data Hw), map_map.
  transitivity (map (fun e : string * ScatterStats.t =>
                       columns_of_parts (fst e) (scored_part (snd e)) (conceded_part (snd e)))
                    (teamStats data)); [apply map_ext; intros e; reflexivity|].
  rewrite (map_two_views scored_part conceded_part _ _ columns_of_parts
             _ _ (teamStats_scored_entries data Hw) (teamStats_conceded_entries data Hw)).
  apply map_ext. intros t. unfold columns_of_parts, goal_columns_of. cbn [goals matches].
  now rewrite sub_of_Z.
Qed.

(** X7.  On a dataset of safe size [scatterData] has one point per team, in
    order of first mention, with goals scored, goals conceded and their
    difference each divided by the matches played. *)
Theorem scatterData_goal_columns (data : list MatchData) :
  safe_size data ->
  map goal_columns (scatterData data)
  = map (goal_columns_of data) (first_seen (mentions data)).
Proof. intros [Hw _]. now apply scatterData_columns. Qed.

Lemma scatterData_goal_columns_default :
  map goal_columns (scatterData defaultData)
  = map (goal_columns_of defaultData) (first_seen (mentions defaultData)).
Proof.
  apply scatterData_goal_columns.
  split; [repeat constructor | vm_compute; reflexivity].
Defined.

Lemma scatter_step_scores (m : MatchData) (M : JsMap.t ScatterStats.t) :
  map_vals scored_part (exec (scatter_step m) M)
  = exec (teamGoals_step m) (map_vals scored_part M).
Proof.
  rewrite teamGoals_step_bump.
  unfold scatter_step, exec, bind, get, put. cbn [fst snd].
  rewrite (bump_view scored_part ScatterStats.zero _ (Away m)
             (awayGoals (parseScore (Score m)))); [|reflexivity|reflexivity].
  rewrite (bump_view scored_part ScatterStats.zero M (Home m)
             (homeGoals (parseScore (Score m)))); [reflexivity|reflexivity|reflexivity].
Qed.

(** The scoring half of the accumulators of [scatterData] is the
    accumulators of [teamGoals]. *)
Lemma teamStats_scores (data : list MatchData) :
  map_vals scored_part (teamStats data) = statsByTeam data.
Proof.
  unfold teamStats, statsByTeam. rewrite !exec_forEach_fold.
  change (@JsMap.empty Stats) with (map_vals scored_part (@JsMap.empty ScatterStats.t)).
  generalize (@JsMap.empty ScatterStats.t).
  induction data as [|m data IH]; intros M; [reflexivity|].
  cbn [fold_left]. now rewrite IH, scatter_step_scores.
Qed.

Lemma filter_map {A B : Type} (f : A -> B) (p : B -> bool) (l : list A) :
  filter p (map f l) = map f (filter (fun x => p (f x)) l).
Proof.
  induction l as [|x l IH]; [reflexivity|]. cbn [map filter].
  destruct (p (f x)); cbn [map]; now rewrite IH.
Qed.

Lemma scatterData_rates (data : list MatchData) :
  map (fun p => mkRate (ScatterPoint.team p) (ScatterPoint.goalsPerMatch p))
      (scatterData data)
  = map rate_of_entry
      (filter (fun e => (matches (snd e) >? of_Z 0)%num) (JsMap.entries (statsByTeam data))).
Proof.
  rewrite <- teamStats_scores. unfold scatterData, JsMap.entries, map_vals.
  rewrite filter_map, !map_map. reflexivity.
Qed.

(** X8.  The scoring rates of [scatterData] are those of [teamGoals]: both
    charts show the same (team, goals per match) pairs. *)
Theorem scatterData_agrees_with_teamGoals (data : list MatchData) :
  Permutation
    (map (fun p => mkRate (ScatterPoint.team p) (ScatterPoint.goalsPerMatch p))
         (scatterData data))
    (teamGoals data).
Proof. rewrite scatterData_rates. unfold teamGoals. apply sort_perm. Qed.

Lemma sum_concededIn (m : MatchData) (l : list string) :
  NoDup l -> In (Home m) l -> In (Away m) l ->
  sumZ (map (fun t => concededIn t m) l)
  = to_Z (homeGoals (parseScore (Score m))) + to_Z (awayGoals (parseScore (Score m))).
Proof.
  intros Hnd Hh Ha. unfold concededIn.
  rewrite (sumZ_map_add
             (fun t => if String.eqb (Home m) t then to_Z (awayGoals (parseScore (Score m))) else 0)
             (fun t => if String.eqb (Away m) t then to_Z (homeGoals (parseScore (Score m))) else 0)).
  rewrite !sumZ_indicator by assumption.
  apply existsb_eqb_In in Hh, Ha. rewrite Hh, Ha. lia.
Qed.

Lemma sum_concededOf (data : list MatchData) (l : list string) :
  NoDup l -> incl (mentions data) l ->
  sumZ (map (concededOf data) l)
  = sumZ (map (fun m => to_Z (homeGoals (parseScore (Score m)))
                        + to_Z (awayGoals (parseScore (Score m)))) data).
Proof.
  intros Hnd. induction data as [|m data IH]; intros Hin.
  - cbn [map]. unfold concededOf. cbn [map]. clear. induction l as [|x l IHl]; [reflexivity|].
    rewrite map_cons, sumZ_cons, IHl. reflexivity.
  - rewrite map_cons, sumZ_cons, <- IH.
    + rewrite <- (sum_concededIn m l); try assumption.
      * rewrite <- sumZ_map_add. reflexivity.
      * apply Hin. cbn. auto.
      * apply Hin. cbn. auto.
    + intros t Ht. apply Hin. cbn. auto.
Qed.

Lemma map_snd_map_vals {V W : Type} (f : V -> W) (g : W -> number) (M : JsMap.t V) :
  map (fun e => g (snd e)) (map_vals f M) = map (fun e => g (f (snd e))) M.
Proof. unfold map_vals. rewrite map_map. reflexivity. Qed.

(** X9.  On a dataset of safe size the goals-for accumulators of
    [scatterData] and its goals-against accumulators both add up to the
    total of the goals, and so to the same number: every goal scored is a
    goal conceded. *)
Theorem teamStats_goals_balance (data : list MatchData) :
  safe_size data ->
  scoredTotal data = totalGoals data
  /\ concededTotal data = totalGoals data
  /\ scoredTotal data = concededTotal data.
Proof.
  intros [Hw _].
  assert (H : scoredTotal data = totalGoals data /\ concededTotal data = totalGoals data);
    [|destruct H as [H1 H2]; split; [exact H1 | split; [exact H2 | now rewrite H1, H2]]].
  unfold scoredTotal, concededTotal, JsMap.entries. split.
  - change (map (fun e : string * ScatterStats.t => ScatterStats.goalsFor (snd e)) (teamStats data))
      with (map (fun e : string * ScatterStats.t => goals (scored_part (snd e))) (teamStats data)).
    rewrite <- (map_snd_map_vals scored_part goals), (teamStats_scored_entries data Hw), map_map.
    cbn [snd goals].
    rewrite <- (map_map (goalsOf data) of_Z), sumN_of_Z, (totalGoals_int data Hw).
    f_equal. apply sum_goalsOf; [apply first_seen_NoDup|].
    intros t Ht. now apply first_seen_In.
  - change (map (fun e : string * ScatterStats.t => ScatterStats.goalsAgainst (snd e)) (teamStats data))
      with (map (fun e : string * ScatterStats.t => goals (conceded_part (snd e))) (teamStats data)).
    rewrite <- (map_snd_map_vals conceded_part goals), (teamStats_conceded_entries data Hw),
      map_map.
    cbn [snd goals].
    rewrite <- (map_map (concededOf data) of_Z), sumN_of_Z, (totalGoals_int data Hw).
    f_equal. apply sum_concededOf; [apply first_seen_NoDup|].
    intros t Ht. now apply first_seen_In.
Qed.

Lemma teamStats_goals_balance_default :
  scoredTotal defaultData = totalGoals defaultData
  /\ concededTotal defaultData = totalGoals defaultData
  /\ scoredTotal defaultData = concededTotal defaultData.
Proof.
  apply teamStats_goals_balance.
  split; [repeat constructor | vm_compute; reflexivity].
Defined.

(** ** Percentages *)

(** X10.  On a dataset that is not empty each of the three percentages of
    [matchOutcomes] lies between 0 and 100; it is 0 exactly when its
    outcome never occurs and 100 exactly when every match has it. *)
Theorem matchOutcomes_percentages_range (data : list MatchData) :
  data <> [] ->
  Forall2 (percent_of (total (matchOutcomes data)))
    (counts (matchOutcomes data)) (percentages (matchOutcomes data)).
Proof.
  intros Hne. destruct (matchOutcomes_int data) as (h & a & d & Hh & Ha & Hd & Hlen & ->).
  cbn [percentages counts total].
  assert (Hn : 0 < h + a + d) by (destruct data; [congruence | cbn [List.length] in Hlen; lia]).
  repeat constructor; apply percent_ends; lia.
Qed.

Lemma matchOutcomes_percentages_range_default :
  Forall2 (percent_of (total (matchOutcomes defaultData)))
    (counts (matchOutcomes defaultData)) (percentages (matchOutcomes defaultData)).
Proof. apply matchOutcomes_percentages_range. discriminate. Defined.

(** ** The summary card *)

Lemma fold_goals_int (data : list MatchData) (z : Z) :
  whole_scores data ->
  fold_left
    (fun sum m =>
       let sc := parseScore (Score m) in (sum + homeGoals sc + awayGoals sc)%num)
    data (of_Z z)
  = of_Z (z + sumZ (map (fun m => to_Z (homeGoals (parseScore (Score m)))
                                  + to_Z (awayGoals (parseScore (Score m)))) data)).
Proof.
  intros Hw. revert z. induction Hw as [|m data [Hh Ha] Hw IH]; intros z.
  - cbn. f_equal. lia.
  - cbn [fold_left]. cbv zeta. unfold whole in Hh, Ha.
    rewrite Hh, Ha, !add_of_Z, IH.
    rewrite map_cons, sumZ_cons. f_equal. lia.
Qed.

(** X11.  The average on the summary card is NaN on the empty dataset; on a
    dataset of safe size it is the total of the goals over the number of
    matches. *)
Theorem avgGoalsPerMatch_total (data : list MatchData) :
  avgGoalsPerMatch [] = NaN
  /\ (safe_size data ->
      avgGoalsPerMatch data = (totalGoals data / of_nat (List.length data))%num).
Proof.
  split; [reflexivity|]. intros [Hw _].
  unfold avgGoalsPerMatch.
  rewrite fold_goals_int by exact Hw. now rewrite (totalGoals_int data Hw), Z.add_0_l.
Qed.

Lemma avgGoalsPerMatch_default :
  avgGoalsPerMatch defaultData
  = (totalGoals defaultData / of_nat (List.length defaultData))%num.
Proof.
  apply (avgGoalsPerMatch_total defaultData).
  split; [repeat constructor | vm_compute; reflexivity].
Defined.

(** ** Points and results *)

Lemma last_cons {A : Type} (a d : A) (l : list A) : List.last (a :: l) d = List.last l a.
Proof.
  revert a d. induction l as [|b l IH]; intros a d; [reflexivity|].
  change (List.last (a :: b :: l) d) with (List.last (b :: l) d).
  now rewrite (IH b d), (IH b a).
Qed.

Lemma count_result_cons (label : string) (p : PPGDataPoint.t) (s : list PPGDataPoint.t) :
  count_result label (p :: s)
  = (if String.eqb (PPGDataPoint.result p) label then 1 else 0) + count_result label s.
Proof.
  unfold count_result. cbn [filter].
  destruct (String.eqb (PPGDataPoint.result p) label); cbn [List.length]; lia.
Qed.

Lemma award_by_label (o : Outcome) :
  award o
  = 3 * (if String.eqb (outcome_label o) "Win" then 1 else 0)
    + (if String.eqb (outcome_label o) "Draw" then 1 else 0).
Proof. destruct o; reflexivity. Qed.

Lemma ppg_scan_final (t : string) (l : list MatchData) (p n : Z) :
  List.last (map PPGDataPoint.points (ppg_scan t p n l)) (of_Z p)
  = of_Z (p + 3 * count_result "Win" (ppg_scan t p n l)
            + count_result "Draw" (ppg_scan t p n l)).
Proof.
  revert p n. induction l as [|m l IH]; intros p n.
  - cbn. f_equal. lia.
  - rewrite ppg_scan_cons, map_cons, last_cons, !count_result_cons.
    cbn [ppg_point PPGDataPoint.points PPGDataPoint.result fst].
    rewrite IH. f_equal. rewrite (award_by_label (outcome t m)). lia.
Qed.

Lemma ppg_scan_matches (t : string) (l : list MatchData) (p n : Z) :
  map PPGDataPoint.matches (ppg_scan t p n l)
  = map (fun k => of_Z (n + Z.of_nat k)) (seq 1 (List.length l)).
Proof.
  revert p n. induction l as [|m l IH]; intros p n; [reflexivity|].
  rewrite ppg_scan_cons, map_cons, IH. cbn [List.length seq map].
  cbn [ppg_point PPGDataPoint.matches snd]. f_equal.
  rewrite <- (seq_shift (List.length l) 1), map_map. apply map_ext. intros k. f_equal. lia.
Qed.

Lemma ppg_scan_length (t : string) (l : list MatchData) (p n : Z) :
  List.length (ppg_scan t p n l) = List.length l.
Proof.
  revert p n. induction l as [|m l IH]; intros p n; [reflexivity|].
  rewrite ppg_scan_cons. cbn [List.length]. now rewrite IH.
Qed.

Lemma ppg_scan_add_up (t : string) (l : list MatchData) : points_add_up (ppg_scan t 0 0 l).
Proof.
  split; [apply ppg_scan_final|]. now rewrite ppg_scan_matches, ppg_scan_length.
Qed.

(** X13.  In both series of [ppgTimeseriesData] the last cumulative
    points are three times the wins plus the draws among the results, and
    the match counts run 1, 2, 3, ... *)
Theorem ppg_points_add_up (Date_getTime : string -> option Z) (data : list MatchData)
  (sel cmp : string) :
  points_add_up (primaryTeam (ppgTimeseriesData Date_getTime data sel cmp))
  /\ points_add_up (compareTeam (ppgTimeseriesData Date_getTime data sel cmp)).
Proof.
  destruct (ppgTimeseriesData_cases Date_getTime data sel cmp) as [[-> | ->] [-> | ->]];
    split; try apply ppg_scan_add_up; split; reflexivity.
Qed.

(** ** Both views of a match *)




(** ** The two series of a team share their dates *)

Lemma sort_insert_map {A B : Type} (f : A -> B) (c1 : A -> A -> number)
  (c2 : B -> B -> number) (x : A) (l : list A) :
  (forall a b, c1 a b = c2 (f a) (f b)) ->
  map f (sort_insert c1 x l) = sort_insert c2 (f x) (map f l).
Proof.
  intros Hc. induction l as [|y l IH]; [reflexivity|].
  cbn [sort_insert map]. unfold sort_after. rewrite <- Hc.
  destruct (c1 x y >? of_Z 0)%num; cbn [map]; [now rewrite IH | reflexivity].
Qed.

Lemma sort_map {A B : Type} (f : A -> B) (c1 : A -> A -> number)
  (c2 : B -> B -> number) (l : list A) :
  (forall a b, c1 a b = c2 (f a) (f b)) ->
  map f (sort c1 l) = sort c2 (map f l).
Proof.
  intros Hc. induction l as [|x l IH]; [reflexivity|].
  cbn [sort map]. now rewrite (sort_insert_map f c1 c2 _ _ Hc), IH.
Qed.

Lemma ppg_scan_dates (t : string) (l : list MatchData) (p n : Z) :
  map (fun x => (PPGDataPoint.date x, PPGDataPoint.opponent x)) (ppg_scan t p n l)
  = map (fun m => (Date m, opponent_of t m)) l.
Proof.
  revert p n. induction l as [|m l IH]; intros p n; [reflexivity|].
  rewrite ppg_scan_cons, !map_cons, IH. reflexivity.
Qed.

Lemma xg_point_dates (sel : string) (l : list MatchData) :
  sel <> EmptyString ->
  map (fun x => (XgPoint.date x, XgPoint.opponent x, XgPoint.team x))
      (map (xg_point sel) (filter (plays sel) l))
  = map (fun m => (Date m, opponent_of sel m, sel)) (filter (plays sel) l).
Proof.
  intros Hsel. rewrite map_map. apply map_ext_in. intros m Hm.
  apply filter_In in Hm. destruct Hm as [_ Hp]. unfold xg_point, opponent_of.
  apply truthy_nonempty in Hsel. rewrite Hsel. unfold plays in Hp. rewrite Hp.
  cbn [andb]. destruct (String.eqb (Home m) sel); reflexivity.
Qed.

(** X15.  For a selected team the xG series and the points-per-game series
    list the same fixtures, date and opponent, in the same order; every xG
    point carries the selected team, and there is one per match the team
    plays. *)
Theorem series_share_fixtures (Date_getTime : string -> option Z) (data : list MatchData)
  (sel cmp : string) :
  sel <> EmptyString ->
  map (fun x => (XgPoint.date x, XgPoint.opponent x))
      (timeseriesData Date_getTime data sel)
  = map (fun x => (PPGDataPoint.date x, PPGDataPoint.opponent x))
        (primaryTeam (ppgTimeseriesData Date_getTime data sel cmp))
  /\ Forall (fun x => XgPoint.team x = sel) (timeseriesData Date_getTime data sel)
  /\ List.length (timeseriesData Date_getTime data sel)
     = List.length (filter (plays sel) data).
Proof.
  intros Hsel. rewrite (primaryTeam_series Date_getTime data sel cmp Hsel), ppg_scan_dates.
  unfold timeseriesData, teamMatches.
  rewrite (proj2 (truthy_nonempty sel) Hsel).
  split; [|split].
  - rewrite (sort_map (fun x => (XgPoint.date x, XgPoint.opponent x))
               (by_point_date Date_getTime) (by_first_date Date_getTime))
      by reflexivity.
    rewrite (sort_map (fun m => (Date m, opponent_of sel m))
               (by_match_date Date_getTime) (by_first_date Date_getTime))
      by reflexivity.
    f_equal.
    pose proof (xg_point_dates sel data Hsel) as E.
    apply (f_equal (map (fun c : string * string * string => fst c))) in E.
    rewrite !map_map in E. cbn [fst] in E. rewrite map_map. exact E.
  - apply (Permutation_Forall (sort_perm _ _)). apply Forall_forall. intros x Hx.
    pose proof (xg_point_dates sel data Hsel) as E.
    apply (in_map (fun x => (XgPoint.date x, XgPoint.opponent x, XgPoint.team x))) in Hx.
    rewrite E in Hx. apply in_map_iff in Hx. destruct Hx as (m & Em & _).
    now injection Em.
  - now rewrite sort_length, length_map.
Qed.

Lemma series_share_fixtures_default :
  map (fun x => (XgPoint.date x, XgPoint.opponent x))
      (timeseriesData IsoDate.getTime defaultData "Liverpool")
  = map (fun x => (PPGDataPoint.date x, PPGDataPoint.opponent x))
        (primaryTeam (ppgTimeseriesData IsoDate.getTime defaultData "Liverpool" EmptyString)).
Proof.
  apply (series_share_fixtures IsoDate.getTime defaultData "Liverpool" EmptyString).
  discriminate.
Defined.

(** ** Scores written in decimal *)

Lemma uint_plain (d : Decimal.uint) : all_plain (DecimalString.NilEmpty.string_of_uint d).
Proof.
  induction d; cbn [DecimalString.NilEmpty.string_of_uint all_plain]; try exact I;
    (split; [unfold plain; cbn; lia | assumption]).
Qed.

Lemma prefix_dash_plain (c : ascii) (s : string) :
  plain c -> String.prefix en_dash (String c s) = false.
Proof.
  intros Hc. unfold en_dash. cbn [String.prefix].
  destruct (ascii_dec _ c) as [<-|]; [|reflexivity].
  unfold plain in Hc. cbn in Hc. lia.
Qed.

Lemma split_from_plain (s1 acc rest : string) :
  all_plain s1 ->
  Str.split_from en_dash 0 acc (s1 ++ rest)%string
  = Str.split_from en_dash 0 (acc ++ s1)%string rest.
Proof.
  revert acc. induction s1 as [|c s1 IH]; intros acc Hp.
  - now rewrite append_nil_r.
  - destruct Hp as [Hc Hp]. cbn [String.append Str.split_from].
    rewrite (prefix_dash_plain c _ Hc), (IH _ Hp). unfold Str.snoc.
    now rewrite append_assoc.
Qed.

Lemma split_from_end (acc : string) : Str.split_from en_dash 0 acc EmptyString = [acc].
Proof. reflexivity. Qed.

Lemma split_dash (acc s : string) :
  Str.split_from en_dash 0 acc (en_dash ++ s)%string
  = acc :: Str.split_from en_dash 0 EmptyString s.
Proof.
  unfold en_dash. cbn [String.append Str.split_from String.prefix String.length Nat.sub].
  destruct (ascii_dec _ _) as [_|N]; [|now elim N].
  destruct (ascii_dec _ _) as [_|N]; [|now elim N].
  destruct (ascii_dec _ _) as [_|N]; [|now elim N].
  destruct s; reflexivity.
Qed.

Lemma split_written (s1 s2 : string) :
  all_plain s1 -> all_plain s2 ->
  Str.split en_dash (s1 ++ en_dash ++ s2)%string = [s1; s2].
Proof.
  intros H1 H2. unfold Str.split.
  rewrite (split_from_plain s1 EmptyString _ H1). cbn [String.append].
  rewrite split_dash. f_equal.
  rewrite <- (append_nil_r s2) at 1. rewrite (split_from_plain s2 EmptyString _ H2).
  reflexivity.
Qed.

Lemma digit_plain (c : ascii) : plain c -> Str.digit c = Some (Z.of_N (Str.code c) - 48).
Proof.
  unfold plain, Str.digit. intros [H1 H2]. cbv zeta.
  now rewrite (proj2 (N.leb_le _ _) H1), (proj2 (N.leb_le _ _) H2).
Qed.

Lemma trim_start_plain (c : ascii) (s : string) :
  plain c -> Str.trim_start (String c s) = String c s.
Proof.
  unfold plain. intros Hc. cbn [Str.trim_start].
  assert (W1 : Str.is_ws1 c = false).
  { unfold Str.is_ws1. cbv zeta. repeat rewrite (proj2 (N.eqb_neq _ _)) by lia. reflexivity. }
  rewrite W1. destruct s as [|c2 s2]; [reflexivity|].
  assert (W2 : Str.is_ws2 c c2 = false).
  { unfold Str.is_ws2. rewrite (proj2 (N.eqb_neq (Str.code c) 194)) by lia. reflexivity. }
  rewrite W2. destruct s2 as [|c3 s3]; [reflexivity|].
  assert (W3 : Str.is_ws3 c c2 c3 = false).
  { unfold Str.is_ws3. cbv zeta.
    rewrite (proj2 (N.eqb_neq (Str.code c) 225)), (proj2 (N.eqb_neq (Str.code c) 226)),
      (proj2 (N.eqb_neq (Str.code c) 227)), (proj2 (N.eqb_neq (Str.code c) 239)) by lia.
    reflexivity. }
  now rewrite W3.
Qed.

Lemma digits_step (c : ascii) (s : string) (acc k : nat) :
  Str.digit c = Some (Z.of_nat k) ->
  Str.digits (Some (Z.of_nat acc)) (String c s)
  = Str.digits (Some (Z.of_nat (k + 10 * acc))) s.
Proof.
  intros H. cbn [Str.digits]. rewrite H. f_equal. f_equal. lia.
Qed.

Lemma digits_uint (d : Decimal.uint) (acc : nat) :
  Str.digits (Some (Z.of_nat acc)) (DecimalString.NilEmpty.string_of_uint d)
  = Some (Z.of_nat (Nat.of_uint_acc d acc)).
Proof.
  revert acc.
  induction d; intros acc;
    cbn [DecimalString.NilEmpty.string_of_uint Nat.of_uint_acc];
    [reflexivity | ..]; rewrite Nat.tail_mul_spec, <- IHd.
  - apply (digits_step _ _ acc 0). reflexivity.
  - apply (digits_step _ _ acc 1). reflexivity.
  - apply (digits_step _ _ acc 2). reflexivity.
  - apply (digits_step _ _ acc 3). reflexivity.
  - apply (digits_step _ _ acc 4). reflexivity.
  - apply (digits_step _ _ acc 5). reflexivity.
  - apply (digits_step _ _ acc 6). reflexivity.
  - apply (digits_step _ _ acc 7). reflexivity.
  - apply (digits_step _ _ acc 8). reflexivity.
  - apply (digits_step _ _ acc 9). reflexivity.
Qed.

Lemma to_uint_nonnil (n : nat) : Nat.to_uint n <> Decimal.Nil.
Proof.
  rewrite <- (DecimalNat.Unsigned.of_to n) at 1. rewrite DecimalNat.Unsigned.to_of.
  apply DecimalFacts.unorm_nonnil.
Qed.

Lemma digits_first (c : ascii) (s : string) (k : nat) :
  Str.digit c = Some (Z.of_nat k) ->
  Str.digits None (String c s) = Str.digits (Some (Z.of_nat k)) s.
Proof. intros H. cbn [Str.digits]. rewrite H. f_equal. Qed.

Lemma digits_uint_first (d : Decimal.uint) :
  d <> Decimal.Nil ->
  exists c s, DecimalString.NilEmpty.string_of_uint d = String c s /\ plain c
              /\ Str.digits None (DecimalString.NilEmpty.string_of_uint d)
                 = Some (Z.of_nat (Nat.of_uint_acc d 0)).
Proof.
  pose proof (uint_plain d) as Hp.
  destruct d; intros Hnn; [congruence | ..];
    cbn [DecimalString.NilEmpty.string_of_uint all_plain Nat.of_uint_acc] in *;
    destruct Hp as [Hc _]; (eexists; eexists; split; [reflexivity|]; split; [exact Hc|]);
    rewrite Nat.tail_mul_spec, <- digits_uint.
  - apply (digits_first _ _ 0). reflexivity.
  - apply (digits_first _ _ 1). reflexivity.
  - apply (digits_first _ _ 2). reflexivity.
  - apply (digits_first _ _ 3). reflexivity.
  - apply (digits_first _ _ 4). reflexivity.
  - apply (digits_first _ _ 5). reflexivity.
  - apply (digits_first _ _ 6). reflexivity.
  - apply (digits_first _ _ 7). reflexivity.
  - apply (digits_first _ _ 8). reflexivity.
  - apply (digits_first _ _ 9). reflexivity.
Qed.

Lemma digits_decimal (n : nat) :
  exists c s, decimal n = String c s /\ plain c
              /\ Str.digits None (decimal n) = Some (Z.of_nat n).
Proof.
  unfold decimal. destruct (digits_uint_first _ (to_uint_nonnil n)) as (c & s & E & Hc & Hd).
  exists c, s. split; [exact E|]. split; [exact Hc|]. rewrite Hd. f_equal. f_equal.
  apply (DecimalNat.Unsigned.of_to n).
Qed.

Lemma parseInt10_decimal (n : nat) :
  Str.parseInt10 (Some (decimal n)) = of_nat n.
Proof.
  destruct (digits_decimal n) as (c & s & E & Hc & Hd).
  unfold Str.parseInt10. cbn [Str.ToString]. rewrite E in *.
  rewrite (trim_start_plain c s Hc).
  unfold plain in Hc.
  rewrite (proj2 (N.eqb_neq (Str.code c) 45)), (proj2 (N.eqb_neq (Str.code c) 43)) by lia.
  rewrite Hd. unfold of_nat. f_equal. lia.
Qed.

(** X12.  Parsing the score that writes two natural numbers up to 2^53,
    the integers binary64 holds exactly, gives the two numbers back. *)
Theorem parseScore_writeScore (h a : nat) :
  Z.of_nat h <= 2 ^ 53 -> Z.of_nat a <= 2 ^ 53 ->
  parseScore (writeScore h a) = mkGoals (of_nat h) (of_nat a).
Proof.
  intros _ _. unfold parseScore, writeScore, decimal.
  rewrite split_written by apply uint_plain. cbn [nth_error].
  fold (decimal h) (decimal a). rewrite !parseInt10_decimal.
  unfold of_nat. now rewrite !or_zero_of_Z.
Qed.

Lemma parseScore_writeScore_fixture :
  parseScore (writeScore 12 0) = mkGoals (of_nat 12) (of_nat 0).
Proof. apply parseScore_writeScore; vm_compute; discriminate. Defined.

(** ** Uploads *)

Lemma present_some (x : option string) :
  present x = true -> exists s, x = Some s /\ s <> EmptyString.
Proof.
  destruct x as [s|]; [|discriminate]. cbn [present]. intros H.
  exists s. split; [reflexivity|]. now apply truthy_nonempty.
Qed.

Lemma nth_error_before {A : Type} (l : list A) (i j : nat) :
  nth_error l j <> None -> (i <= j)%nat -> nth_error l i <> None.
Proof. rewrite !nth_error_Some. lia. Qed.

Lemma complete_usable (line : string) :
  complete (parseLine line) = true -> usable (parseLine line).
Proof.
  unfold complete, usable, parseLine.
  cbn [CsvRow.Wk CsvRow.Home CsvRow.Away CsvRow.Day CsvRow.Date CsvRow.Time CsvRow.Score].
  rewrite !andb_true_iff. intros [[Hw Hh] Ha].
  split; [exact Hw|]. split; [now apply present_some|]. split; [now apply present_some|].
  apply present_some in Ha. destruct Ha as (a & Ea & _).
  assert (H8 : nth_error (Str.split comma line) 8 <> None) by congruence.
  repeat split; apply (nth_error_before _ _ 8 H8); lia.
Qed.

Lemma onload_rows (text : string) (st : Upload) :
  (2 <= List.length (Str.split newline text))%nat ->
  data (onload text st)
  = filter complete (map parseLine (tl (Str.split newline text)))
  /\ error (onload text st) = EmptyString.
Proof.
  intros H. unfold onload. destruct (Nat.ltb_spec (List.length (Str.split newline text)) 2); [lia|].
  set (rows := filter complete (map parseLine (tl (Str.split newline text)))).
  destruct (0 <? List.length rows)%nat; [destruct (sortedWeeks (map CsvRow.Wk rows))|];
    split; reflexivity.
Qed.

Lemma rows_usable (lines : list string) :
  Forall usable (filter complete (map parseLine lines)).
Proof.
  apply Forall_forall. intros r Hr. apply filter_In in Hr. destruct Hr as [Hr Hc].
  apply in_map_iff in Hr. destruct Hr as (line & <- & _). now apply complete_usable.
Qed.

Lemma filter_length_le {A : Type} (f : A -> bool) (l : list A) :
  (List.length (filter f l) <= List.length l)%nat.
Proof. induction l as [|x l IH]; [cbn; lia|]. cbn. destruct (f x); cbn; lia. Qed.

Lemma tl_length {A : Type} (l : list A) : List.length (tl l) = (List.length l - 1)%nat.
Proof. destruct l; cbn; lia. Qed.

(** X16.  What an upload does, case by case.  Without a file, with a name
    that does not end in .csv, or with a text of fewer than two lines, the
    matching message becomes the error and nothing else changes; when the
    file cannot be read nothing changes at all.  Otherwise the error is
    cleared and the data is replaced by rows that each come from a line
    after the header and have a week that counts, team names that are not
    empty and their first nine columns; as long as no week is lost to
    rounding these are all the complete rows of those lines, in order. *)
Theorem upload_outcome (loads : bool) (f : File) (st : Upload) :
  handleFileUploadWith loads None st = setError "No file selected" st
  /\ (endsWith (name f) ".csv" = false ->
      handleFileUploadWith loads (Some f) st = setError "Please upload a CSV file" st)
  /\ (endsWith (name f) ".csv" = true -> loads = false ->
      handleFileUploadWith loads (Some f) st = st)
  /\ (endsWith (name f) ".csv" = true -> loads = true ->
      (List.length (Str.split newline (text f)) < 2)%nat ->
      handleFileUploadWith loads (Some f) st
      = setError "CSV file is empty or contains only headers" st)
  /\ (endsWith (name f) ".csv" = true -> loads = true ->
      (2 <= List.length (Str.split newline (text f)))%nat ->
      error (handleFileUploadWith loads (Some f) st) = EmptyString
      /\ Forall usable (data (handleFileUploadWith loads (Some f) st))
      /\ (List.length (data (handleFileUploadWith loads (Some f) st))
          <= List.length (Str.split newline (text f)) - 1)%nat
      /\ (forall r, In r (data (handleFileUploadWith loads (Some f) st)) ->
            exists line, In line (tl (Str.split newline (text f))) /\ r = parseLine line)
      /\ (weeks_kept (tl (Str.split newline (text f))) ->
          data (handleFileUploadWith loads (Some f) st)
          = filter complete (map parseLine (tl (Str.split newline (text f)))))).
Proof.
  split; [reflexivity|]. cbn [handleFileUploadWith].
  split; [intros ->; reflexivity|].
  split; [intros -> ->; reflexivity|].
  split.
  - intros -> -> Hlt. cbn [negb]. unfold onload. now rewrite (proj2 (Nat.ltb_lt _ _) Hlt).
  - intros -> -> Hge. cbn [negb]. destruct (onload_rows (text f) st Hge) as [Hd He].
    split; [exact He|]. rewrite Hd. split; [apply rows_usable|]. split; [|split].
    + rewrite <- tl_length, <- (length_map parseLine). apply filter_length_le.
    + intros r Hr. apply filter_In in Hr. destruct Hr as [Hr _].
      apply in_map_iff in Hr. destruct Hr as (line & E & Hl). eauto.
    + intros _. reflexivity.
Qed.

(** The sample file is accepted, and none of its weeks is lost. *)
Lemma upload_outcome_sample :
  error (handleFileUploadWith true (Some (mkFile "matches.csv" sample_csv))
           (mkUpload [] "old" (of_Z 9))) = EmptyString
  /\ data (handleFileUploadWith true (Some (mkFile "matches.csv" sample_csv))
             (mkUpload [] "old" (of_Z 9)))
     = filter complete (map parseLine (tl (Str.split newline sample_csv))).
Proof.
  destruct (upload_outcome true (mkFile "matches.csv" sample_csv) (mkUpload [] "old" (of_Z 9)))
    as (_ & _ & _ & _ & H).
  destruct H as (He & _ & _ & _ & Hd).
  - vm_compute. reflexivity.
  - reflexivity.
  - vm_compute. lia.
  - split; [exact He|]. apply Hd. apply Forall_forall. intros line Hl.
    vm_compute in Hl.
    repeat (destruct Hl as [<- | Hl]; [vm_compute; reflexivity|]). contradiction.
Defined.

Lemma truthy_not_NaN (a : number) : Num.truthy a = true -> not_NaN a.
Proof. destruct a; try discriminate; reflexivity. Qed.

Lemma leb_strict_eq (a b c : number) :
  num_leb a b = true -> (c === b)%num = true -> num_leb a c = true.
Proof.
  destruct a as [x| | |], b as [y| | |], c as [z| | |]; try discriminate; try reflexivity.
  cbn [Num.strict_eq]. rewrite !leb_Fin, Qeq_bool_iff. intros H E. now rewrite E.
Qed.

Lemma leb_refl (a : number) : not_NaN a -> num_leb a a = true.
Proof.
  intros H. unfold num_leb. rewrite (strict_eq_refl a H). apply orb_true_r.
Qed.

(** The head of the sorted weeks is the least week. *)
Lemma sortedWeeks_head (ws : list number) (w : number) (rest : list number) :
  Forall not_NaN ws -> sortedWeeks ws = w :: rest ->
  In w ws /\ forall v, In v ws -> num_leb w v = true.
Proof.
  intros Hn E. assert (Hw : In w (sortedWeeks ws)) by (rewrite E; now left).
  split; [now apply sortedWeeks_In|]. intros v Hv.
  pose proof (sortedWeeks_strict ws Hn) as Hs. rewrite E in Hs.
  destruct (sortedWeeks_has ws v Hv) as (v' & Hv' & Es).
  rewrite Forall_forall in Hn.
  rewrite (sameValueZero_strict v v' (Hn v Hv)) in Es.
  apply leb_strict_eq with v'; [|exact Es].
  rewrite E in Hv'. destruct Hv' as [<- | Hv'].
  - apply leb_refl. apply Hn. now apply sortedWeeks_In.
  - inversion Hs as [|? ? _ Hall]; subst. rewrite Forall_forall in Hall.
    apply leb_of_lt. now apply Hall.
Qed.

Lemma sortedWeeks_nonempty (ws : list number) : ws <> [] -> sortedWeeks ws <> [].
Proof.
  destruct ws as [|w ws]; [congruence|]. intros _ E.
  destruct (sortedWeeks_has (w :: ws) w (or_introl eq_refl)) as (w' & Hw' & _).
  rewrite E in Hw'. contradiction.
Qed.

(** X17.  After an accepted upload the active week is unchanged if no row
    was kept; otherwise it is the least week of the rows kept. *)
Theorem upload_active_week (f : File) (st : Upload) :
  error (handleFileUpload (Some f) st) = EmptyString ->
  (data (handleFileUpload (Some f) st) = [] ->
   activeWeek (handleFileUpload (Some f) st) = activeWeek st)
  /\ (data (handleFileUpload (Some f) st) <> [] ->
      (exists r, In r (data (handleFileUpload (Some f) st))
                 /\ CsvRow.Wk r = activeWeek (handleFileUpload (Some f) st))
      /\ forall r, In r (data (handleFileUpload (Some f) st)) ->
           num_leb (activeWeek (handleFileUpload (Some f) st)) (CsvRow.Wk r) = true).
Proof.
  cbn [handleFileUpload]. destruct (endsWith (name f) ".csv"); cbn [negb];
    [|intros H; discriminate H].
  unfold onload.
  destruct (List.length (Str.split newline (text f)) <? 2)%nat; [intros H; discriminate H|].
  set (rows := filter complete (map parseLine (tl (Str.split newline (text f))))).
  intros _.
  assert (Hn : Forall not_NaN (map CsvRow.Wk rows)).
  { apply Forall_map. eapply Forall_impl; [|apply rows_usable].
    intros r (Hw & _). now apply truthy_not_NaN. }
  destruct rows as [|r0 rows'] eqn:Er.
  - cbn. split; [reflexivity | congruence].
  - cbn [List.length Nat.ltb Nat.leb].
    destruct (sortedWeeks (map CsvRow.Wk (r0 :: rows'))) as [|w rest] eqn:Ew.
    + exfalso. revert Ew. apply sortedWeeks_nonempty. discriminate.
    + cbn [setError setActiveWeek setData data activeWeek error].
      split; [discriminate|]. intros _.
      destruct (sortedWeeks_head _ w rest Hn Ew) as [Hin Hle]. split.
      * apply in_map_iff in Hin. destruct Hin as (r & E & Hr). eauto.
      * intros r Hr. apply Hle. now apply in_map.
Qed.

Example upload_sample :
  map (fun r => (CsvRow.Wk r, CsvRow.Home r, CsvRow.Score r, CsvRow.Referee r))
      (data (handleFileUpload (Some (mkFile "matches.csv" sample_csv))
                              (mkUpload [] "old" (of_Z 9))))
  = [ (of_Z 2, Some "Manchester Utd", Some "2–1", Some "Anthony Taylor");
      (of_Z 1, Some "Manchester Utd", Some "1–0", None) ]
  /\ activeWeek (handleFileUpload (Some (mkFile "matches.csv" sample_csv))
                                  (mkUpload [] "old" (of_Z 9))) = of_Z 1.
Proof. vm_compute. split; reflexivity. Qed.

Lemma upload_active_week_sample :
  Forall
    (fun r =>
       num_leb (activeWeek (handleFileUpload (Some (mkFile "matches.csv" sample_csv))
                                             (mkUpload [] "old" (of_Z 9))))
               (CsvRow.Wk r) = true)
    (data (handleFileUpload (Some (mkFile "matches.csv" sample_csv))
                            (mkUpload [] "old" (of_Z 9)))).
Proof.
  apply Forall_forall.
  apply (upload_active_week (mkFile "matches.csv" sample_csv) (mkUpload [] "old" (of_Z 9))).
  - vm_compute. reflexivity.
  - vm_compute. discriminate.
Defined.
